(** * Cosmos Navigator: orbital mechanics, body hierarchy and time controller

    A shallow embedding of the numerical core of the application
    (utils/invariant.ts, bodies/OrbitalMechanics.ts, bodies/CelestialBody.ts
    with its subclasses in bodies/Sun.ts, bodies/Planet.ts and
    bodies/Moon.ts, bodies/RingSystem.ts, bodies/SolarSystemBuilder.ts,
    systems/TimeController.ts) and the properties established about it.

    JavaScript numbers are IEEE 754 binary64 values.  They are modelled by
    the executable specification of binary floating point of the standard
    library ([spec_float], precision 53, exponent bound 1024), so that every
    arithmetic step of the program rounds as it does at run time.  The
    functions [Math.sin], [Math.cos], [Math.tan] and [Math.atan], which
    ECMAScript leaves implementation-approximated, are parameters, and so
    are the operations of three.js that the update pass calls and the
    clock [performance.now()]. *)

From Stdlib Require Import ZArith Bool List Lia String.
From Stdlib Require Import Floats.SpecFloat.
From Stdlib Require Import DecimalString.
Import ListNotations.

Local Open Scope Z_scope.

(** ** JavaScript numbers *)

Module F64.

Definition prec : Z := 53.
Definition emax : Z := 1024.

Definition float : Type := spec_float.

Definition add : float -> float -> float := SFadd prec emax.
Definition sub : float -> float -> float := SFsub prec emax.
Definition mul : float -> float -> float := SFmul prec emax.
Definition div : float -> float -> float := SFdiv prec emax.
Definition sqrt : float -> float := SFsqrt prec emax.
Definition opp : float -> float := SFopp.
Definition abs : float -> float := SFabs.

(** [<], [<=], [===], [>], [>=]: false as soon as one side is NaN. *)
Definition ltb : float -> float -> bool := SFltb.
Definition leb : float -> float -> bool := SFleb.
Definition eqb : float -> float -> bool := SFeqb.
Definition gtb (x y : float) : bool := SFltb y x.
Definition geb (x y : float) : bool := SFleb y x.

(** An integer literal, or an integer-valued field, as a number. *)
Definition of_Z (n : Z) : float := binary_normalize prec emax n 0 false.

(** The decimal literal [m / 10^k].  Both [m] and [10^k] are exact
    for the literals of the program, so the correctly rounded quotient is
    the value the literal denotes. *)
Definition dec (m : Z) (k : nat) : float :=
  div (of_Z m) (of_Z (10 ^ Z.of_nat k)).

Definition zero : float := S754_zero false.
Definition one : float := of_Z 1.

(** [Number.EPSILON] = 2^-52 and [Math.PI]. *)
Definition EPSILON : float := S754_finite false 4503599627370496 (-104).
Definition PI : float := S754_finite false 7074237752028440 (-51).

Definition isNaN (x : float) : bool :=
  match x with S754_nan => true | _ => false end.

Definition isFinite (x : float) : bool :=
  match x with
  | S754_zero _ | S754_finite _ _ _ => true
  | S754_infinity _ | S754_nan => false
  end.

(** Truthiness of a number, as [||] and [if] see it. *)
Definition truthy (x : float) : bool :=
  match x with
  | S754_zero _ | S754_nan => false
  | _ => true
  end.

(** [Math.floor]. *)
Definition floor (x : float) : float :=
  match x with
  | S754_finite s m e =>
      if 0 <=? e then x
      else
        match Z.shiftr (cond_Zopp s (Zpos m)) (- e) with
        | Z0 => S754_zero s
        | n => binary_normalize prec emax n 0 s
        end
  | _ => x
  end.

(** The remainder operator [%]: exact, with the sign of the dividend. *)
Definition rem (x y : float) : float :=
  match x, y with
  | S754_nan, _ | _, S754_nan => S754_nan
  | S754_infinity _, _ => S754_nan
  | _, S754_zero _ => S754_nan
  | S754_zero _, _ => x
  | S754_finite _ _ _, S754_infinity _ => x
  | S754_finite sx mx ex, S754_finite _ my ey =>
      let ez := Z.min ex ey in
      let X := Zpos (fst (shl_align mx ex ez)) in
      let Y := Zpos (fst (shl_align my ey ez)) in
      binary_normalize prec emax (cond_Zopp sx (Z.rem X Y)) ez sx
  end.

(** ToIntegerOrInfinity on a finite number: truncation toward zero. *)
Definition trunc (x : float) : option Z :=
  match x with
  | S754_zero _ => Some 0
  | S754_finite s m e =>
      Some (cond_Zopp s (if 0 <=? e then Z.shiftl (Zpos m) e
                         else Z.shiftr (Zpos m) (- e)))
  | _ => None
  end.

End F64.

Export F64 (float).

Declare Scope js_scope.
Delimit Scope js_scope with js.
Bind Scope js_scope with F64.float.

Notation "x + y" := (F64.add x y) : js_scope.
Notation "x - y" := (F64.sub x y) : js_scope.
Notation "x * y" := (F64.mul x y) : js_scope.
Notation "x / y" := (F64.div x y) : js_scope.
Notation "- x" := (F64.opp x) : js_scope.
Notation "x <? y" := (F64.ltb x y) : js_scope.
Notation "x <=? y" := (F64.leb x y) : js_scope.
Notation "x >? y" := (F64.gtb x y) : js_scope.
Notation "x >=? y" := (F64.geb x y) : js_scope.

(** Number literals: [num 360] is [360], [dec 306001 4] is [30.6001]. *)
Definition num : Z -> float := F64.of_Z.
Definition dec : Z -> nat -> float := F64.dec.

(** ** Exceptions

    Every assertion of utils/invariant.ts throws an [InvariantError]; the
    constructors below name the assertion that failed and carry what its
    message is built from. *)

Inductive error : Type :=
| NotANumber (name : string)               (* `${name} must be a valid number, got NaN` *)
| NotFinite (name : string)                (* `${name} must be finite` *)
| OutOfBounds (name : string) (min max : float)
                                           (* `${name} must be between ${min} and ${max}` *)
| NotPositive (name : string)              (* `${name} must be positive (> 0)` *)
| Negative (name : string)                 (* `${name} must be non-negative (>= 0)` *)
| Violated (message : string).             (* invariant(condition, message) *)

Inductive result (A : Type) : Type :=
| Ok (a : A)
| Throw (err : error).

Arguments Ok {A} a.
Arguments Throw {A} err.

Definition bind {A B : Type} (r : result A) (k : A -> result B) : result B :=
  match r with
  | Ok a => k a
  | Throw err => Throw err
  end.

Declare Scope result_scope.
Delimit Scope result_scope with result.
Bind Scope result_scope with result.

Notation "x <- r ;; k" := (bind r (fun x => k))
  (at level 100, r at next level, right associativity) : result_scope.
Notation "r ;; k" := (bind r (fun _ => k))
  (at level 100, right associativity) : result_scope.

Local Open Scope result_scope.

Definition show_nat (n : nat) : string := NilEmpty.string_of_uint (Nat.to_uint n).

(** ** utils/invariant.ts *)

Local Open Scope string_scope.

Definition check (condition : bool) (err : error) : result unit :=
  if condition then Ok tt else Throw err.

Definition invariant (condition : bool) (message : string) : result unit :=
  check condition (Violated message).

Definition postcondition (condition : bool) (message : string) : result unit :=
  invariant condition ("POSTCONDITION FAILED: " ++ message).

Definition assertFinite (value : float) (name : string) : result unit :=
  check (negb (F64.isNaN value)) (NotANumber name) ;;
  check (F64.isFinite value) (NotFinite name).

Definition assertBounds (value min max : float) (name : string) : result unit :=
  check (negb (F64.isNaN value)) (NotANumber name) ;;
  check (F64.isFinite value) (NotFinite name) ;;
  check ((value >=? min)%js && (value <=? max)%js) (OutOfBounds name min max).

Definition assertPositive (value : float) (name : string) : result unit :=
  check (negb (F64.isNaN value)) (NotANumber name) ;;
  check (F64.isFinite value) (NotFinite name) ;;
  check (value >? F64.zero)%js (NotPositive name).

Definition assertNonNegative (value : float) (name : string) : result unit :=
  check (negb (F64.isNaN value)) (NotANumber name) ;;
  check (F64.isFinite value) (NotFinite name) ;;
  check (value >=? F64.zero)%js (Negative name).

(** ** bodies/OrbitalMechanics.ts *)

(** The implementation-approximated functions of [Math]. *)
Record MathLib : Type := {
  Math_sin : float -> float;
  Math_cos : float -> float;
  Math_tan : float -> float;
  Math_atan : float -> float
}.

Definition J2000_JD : float := num 2451545.
Definition MAX_KEPLER_ITERATIONS : nat := 100.
Definition KEPLER_TOLERANCE : float := dec 1 10.
Definition MAX_SEMI_MAJOR_AXIS : float := num 100000.
Definition MIN_SEMI_MAJOR_AXIS : float := dec 1 5.

Record OrbitalElements : Type := {
  semiMajorAxis : float;
  eccentricity : float;
  inclination : float;
  longitudeOfAscendingNode : float;
  argumentOfPerihelion : float;
  meanAnomaly : float;
  meanMotion : option float;
  epoch : option float
}.

Record CartesianPosition : Type := { x : float; y : float; z : float }.

Section OrbitalMechanics.

Variable math : MathLib.

Local Abbreviation sin := (Math_sin math).
Local Abbreviation cos := (Math_cos math).
Local Abbreviation tan := (Math_tan math).
Local Abbreviation atan := (Math_atan math).

Local Open Scope js_scope.

(** One pass through the body of the Newton-Raphson loop at index [i]:
    the step [dE] and the updated [E]. *)
Definition newton_step (e M E : float) (i : nat) : result (float * float) :=
  let denominator := F64.one - e * cos E in
  invariant (F64.abs denominator >? F64.EPSILON)
            "Kepler equation denominator must not be zero" ;;
  let dE := (E - e * sin E - M) / denominator in
  assertFinite dE ("Kepler iteration step " ++ show_nat i) ;;
  let E := E - dE in
  assertFinite E ("Eccentric anomaly after iteration " ++ show_nat i) ;;
  Ok (dE, E).

(** [for (let i = 0; i < maxIterations; i++) { ... }]: [remaining] counts
    the iterations left, [i] is the loop index.  The result is the pair
    [(converged, E)] the loop leaves behind. *)
Fixpoint newton_loop (remaining i : nat) (e M tolerance E : float)
  : result (bool * float) :=
  match remaining with
  | O => Ok (false, E)
  | S remaining' =>
      s <- newton_step e M E i ;;
      let '(dE, E') := s in
      if F64.abs dE <? tolerance then Ok (true, E')
      else newton_loop remaining' (S i) e M tolerance E'
  end.

Definition solveKeplerEquation
  (meanAnomaly eccentricity tolerance : float) (maxIterations : nat)
  : result float :=
  assertFinite meanAnomaly "Mean anomaly for Kepler equation" ;;
  assertFinite eccentricity "Eccentricity for Kepler equation" ;;
  assertBounds eccentricity F64.zero (F64.one - F64.EPSILON) "Eccentricity" ;;
  assertPositive tolerance "Kepler tolerance" ;;
  assertPositive (num (Z.of_nat maxIterations)) "Max Kepler iterations" ;;
  let M := meanAnomaly * (F64.PI / num 180) in
  let e := eccentricity in
  assertFinite M "Mean anomaly in radians" ;;
  let E := if e >? dec 8 1 then F64.PI else M in
  r <- newton_loop maxIterations 0 e M tolerance E ;;
  let '(converged, E) := r in
  invariant converged "Kepler equation must converge" ;;
  assertFinite E "Final eccentric anomaly" ;;
  Ok E.

Definition trueAnomalyFromEccentric (eccentricAnomaly eccentricity : float)
  : result float :=
  assertFinite eccentricAnomaly "Eccentric anomaly" ;;
  assertFinite eccentricity "Eccentricity" ;;
  assertBounds eccentricity F64.zero (F64.one - F64.EPSILON)
               "Eccentricity for true anomaly" ;;
  let e := eccentricity in
  let E := eccentricAnomaly in
  let denominator := F64.one - e in
  invariant (denominator >? F64.zero) "Denominator (1-e) must be positive" ;;
  let sqrtTerm := F64.sqrt ((F64.one + e) / denominator) in
  assertFinite sqrtTerm "Sqrt term in true anomaly calculation" ;;
  let tanHalfNu := sqrtTerm * tan (E / num 2) in
  assertFinite tanHalfNu "Tan half nu" ;;
  let nu := num 2 * atan tanHalfNu in
  assertFinite nu "True anomaly" ;;
  Ok nu.

Definition calculateHeliocentricDistance
  (semiMajorAxis eccentricity trueAnomaly : float) : result float :=
  assertPositive semiMajorAxis "Semi-major axis for distance" ;;
  assertFinite eccentricity "Eccentricity for distance" ;;
  assertBounds eccentricity F64.zero (F64.one - F64.EPSILON)
               "Eccentricity for distance" ;;
  assertFinite trueAnomaly "True anomaly for distance" ;;
  let a := semiMajorAxis in
  let e := eccentricity in
  let nu := trueAnomaly in
  let denominator := F64.one + e * cos nu in
  invariant (denominator >? F64.zero)
            "Heliocentric distance denominator must be positive" ;;
  let numerator := a * (F64.one - e * e) in
  assertFinite numerator "Heliocentric distance numerator" ;;
  let r := numerator / denominator in
  assertFinite r "Heliocentric distance" ;;
  assertPositive r "Heliocentric distance" ;;
  Ok r.

(** [elements.meanMotion || (360 / (Math.sqrt(a * a * a) * 365.25))]:
    the right operand is taken whenever the left one is falsy, that is
    [undefined], [0], [-0] or [NaN]. *)
Definition mean_motion (elements : OrbitalElements) : float :=
  let a := semiMajorAxis elements in
  let derived := num 360 / (F64.sqrt (a * a * a) * dec 36525 2) in
  match meanMotion elements with
  | Some supplied => if F64.truthy supplied then supplied else derived
  | None => derived
  end.

(** [let M = (M0 + n * daysSinceEpoch) % 360; if (M < 0) M += 360;] *)
Definition current_mean_anomaly (M0 n daysSinceEpoch : float) : float :=
  let M := F64.rem (M0 + n * daysSinceEpoch) (num 360) in
  if M <? F64.zero then M + num 360 else M.

Definition calculatePosition (elements : OrbitalElements) (julianDate : float)
  : result CartesianPosition :=
  assertFinite julianDate "Julian date for position" ;;
  let a := semiMajorAxis elements in
  let e := eccentricity elements in
  let i := inclination elements in
  let omega := longitudeOfAscendingNode elements in
  let w := argumentOfPerihelion elements in
  let M0 := meanAnomaly elements in
  let epoch := match epoch elements with Some t => t | None => J2000_JD end in
  assertPositive a "Semi-major axis" ;;
  assertBounds a MIN_SEMI_MAJOR_AXIS MAX_SEMI_MAJOR_AXIS "Semi-major axis" ;;
  assertFinite e "Eccentricity" ;;
  assertBounds e F64.zero (F64.one - F64.EPSILON) "Eccentricity" ;;
  assertFinite i "Inclination" ;;
  assertFinite omega "Longitude of ascending node" ;;
  assertFinite w "Argument of perihelion" ;;
  assertFinite M0 "Mean anomaly at epoch" ;;
  assertFinite epoch "Epoch" ;;
  let n := mean_motion elements in
  assertFinite n "Mean motion" ;;
  assertPositive n "Mean motion" ;;
  let daysSinceEpoch := julianDate - epoch in
  assertFinite daysSinceEpoch "Days since epoch" ;;
  let M := current_mean_anomaly M0 n daysSinceEpoch in
  assertFinite M "Current mean anomaly" ;;
  E <- solveKeplerEquation M e KEPLER_TOLERANCE MAX_KEPLER_ITERATIONS ;;
  assertFinite E "Eccentric anomaly from Kepler" ;;
  nu <- trueAnomalyFromEccentric E e ;;
  assertFinite nu "True anomaly" ;;
  r <- calculateHeliocentricDistance a e nu ;;
  assertFinite r "Heliocentric distance" ;;
  assertPositive r "Heliocentric distance" ;;
  let iRad := i * (F64.PI / num 180) in
  let omegaRad := omega * (F64.PI / num 180) in
  let wRad := w * (F64.PI / num 180) in
  assertFinite iRad "Inclination in radians" ;;
  assertFinite omegaRad "Longitude of ascending node in radians" ;;
  assertFinite wRad "Argument of perihelion in radians" ;;
  let x_orbital := r * cos nu in
  let y_orbital := r * sin nu in
  assertFinite x_orbital "Orbital plane x" ;;
  assertFinite y_orbital "Orbital plane y" ;;
  let cosW := cos wRad in
  let sinW := sin wRad in
  let cosOmega := cos omegaRad in
  let sinOmega := sin omegaRad in
  let cosI := cos iRad in
  let sinI := sin iRad in
  let x := (cosW * cosOmega - sinW * sinOmega * cosI) * x_orbital +
           (- sinW * cosOmega - cosW * sinOmega * cosI) * y_orbital in
  let y := (cosW * sinOmega + sinW * cosOmega * cosI) * x_orbital +
           (- sinW * sinOmega + cosW * cosOmega * cosI) * y_orbital in
  let z := (sinW * sinI) * x_orbital + (cosW * sinI) * y_orbital in
  assertFinite x "Final position x" ;;
  assertFinite y "Final position y" ;;
  assertFinite z "Final position z" ;;
  Ok {| x := x; y := y; z := z |}.

End OrbitalMechanics.

(** ** Methods on mutable objects

    A method runs on the state of the object it belongs to and either
    returns or throws; in both cases it leaves the state as its assignments
    made it: an exception does not undo the writes that precede it. *)

Inductive outcome (S A : Type) : Type :=
| Returns (a : A) (s : S)
| Throws (err : error) (s : S).

Arguments Returns {S A} a s.
Arguments Throws {S A} err s.

Definition method (S A : Type) : Type := S -> outcome S A.

Definition ret {S A : Type} (a : A) : method S A := fun s => Returns a s.

Definition mbind {S A B : Type} (m : method S A) (k : A -> method S B)
  : method S B :=
  fun s =>
    match m s with
    | Returns a s' => k a s'
    | Throws err s' => Throws err s'
    end.

(** A call that does not touch the state. *)
Definition lift {S A : Type} (r : result A) : method S A :=
  fun s =>
    match r with
    | Ok a => Returns a s
    | Throw err => Throws err s
    end.

Definition get {S : Type} : method S S := fun s => Returns s s.
Definition put {S : Type} (s : S) : method S unit := fun _ => Returns tt s.

Declare Scope method_scope.
Delimit Scope method_scope with method.
Bind Scope method_scope with method.

Notation "x <- m ;; k" := (mbind m (fun x => k))
  (at level 100, m at next level, right associativity) : method_scope.
Notation "m ;; k" := (mbind m (fun _ => k))
  (at level 100, right associativity) : method_scope.

(** ** The built-in [Date]

    A [Date] object is its time value: a number of milliseconds since
    1970-01-01T00:00:00Z, or NaN for an invalid date.  The UTC getters and
    [Date.UTC] follow the abstract operations of ECMAScript (Day,
    TimeWithinDay, YearFromTime, MonthFromTime, DateFromTime, MakeDay,
    MakeTime, MakeDate, TimeClip) on the proleptic Gregorian calendar. *)

Module JSDate.

Local Open Scope Z_scope.

Definition Date : Type := option Z.

Definition msPerDay : Z := 86400000.

Definition Day (t : Z) : Z := t / msPerDay.
Definition TimeWithinDay (t : Z) : Z := t mod msPerDay.

(** Year, month (1 to 12) and day of month of a day number counted from
    1970-01-01, and back. *)
Definition civil_from_days (days : Z) : Z * Z * Z :=
  let z := days + 719468 in
  let era := z / 146097 in
  let doe := z - era * 146097 in
  let yoe := (doe - doe / 1460 + doe / 36524 - doe / 146096) / 365 in
  let doy := doe - (365 * yoe + yoe / 4 - yoe / 100) in
  let mp := (5 * doy + 2) / 153 in
  let d := doy - (153 * mp + 2) / 5 + 1 in
  let m := if mp <? 10 then mp + 3 else mp - 9 in
  let y := yoe + era * 400 in
  (if m <=? 2 then y + 1 else y, m, d).

Definition days_from_civil (year month day : Z) : Z :=
  let y := if month <=? 2 then year - 1 else year in
  let era := y / 400 in
  let yoe := y - era * 400 in
  let mp := if month <=? 2 then month + 9 else month - 3 in
  let doy := (153 * mp + 2) / 5 + day - 1 in
  let doe := yoe * 365 + yoe / 4 - yoe / 100 + doy in
  era * 146097 + doe - 719468.

Definition getUTCFullYear (t : Z) : Z := fst (fst (civil_from_days (Day t))).
Definition getUTCMonth (t : Z) : Z := snd (fst (civil_from_days (Day t))) - 1.
Definition getUTCDate (t : Z) : Z := snd (civil_from_days (Day t)).
Definition getUTCHours (t : Z) : Z := TimeWithinDay t / 3600000.
Definition getUTCMinutes (t : Z) : Z := (TimeWithinDay t / 60000) mod 60.
Definition getUTCSeconds (t : Z) : Z := (TimeWithinDay t / 1000) mod 60.

Definition MakeDay (year month date : Z) : Z :=
  days_from_civil (year + month / 12) (month mod 12 + 1) 1 + date - 1.

Definition MakeTime (hour min sec ms : Z) : Z :=
  hour * 3600000 + min * 60000 + sec * 1000 + ms.

Definition MakeDate (day time : Z) : Z := day * msPerDay + time.

Definition TimeClip (t : Z) : Date :=
  if Z.abs t <=? 8640000000000000 then Some t else None.

(** [new Date(Date.UTC(year, month, date, hours, minutes, seconds))]. *)
Definition UTC (year month date hours minutes seconds : float) : Date :=
  match F64.trunc year, F64.trunc month, F64.trunc date,
        F64.trunc hours, F64.trunc minutes, F64.trunc seconds with
  | Some y, Some m, Some dt, Some h, Some mi, Some s =>
      let yr := if (0 <=? y) && (y <=? 99) then 1900 + y else y in
      TimeClip (MakeDate (MakeDay yr m dt) (MakeTime h mi s 0))
  | _, _, _, _, _, _ => None
  end.

(** The date with the given UTC fields (month from 1 to 12). *)
Definition ymdhms (year month date hours minutes seconds : Z) : Date :=
  TimeClip (MakeDate (MakeDay year (month - 1) date)
                     (MakeTime hours minutes seconds 0)).

End JSDate.

Export JSDate (Date).

(** ** systems/TimeController.ts *)

Module TimeController.

Local Open Scope js_scope.

Definition MAX_TIME_SCALE : float := num 10000000.
Definition MIN_JULIAN_DATE : float := num 0.
Definition MAX_JULIAN_DATE : float := num 20000000.

Record TimeState : Type := {
  state_julianDate : float;
  simulationTime : float;
  calendarDate : Date;
  state_timeScale : float;
  state_isPaused : bool;
  isReversed : bool
}.

(** The private fields of a controller. *)
Record t : Type := {
  julianDate : float;
  timeScale : float;
  isPaused : bool;
  accumulatedTime : float
}.

(** *** Calendar conversions (they do not touch the fields) *)

Definition dateToJulian (date : Date) : result float :=
  match date with
  | None => Throw (Violated "date must be a valid Date object")
  | Some time =>
      let year := num (JSDate.getUTCFullYear time) in
      let month := num (JSDate.getUTCMonth time) + num 1 in
      let day := num (JSDate.getUTCDate time) in
      let hour := num (JSDate.getUTCHours time) in
      let minute := num (JSDate.getUTCMinutes time) in
      let second := num (JSDate.getUTCSeconds time) in
      let small := month <=? num 2 in
      let y := if small then year - num 1 else year in
      let m := if small then month + num 12 else month in
      let A := F64.floor (y / num 100) in
      let B := num 2 - A + F64.floor (A / num 4) in
      let JD := F64.floor (dec 36525 2 * (y + num 4716)) +
                F64.floor (dec 306001 4 * (m + num 1)) +
                day + B - dec 15245 1 +
                (hour + minute / num 60 + second / num 3600) / num 24 in
      assertFinite JD "Calculated Julian date" ;;
      Ok JD
  end.

Definition in_band (jd : float) : bool :=
  (jd >? MIN_JULIAN_DATE) && (jd <? MAX_JULIAN_DATE).

Definition julianToDate (jd : float) : result Date :=
  assertFinite jd "Julian date for conversion" ;;
  invariant (in_band jd) "Julian date must be in valid range for conversion" ;;
  let Z := F64.floor (jd + dec 5 1) in
  let F := jd + dec 5 1 - Z in
  let A :=
    if Z <? num 2299161 then Z
    else
      let alpha := F64.floor ((Z - dec 186721625 2) / dec 3652425 2) in
      Z + num 1 + alpha - F64.floor (alpha / num 4) in
  let B := A + num 1524 in
  let C := F64.floor ((B - dec 1221 1) / dec 36525 2) in
  let D := F64.floor (dec 36525 2 * C) in
  let E := F64.floor ((B - D) / dec 306001 4) in
  let day := B - D - F64.floor (dec 306001 4 * E) in
  let month := if E <? num 14 then E - num 1 else E - num 13 in
  let year := if month >? num 2 then C - num 4716 else C - num 4715 in
  let fracDay := F * num 24 in
  let hour := F64.floor fracDay in
  let fracHour := (fracDay - hour) * num 60 in
  let minute := F64.floor fracHour in
  let second := F64.floor ((fracHour - minute) * num 60) in
  let result := JSDate.UTC year (month - num 1) day hour minute second in
  postcondition (match result with Some _ => true | None => false end)
                "julianToDate must produce valid Date" ;;
  Ok result.

(** *** Methods *)

Definition set_julianDate (v : float) : method t unit :=
  fun this =>
    Returns tt {| julianDate := v; timeScale := timeScale this;
                  isPaused := isPaused this;
                  accumulatedTime := accumulatedTime this |}.

Definition set_timeScale (v : float) : method t unit :=
  fun this =>
    Returns tt {| julianDate := julianDate this; timeScale := v;
                  isPaused := isPaused this;
                  accumulatedTime := accumulatedTime this |}.

Definition set_isPaused (v : bool) : method t unit :=
  fun this =>
    Returns tt {| julianDate := julianDate this; timeScale := timeScale this;
                  isPaused := v;
                  accumulatedTime := accumulatedTime this |}.

Definition set_accumulatedTime (v : float) : method t unit :=
  fun this =>
    Returns tt {| julianDate := julianDate this; timeScale := timeScale this;
                  isPaused := isPaused this;
                  accumulatedTime := v |}.

Local Open Scope method_scope.

(** [new TimeController()], with the current instant read by [new Date()]
    as a parameter. *)
Definition constructor (now : Date) : result t :=
  (jd <- dateToJulian now ;;
   assertFinite jd "Initial Julian date" ;;
   invariant (in_band jd) "Initial Julian date must be in valid range" ;;
   Ok {| julianDate := jd; timeScale := num 1; isPaused := false;
         accumulatedTime := num 0 |})%result.

Definition getCalendarDate : method t Date :=
  this <- get ;;
  lift (julianToDate (julianDate this)).

Definition getState : method t TimeState :=
  this <- get ;;
  date <- getCalendarDate ;;
  ret {| state_julianDate := julianDate this;
         simulationTime := accumulatedTime this;
         calendarDate := date;
         state_timeScale := timeScale this;
         state_isPaused := isPaused this;
         isReversed := timeScale this <? num 0 |}.

(** [const state = this.getState(); this.listeners.forEach(...)].  The
    registered callbacks belong to the user interface; they receive the
    state and have no access to the fields. *)
Definition notifyListeners : method t unit :=
  state <- getState ;;
  ret tt.

Definition update (deltaSeconds : float) : method t unit :=
  this <- get ;;
  if isPaused this then ret tt
  else
    lift (assertFinite deltaSeconds "Delta seconds") ;;
    lift (assertNonNegative deltaSeconds "Delta seconds") ;;
    let deltaDays := (deltaSeconds * timeScale this) / num 86400 in
    lift (assertFinite deltaDays "Delta days") ;;
    set_julianDate (julianDate this + deltaDays) ;;
    set_accumulatedTime (accumulatedTime this + deltaSeconds * num 1000) ;;
    this <- get ;;
    lift (assertFinite (julianDate this) "Julian date after update") ;;
    lift (invariant (in_band (julianDate this))
                    "Julian date must remain in valid range after update") ;;
    lift (assertNonNegative (accumulatedTime this) "Accumulated time") ;;
    notifyListeners.

Definition setTimeScale (scale : float) : method t unit :=
  lift (assertFinite scale "Time scale") ;;
  lift (assertBounds (F64.abs scale) (num 0) MAX_TIME_SCALE "Absolute time scale") ;;
  set_timeScale scale ;;
  notifyListeners.

Definition pause : method t unit :=
  set_isPaused true ;;
  notifyListeners.

Definition resume : method t unit :=
  set_isPaused false ;;
  notifyListeners.

Definition togglePause : method t unit :=
  this <- get ;;
  set_isPaused (negb (isPaused this)) ;;
  notifyListeners.

Definition reverse : method t unit :=
  this <- get ;;
  set_timeScale (- F64.abs (timeScale this)) ;;
  notifyListeners.

Definition forward : method t unit :=
  this <- get ;;
  set_timeScale (F64.abs (timeScale this)) ;;
  notifyListeners.

Definition setDate (date : Date) : method t unit :=
  lift (invariant (match date with Some _ => true | None => false end)
                  "setDate requires valid Date object") ;;
  jd <- lift (dateToJulian date) ;;
  set_julianDate jd ;;
  notifyListeners.

Definition setJulianDate (jd : float) : method t unit :=
  lift (assertFinite jd "Julian date for setJulianDate") ;;
  lift (invariant (in_band jd) "Julian date must be in valid range") ;;
  set_julianDate jd ;;
  notifyListeners.

(** [jumpToNow], with the instant read by [new Date()] as a parameter. *)
Definition jumpToNow (now : Date) : method t unit :=
  jd <- lift (dateToJulian now) ;;
  set_julianDate jd ;;
  notifyListeners.

Definition jumpToJ2000 : method t unit :=
  set_julianDate J2000_JD ;;
  notifyListeners.

Definition addDays (days : float) : method t unit :=
  lift (assertFinite days "Days to add") ;;
  this <- get ;;
  let newJd := julianDate this + days in
  lift (invariant (in_band newJd)
                  "Julian date must remain in valid range after adding days") ;;
  set_julianDate newJd ;;
  notifyListeners.

(** The state-changing part of the public interface, as one type of
    requests. *)
Inductive operation : Type :=
| Update (deltaSeconds : float)
| SetTimeScale (scale : float)
| Pause
| Resume
| TogglePause
| Reverse
| Forward
| SetDate (date : Date)
| SetJulianDate (jd : float)
| AddDays (days : float)
| JumpToJ2000.

Definition run (o : operation) : method t unit :=
  match o with
  | Update deltaSeconds => update deltaSeconds
  | SetTimeScale scale => setTimeScale scale
  | Pause => pause
  | Resume => resume
  | TogglePause => togglePause
  | Reverse => reverse
  | Forward => forward
  | SetDate date => setDate date
  | SetJulianDate jd => setJulianDate jd
  | AddDays days => addDays days
  | JumpToJ2000 => jumpToJ2000
  end.

End TimeController.

(** ** three.js

    The library is not part of the sources.  Of an [Object3D] the update
    pass uses the orientation: [rotation], a triple of Euler angles, and
    [quaternion]; the library keeps the two in step, recomputing one
    whenever the other is assigned.  The operations the pass calls are,
    like the functions of [Math], parameters. *)

Module THREE.

Record Vector3 : Type := { x : float; y : float; z : float }.

Definition origin : Vector3 := {| x := F64.zero; y := F64.zero; z := F64.zero |}.

Record Euler : Type := { euler_x : float; euler_y : float; euler_z : float }.

Record Quaternion : Type :=
  { quat_x : float; quat_y : float; quat_z : float; quat_w : float }.

Record Mesh : Type := { rotation : Euler; quaternion : Quaternion }.

(** [new THREE.Mesh(...)]: the identity orientation. *)
Definition new_Mesh : Mesh :=
  {| rotation := {| euler_x := F64.zero; euler_y := F64.zero; euler_z := F64.zero |};
     quaternion := {| quat_x := F64.zero; quat_y := F64.zero; quat_z := F64.zero;
                      quat_w := F64.one |} |}.

(** [new Vector3().subVectors(a, b)] and [v.negate()]. *)
Definition subVectors (a b : Vector3) : Vector3 :=
  {| x := (x a - x b)%js; y := (y a - y b)%js; z := (z a - z b)%js |}.

Definition negate (v : Vector3) : Vector3 :=
  {| x := (- x v)%js; y := (- y v)%js; z := (- z v)%js |}.

End THREE.

Record ThreeLib : Type := {
  (** [v.normalize()] *)
  Vector3_normalize : THREE.Vector3 -> THREE.Vector3;
  (** [quaternion.setFromEuler(rotation)], which an assignment to a
      component of [rotation] triggers *)
  Quaternion_setFromEuler : THREE.Euler -> THREE.Quaternion;
  (** [new Quaternion().setFromRotationMatrix(new Matrix4().lookAt(eye,
      target, up))] *)
  Quaternion_lookAt :
    THREE.Vector3 -> THREE.Vector3 -> THREE.Vector3 -> THREE.Quaternion;
  (** [mesh.quaternion.slerp(q, t)], with [mesh.rotation] kept in step *)
  Object3D_slerp : THREE.Mesh -> THREE.Quaternion -> float -> THREE.Mesh
}.

(** ** bodies/CelestialBody.ts, bodies/Sun.ts, bodies/Planet.ts and
    bodies/Moon.ts *)

(** What the subclasses add to the fields that [update] reads or writes:
    the corona of the Sun (never null: the constructor assigns a mesh,
    [createMesh] replaces it), the cloud layer of a planet and whether its
    atmosphere material exists, the tidal lock of a moon. *)
Inductive Subclass : Type :=
| Sun (corona : THREE.Mesh)
| Planet (cloudsMesh : option THREE.Mesh) (atmosphereMaterial : bool)
| Moon (tidallyLocked : bool).

(** The fields of a body that [update] reads or writes.  [parentBody] is a
    reference to another body object; every parent handed to a constructor
    by the builder is an element of [allBodies], so the reference is kept
    as the index of the parent in that array.  [position] is
    [group.position]; [mesh] is the orientation of [this.mesh], absent
    when [this.mesh] is null.  Materials, shader uniforms, geometry and
    textures are rendering state that no assertion reads; they are left
    out. *)
Record CelestialBody : Type := {
  name : string;
  radius : float;
  rotationPeriod : float;
  orbitalElements : option OrbitalElements;
  parentBody : option nat;
  position : THREE.Vector3;
  mesh : option THREE.Mesh;
  subclass : Subclass
}.

Definition SCALE_FACTOR : float := num 100.
Definition SIZE_SCALE : float := dec 1 5.
Definition SIZE_EXAGGERATION : float := num 30.
Definition MOON_ORBIT_SCALE : float := num 50.
Definition SUN_VISUAL_RADIUS : float := num 15.
Definition MAX_BODIES : nat := 200.

Definition set_position (b : CelestialBody) (p : THREE.Vector3) : CelestialBody :=
  {| name := name b; radius := radius b; rotationPeriod := rotationPeriod b;
     orbitalElements := orbitalElements b; parentBody := parentBody b;
     position := p; mesh := mesh b; subclass := subclass b |}.

Definition set_mesh (b : CelestialBody) (m : option THREE.Mesh) : CelestialBody :=
  {| name := name b; radius := radius b; rotationPeriod := rotationPeriod b;
     orbitalElements := orbitalElements b; parentBody := parentBody b;
     position := position b; mesh := m; subclass := subclass b |}.

Definition set_subclass (b : CelestialBody) (c : Subclass) : CelestialBody :=
  {| name := name b; radius := radius b; rotationPeriod := rotationPeriod b;
     orbitalElements := orbitalElements b; parentBody := parentBody b;
     position := position b; mesh := mesh b; subclass := c |}.

(** Assignment to the element at index [i] of an array of objects. *)
Fixpoint store {A : Type} (l : list A) (i : nat) (a : A) : list A :=
  match l, i with
  | [], _ => []
  | _ :: l', O => a :: l'
  | b :: l', S i' => b :: store l' i' a
  end.

(** [getScaledRadius()], which [Sun] overrides. *)
Definition getScaledRadius (this : CelestialBody) : result float :=
  match subclass this with
  | Sun _ => Ok SUN_VISUAL_RADIUS
  | _ =>
      let scaled := (radius this * SIZE_SCALE * SIZE_EXAGGERATION)%js in
      (assertPositive scaled (name this ++ " scaled radius") ;;
       Ok scaled)%result
  end.

Definition bodies : Type := list CelestialBody.

Section Bodies.

Variable math : MathLib.
Variable three : ThreeLib.

(** [performance.now()], as read by the call of [update] on the body at
    index [i]. *)
Variable performance_now : nat -> float.

Local Open Scope js_scope.
Local Open Scope method_scope.

(** [this], for the body at index [i] of [allBodies]. *)
Definition this_body (i : nat) : method bodies CelestialBody :=
  fun s =>
    match nth_error s i with
    | Some b => Returns b s
    | None => Throws (Violated "no such body") s
    end.

Definition write_body (i : nat) (b : CelestialBody) : method bodies unit :=
  fun s => Returns tt (store s i b).

(** [getPosition()]: a copy of [group.position]. *)
Definition getPosition (i : nat) : method bodies THREE.Vector3 :=
  b <- this_body i ;;
  ret (position b).

Definition assertFiniteVector (v : THREE.Vector3) (what : string)
  : result unit :=
  (assertFinite (THREE.x v) (what ++ " x") ;;
   assertFinite (THREE.y v) (what ++ " y") ;;
   assertFinite (THREE.z v) (what ++ " z"))%result.

(** [m.rotation.y], and the assignment [m.rotation.y = v]. *)
Definition rotation_y (m : THREE.Mesh) : float :=
  THREE.euler_y (THREE.rotation m).

Definition set_rotation_y (m : THREE.Mesh) (v : float) : THREE.Mesh :=
  let rotation := {| THREE.euler_x := THREE.euler_x (THREE.rotation m);
                     THREE.euler_y := v;
                     THREE.euler_z := THREE.euler_z (THREE.rotation m) |} in
  {| THREE.rotation := rotation;
     THREE.quaternion := Quaternion_setFromEuler three rotation |}.

(** [CelestialBody.update], called on the body at index [i], in its two
    blocks: "Update orbital position" and "Update rotation". *)
Definition update_orbital_position (i : nat) (julianDate : float)
  : method bodies unit :=
  this <- this_body i ;;
  match orbitalElements this with
  | Some elements =>
      pos <- lift (calculatePosition math elements julianDate) ;;
      lift (assertFinite (x pos) (name this ++ " calculated position x")) ;;
      lift (assertFinite (y pos) (name this ++ " calculated position y")) ;;
      lift (assertFinite (z pos) (name this ++ " calculated position z")) ;;
      match parentBody this with
      | Some parent =>
          parentPos <- getPosition parent ;;
          lift (assertFiniteVector parentPos (name this ++ " parent position")) ;;
          let orbitScale := SCALE_FACTOR * MOON_ORBIT_SCALE in
          write_body i (set_position this
            {| THREE.x := THREE.x parentPos + x pos * orbitScale;
               THREE.y := THREE.y parentPos + y pos * orbitScale;
               THREE.z := THREE.z parentPos + z pos * orbitScale |})
      | None =>
          write_body i (set_position this
            {| THREE.x := x pos * SCALE_FACTOR;
               THREE.y := y pos * SCALE_FACTOR;
               THREE.z := z pos * SCALE_FACTOR |})
      end ;;
      this <- this_body i ;;
      lift (assertFiniteVector (position this) (name this ++ " final position"))
  | None => ret tt
  end.

(** [this.mesh.rotation.y += rotationDelta; if
    (!Number.isFinite(this.mesh.rotation.y)) this.mesh.rotation.y = 0]. *)
Definition turned (m : THREE.Mesh) (rotationDelta : float) : THREE.Mesh :=
  let m := set_rotation_y m (rotation_y m + rotationDelta) in
  if F64.isFinite (rotation_y m) then m else set_rotation_y m F64.zero.

Definition update_rotation (i : nat) (deltaTime timeScale : float)
  : method bodies unit :=
  this <- this_body i ;;
  match mesh this with
  | Some m =>
      if negb (F64.eqb (rotationPeriod this) F64.zero) then
        let hoursPerSecond := F64.one / num 3600 in
        let rotationsPerSecond := hoursPerSecond / rotationPeriod this in
        let radiansPerSecond := rotationsPerSecond * num 2 * F64.PI in
        lift (assertFinite radiansPerSecond (name this ++ " radians per second")) ;;
        let rotationDelta := radiansPerSecond * deltaTime * timeScale in
        lift (assertFinite rotationDelta (name this ++ " rotation delta")) ;;
        write_body i (set_mesh this (Some (turned m rotationDelta)))
      else ret tt
  | None => ret tt
  end.

Definition CelestialBody_update (i : nat) (julianDate deltaTime timeScale : float)
  : method bodies unit :=
  this <- this_body i ;;
  lift (assertFinite julianDate (name this ++ " Julian date")) ;;
  lift (assertFinite deltaTime (name this ++ " delta time")) ;;
  lift (assertNonNegative deltaTime (name this ++ " delta time")) ;;
  lift (assertFinite timeScale (name this ++ " time scale")) ;;
  update_orbital_position i julianDate ;;
  update_rotation i deltaTime timeScale.

(** [Sun.update]: the base method, then the shader clock and the slow
    rotation of the surface and of the corona. *)
Definition Sun_rotation (i : nat) (deltaTime timeScale : float)
  : method bodies unit :=
  this <- this_body i ;;
  match mesh this with
  | Some m =>
      let rotationDelta := dec 1 4 * deltaTime * timeScale in
      lift (assertFinite rotationDelta "Sun rotation delta") ;;
      write_body i
        (set_mesh this (Some (set_rotation_y m (rotation_y m + rotationDelta))))
  | None => ret tt
  end.

Definition Sun_corona_rotation (i : nat) (deltaTime timeScale : float)
  : method bodies unit :=
  this <- this_body i ;;
  match subclass this with
  | Sun corona =>
      let coronaRotation := dec 8 5 * deltaTime * timeScale in
      lift (assertFinite coronaRotation "Corona rotation delta") ;;
      write_body i
        (set_subclass this
           (Sun (set_rotation_y corona (rotation_y corona + coronaRotation))))
  | _ => ret tt
  end.

Definition Sun_update (i : nat) (julianDate deltaTime timeScale : float)
  : method bodies unit :=
  CelestialBody_update i julianDate deltaTime timeScale ;;
  let time := performance_now i * dec 1 3 in
  lift (assertFinite time "Sun shader time") ;;
  Sun_rotation i deltaTime timeScale ;;
  Sun_corona_rotation i deltaTime timeScale.

(** [Planet.update]: the base method, then the rotation of the clouds and
    the direction of the Sun for the atmosphere shader. *)
Definition Planet_clouds_rotation (i : nat) (deltaTime timeScale : float)
  : method bodies unit :=
  this <- this_body i ;;
  match subclass this with
  | Planet (Some cloudsMesh) atmosphereMaterial =>
      let cloudRotation := dec 3 5 * deltaTime * timeScale in
      lift (assertFinite cloudRotation (name this ++ " cloud rotation delta")) ;;
      write_body i
        (set_subclass this
           (Planet (Some (set_rotation_y cloudsMesh
                            (rotation_y cloudsMesh + cloudRotation)))
                   atmosphereMaterial))
  | _ => ret tt
  end.

Definition Planet_sun_direction (i : nat) : method bodies unit :=
  this <- this_body i ;;
  match subclass this with
  | Planet _ true =>
      pos <- getPosition i ;;
      let sunDir := THREE.negate (Vector3_normalize three pos) in
      lift (assertFinite (THREE.x sunDir) (name this ++ " sun direction x")) ;;
      lift (assertFinite (THREE.y sunDir) (name this ++ " sun direction y")) ;;
      lift (assertFinite (THREE.z sunDir) (name this ++ " sun direction z"))
  | _ => ret tt
  end.

Definition Planet_update (i : nat) (julianDate deltaTime timeScale : float)
  : method bodies unit :=
  CelestialBody_update i julianDate deltaTime timeScale ;;
  Planet_clouds_rotation i deltaTime timeScale ;;
  Planet_sun_direction i.

(** [Moon.update]: the base method, then the tidal lock, which turns the
    mesh a tenth of the way toward facing the parent. *)
Definition Moon_tidal_lock (i : nat) : method bodies unit :=
  this <- this_body i ;;
  match subclass this, parentBody this with
  | Moon true, Some parent =>
      parentPos <- getPosition parent ;;
      moonPos <- getPosition i ;;
      lift (assertFiniteVector parentPos (name this ++ " parent position")) ;;
      lift (assertFiniteVector moonPos (name this ++ " moon position")) ;;
      let direction :=
        Vector3_normalize three (THREE.subVectors parentPos moonPos) in
      let up := {| THREE.x := num 0; THREE.y := num 1; THREE.z := num 0 |} in
      let quaternion := Quaternion_lookAt three moonPos parentPos up in
      match mesh this with
      | Some m =>
          write_body i
            (set_mesh this (Some (Object3D_slerp three m quaternion (dec 1 1))))
      | None => ret tt
      end
  | _, _ => ret tt
  end.

Definition Moon_update (i : nat) (julianDate deltaTime timeScale : float)
  : method bodies unit :=
  CelestialBody_update i julianDate deltaTime timeScale ;;
  Moon_tidal_lock i.

(** [body.update(julianDate, deltaTime, timeScale)] on the body at index
    [i]: the method of its class. *)
Definition body_update (i : nat) (julianDate deltaTime timeScale : float)
  : method bodies unit :=
  this <- this_body i ;;
  match subclass this with
  | Sun _ => Sun_update i julianDate deltaTime timeScale
  | Planet _ _ => Planet_update i julianDate deltaTime timeScale
  | Moon _ => Moon_update i julianDate deltaTime timeScale
  end.

(** [for (const body of this.allBodies) body.update(...)], from index [i]
    over the [n] bodies that remain. *)
Fixpoint update_each (n i : nat) (julianDate delta timeScale : float)
  : method bodies unit :=
  match n with
  | O => ret tt
  | S n' =>
      body_update i julianDate delta timeScale ;;
      update_each n' (S i) julianDate delta timeScale
  end.

End Bodies.

(** ** bodies/RingSystem.ts

    [RingSystem.update] checks its arguments and copies them into shader
    uniforms. *)
Definition RingSystem_update (sunPosition planetPosition : THREE.Vector3)
  (planetRadius : float) : result unit :=
  (assertFinite (THREE.x sunPosition) "Ring update sunPosition.x" ;;
   assertFinite (THREE.y sunPosition) "Ring update sunPosition.y" ;;
   assertFinite (THREE.z sunPosition) "Ring update sunPosition.z" ;;
   assertFinite (THREE.x planetPosition) "Ring update planetPosition.x" ;;
   assertFinite (THREE.y planetPosition) "Ring update planetPosition.y" ;;
   assertFinite (THREE.z planetPosition) "Ring update planetPosition.z" ;;
   assertPositive planetRadius "Ring update planetRadius")%result.

(** ** data/OrbitalData.ts and data/PhysicalData.ts

    The entries the builder reads: orbital elements, and of the physical
    properties the display name, the radius in kilometres and the rotation
    period in hours. *)

Module Data.

Local Open Scope string_scope.

Record PhysicalProperties : Type := {
  physical_name : string;
  physical_radius : float;
  physical_rotationPeriod : float
}.

Definition SUN_DATA : PhysicalProperties :=
  {| physical_name := "Sun"; physical_radius := num 696340;
       physical_rotationPeriod := dec 60912 2 |}.

Definition PLANET_PHYSICAL_DATA (key : string) : option PhysicalProperties :=
  if key =? "mercury" then
    Some {| physical_name := "Mercury"; physical_radius := dec 24397 1;
       physical_rotationPeriod := dec 14076 1 |}
  else if key =? "venus" then
    Some {| physical_name := "Venus"; physical_radius := dec 60518 1;
       physical_rotationPeriod := dec (-58325) 1 |}
  else if key =? "earth" then
    Some {| physical_name := "Earth"; physical_radius := num 6371;
       physical_rotationPeriod := dec 239345 4 |}
  else if key =? "mars" then
    Some {| physical_name := "Mars"; physical_radius := dec 33895 1;
       physical_rotationPeriod := dec 246229 4 |}
  else if key =? "jupiter" then
    Some {| physical_name := "Jupiter"; physical_radius := num 69911;
       physical_rotationPeriod := dec 9925 3 |}
  else if key =? "saturn" then
    Some {| physical_name := "Saturn"; physical_radius := num 58232;
       physical_rotationPeriod := dec 10656 3 |}
  else if key =? "uranus" then
    Some {| physical_name := "Uranus"; physical_radius := num 25362;
       physical_rotationPeriod := dec (-1724) 2 |}
  else if key =? "neptune" then
    Some {| physical_name := "Neptune"; physical_radius := num 24622;
       physical_rotationPeriod := dec 1611 2 |}
  else None.

Definition DWARF_PLANET_PHYSICAL_DATA (key : string) : option PhysicalProperties :=
  if key =? "pluto" then
    Some {| physical_name := "Pluto"; physical_radius := dec 11883 1;
       physical_rotationPeriod := dec (-1532928) 4 |}
  else if key =? "ceres" then
    Some {| physical_name := "Ceres"; physical_radius := dec 46973 2;
       physical_rotationPeriod := dec 9074 3 |}
  else if key =? "eris" then
    Some {| physical_name := "Eris"; physical_radius := num 1163;
       physical_rotationPeriod := dec 259 1 |}
  else if key =? "makemake" then
    Some {| physical_name := "Makemake"; physical_radius := num 715;
       physical_rotationPeriod := dec 2248 2 |}
  else if key =? "haumea" then
    Some {| physical_name := "Haumea"; physical_radius := num 816;
       physical_rotationPeriod := dec 39155 4 |}
  else None.

Definition PLANET_ORBITAL_DATA (key : string) : option OrbitalElements :=
  if key =? "mercury" then
    Some {| semiMajorAxis := dec 38709927 8; eccentricity := dec 20563593 8; inclination := dec 700497902 8;
     longitudeOfAscendingNode := dec 4833076593 8; argumentOfPerihelion := dec 2912703035 8;
     meanAnomaly := dec 17479252722 8; meanMotion := Some (dec 409233445 8); epoch := None |}
  else if key =? "venus" then
    Some {| semiMajorAxis := dec 72333566 8; eccentricity := dec 677672 8; inclination := dec 339467605 8;
     longitudeOfAscendingNode := dec 7667984255 8; argumentOfPerihelion := dec 5492262463 8;
     meanAnomaly := dec 5037663232 8; meanMotion := Some (dec 160213034 8); epoch := None |}
  else if key =? "earth" then
    Some {| semiMajorAxis := dec 100000261 8; eccentricity := dec 1671123 8; inclination := dec 1531 8;
     longitudeOfAscendingNode := dec (-1126064) 5; argumentOfPerihelion := dec 10293768193 8;
     meanAnomaly := dec 10046457166 8; meanMotion := Some (dec 98560028 8); epoch := None |}
  else if key =? "mars" then
    Some {| semiMajorAxis := dec 152371034 8; eccentricity := dec 9339410 8; inclination := dec 184969142 8;
     longitudeOfAscendingNode := dec 4955953891 8; argumentOfPerihelion := dec (-735031685) 7;
     meanAnomaly := dec (-455343205) 8; meanMotion := Some (dec 52402068 8); epoch := None |}
  else if key =? "jupiter" then
    Some {| semiMajorAxis := dec 520288700 8; eccentricity := dec 4838624 8; inclination := dec 130439695 8;
     longitudeOfAscendingNode := dec 10047390909 8; argumentOfPerihelion := dec (-8574542926) 8;
     meanAnomaly := dec 3439644051 8; meanMotion := Some (dec 8308529 8); epoch := None |}
  else if key =? "saturn" then
    Some {| semiMajorAxis := dec 953667594 8; eccentricity := dec 5386179 8; inclination := dec 248599187 8;
     longitudeOfAscendingNode := dec 11366242448 8; argumentOfPerihelion := dec (-2106328634) 8;
     meanAnomaly := dec 4995424423 8; meanMotion := Some (dec 3349791 8); epoch := None |}
  else if key =? "uranus" then
    Some {| semiMajorAxis := dec 1918916464 8; eccentricity := dec 4725744 8; inclination := dec 77263783 8;
     longitudeOfAscendingNode := dec 7401692503 8; argumentOfPerihelion := dec 9693735127 8;
     meanAnomaly := dec 31323810451 8; meanMotion := Some (dec 1176904 8); epoch := None |}
  else if key =? "neptune" then
    Some {| semiMajorAxis := dec 3006992276 8; eccentricity := dec 859048 8; inclination := dec 177004347 8;
     longitudeOfAscendingNode := dec 13178422574 8; argumentOfPerihelion := dec (-8681499898) 8;
     meanAnomaly := dec (-5512002969) 8; meanMotion := Some (dec 606020 8); epoch := None |}
  else None.

Definition DWARF_PLANET_ORBITAL_DATA (key : string) : option OrbitalElements :=
  if key =? "pluto" then
    Some {| semiMajorAxis := dec 3948211675 8; eccentricity := dec 24882730 8; inclination := dec 1714001206 8;
     longitudeOfAscendingNode := dec 11030393684 8; argumentOfPerihelion := dec 11376329806 8;
     meanAnomaly := dec 1453 2; meanMotion := Some (dec 397 5); epoch := None |}
  else if key =? "ceres" then
    Some {| semiMajorAxis := dec 27675 4; eccentricity := dec 760 4; inclination := dec 10593 3;
     longitudeOfAscendingNode := dec 80327 3; argumentOfPerihelion := dec 73597 3;
     meanAnomaly := dec 7737 2; meanMotion := Some (dec 214 3); epoch := None |}
  else if key =? "eris" then
    Some {| semiMajorAxis := dec 67781 3; eccentricity := dec 44068 5; inclination := dec 44040 3;
     longitudeOfAscendingNode := dec 35951 3; argumentOfPerihelion := dec 151639 3;
     meanAnomaly := dec 205989 3; meanMotion := Some (dec 176 5); epoch := None |}
  else if key =? "makemake" then
    Some {| semiMajorAxis := dec 45436 3; eccentricity := dec 16126 5; inclination := dec 28983 3;
     longitudeOfAscendingNode := dec 79382 3; argumentOfPerihelion := dec 297240 3;
     meanAnomaly := dec 165514 3; meanMotion := Some (dec 322 5); epoch := None |}
  else if key =? "haumea" then
    Some {| semiMajorAxis := dec 43218 3; eccentricity := dec 19642 5; inclination := dec 28213 3;
     longitudeOfAscendingNode := dec 122103 3; argumentOfPerihelion := dec 239041 3;
     meanAnomaly := dec 218205 3; meanMotion := Some (dec 347 5); epoch := None |}
  else None.

Definition MOON_ORBITAL_DATA (planet moon : string) : option OrbitalElements :=
  if (planet =? "earth") && (moon =? "moon") then
    Some {| semiMajorAxis := dec 257 5; eccentricity := dec 549 4; inclination := dec 5145 3;
     longitudeOfAscendingNode := dec 12508 2; argumentOfPerihelion := dec 31815 2;
     meanAnomaly := dec 1153654 4; meanMotion := Some (dec 13176358 6); epoch := None |}
  else if (planet =? "mars") && (moon =? "phobos") then
    Some {| semiMajorAxis := dec 628 7; eccentricity := dec 151 4; inclination := dec 1093 3;
     longitudeOfAscendingNode := dec 164931 3; argumentOfPerihelion := dec 150247 3;
     meanAnomaly := dec 91059 3; meanMotion := Some (dec 11288444 4); epoch := None |}
  else if (planet =? "mars") && (moon =? "deimos") then
    Some {| semiMajorAxis := dec 157 6; eccentricity := dec 33 5; inclination := dec 93 2;
     longitudeOfAscendingNode := dec 339600 3; argumentOfPerihelion := dec 290496 3;
     meanAnomaly := dec 325329 3; meanMotion := Some (dec 2851618 4); epoch := None |}
  else if (planet =? "jupiter") && (moon =? "io") then
    Some {| semiMajorAxis := dec 282 5; eccentricity := dec 41 4; inclination := dec 36 3;
     longitudeOfAscendingNode := dec 43977 3; argumentOfPerihelion := dec 84129 3;
     meanAnomaly := dec 342021 3; meanMotion := Some (dec 2034889 4); epoch := None |}
  else if (planet =? "jupiter") && (moon =? "europa") then
    Some {| semiMajorAxis := dec 449 5; eccentricity := dec 94 4; inclination := dec 466 3;
     longitudeOfAscendingNode := dec 219106 3; argumentOfPerihelion := dec 8897 2;
     meanAnomaly := dec 171016 3; meanMotion := Some (dec 1013747 4); epoch := None |}
  else if (planet =? "jupiter") && (moon =? "ganymede") then
    Some {| semiMajorAxis := dec 716 5; eccentricity := dec 13 4; inclination := dec 177 3;
     longitudeOfAscendingNode := dec 63552 3; argumentOfPerihelion := dec 192417 3;
     meanAnomaly := dec 31754 2; meanMotion := Some (dec 503176 4); epoch := None |}
  else if (planet =? "jupiter") && (moon =? "callisto") then
    Some {| semiMajorAxis := dec 1259 5; eccentricity := dec 74 4; inclination := dec 192 3;
     longitudeOfAscendingNode := dec 298848 3; argumentOfPerihelion := dec 52643 3;
     meanAnomaly := dec 181408 3; meanMotion := Some (dec 215710 4); epoch := None |}
  else if (planet =? "saturn") && (moon =? "titan") then
    Some {| semiMajorAxis := dec 817 5; eccentricity := dec 288 4; inclination := dec 348 3;
     longitudeOfAscendingNode := dec 169237 3; argumentOfPerihelion := dec 180532 3;
     meanAnomaly := dec 1200 1; meanMotion := Some (dec 225769 4); epoch := None |}
  else if (planet =? "saturn") && (moon =? "enceladus") then
    Some {| semiMajorAxis := dec 159 5; eccentricity := dec 47 4; inclination := dec 19 3;
     longitudeOfAscendingNode := dec 1695 1; argumentOfPerihelion := dec 932 1;
     meanAnomaly := dec 2000 1; meanMotion := Some (dec 2627318 4); epoch := None |}
  else if (planet =? "saturn") && (moon =? "mimas") then
    Some {| semiMajorAxis := dec 124 5; eccentricity := dec 196 4; inclination := dec 1574 3;
     longitudeOfAscendingNode := dec 1695 1; argumentOfPerihelion := dec 3325 1;
     meanAnomaly := dec 140 1; meanMotion := Some (dec 3819945 4); epoch := None |}
  else if (planet =? "saturn") && (moon =? "tethys") then
    Some {| semiMajorAxis := dec 197 5; eccentricity := dec 1 4; inclination := dec 1091 3;
     longitudeOfAscendingNode := dec 1695 1; argumentOfPerihelion := dec 2598 1;
     meanAnomaly := dec 2430 1; meanMotion := Some (dec 1906979 4); epoch := None |}
  else if (planet =? "saturn") && (moon =? "dione") then
    Some {| semiMajorAxis := dec 252 5; eccentricity := dec 22 4; inclination := dec 28 3;
     longitudeOfAscendingNode := dec 1695 1; argumentOfPerihelion := dec 1688 1;
     meanAnomaly := dec 700 1; meanMotion := Some (dec 1315349 4); epoch := None |}
  else if (planet =? "saturn") && (moon =? "rhea") then
    Some {| semiMajorAxis := dec 352 5; eccentricity := dec 13 4; inclination := dec 345 3;
     longitudeOfAscendingNode := dec 1695 1; argumentOfPerihelion := dec 2414 1;
     meanAnomaly := dec 790 1; meanMotion := Some (dec 796900 4); epoch := None |}
  else if (planet =? "saturn") && (moon =? "iapetus") then
    Some {| semiMajorAxis := dec 2381 5; eccentricity := dec 276 4; inclination := dec 1547 2;
     longitudeOfAscendingNode := dec 811 1; argumentOfPerihelion := dec 2759 1;
     meanAnomaly := dec 2010 1; meanMotion := Some (dec 45379 4); epoch := None |}
  else if (planet =? "uranus") && (moon =? "miranda") then
    Some {| semiMajorAxis := dec 867 6; eccentricity := dec 13 4; inclination := dec 4232 3;
     longitudeOfAscendingNode := dec 1690 1; argumentOfPerihelion := dec 683 1;
     meanAnomaly := dec 3110 1; meanMotion := Some (dec 2546906 4); epoch := None |}
  else if (planet =? "uranus") && (moon =? "ariel") then
    Some {| semiMajorAxis := dec 128 5; eccentricity := dec 12 4; inclination := dec 260 3;
     longitudeOfAscendingNode := dec 1690 1; argumentOfPerihelion := dec 1159 1;
     meanAnomaly := dec 390 1; meanMotion := Some (dec 1428356 4); epoch := None |}
  else if (planet =? "uranus") && (moon =? "umbriel") then
    Some {| semiMajorAxis := dec 178 5; eccentricity := dec 39 4; inclination := dec 205 3;
     longitudeOfAscendingNode := dec 1690 1; argumentOfPerihelion := dec 847 1;
     meanAnomaly := dec 120 1; meanMotion := Some (dec 868688 4); epoch := None |}
  else if (planet =? "uranus") && (moon =? "titania") then
    Some {| semiMajorAxis := dec 292 5; eccentricity := dec 11 4; inclination := dec 340 3;
     longitudeOfAscendingNode := dec 1690 1; argumentOfPerihelion := dec 2844 1;
     meanAnomaly := dec 240 1; meanMotion := Some (dec 413514 4); epoch := None |}
  else if (planet =? "uranus") && (moon =? "oberon") then
    Some {| semiMajorAxis := dec 390 5; eccentricity := dec 14 4; inclination := dec 58 3;
     longitudeOfAscendingNode := dec 1690 1; argumentOfPerihelion := dec 1044 1;
     meanAnomaly := dec 2830 1; meanMotion := Some (dec 267394 4); epoch := None |}
  else if (planet =? "neptune") && (moon =? "triton") then
    Some {| semiMajorAxis := dec 237 5; eccentricity := dec 16 6; inclination := dec 156885 3;
     longitudeOfAscendingNode := dec 177608 3; argumentOfPerihelion := dec 344046 3;
     meanAnomaly := dec 264775 3; meanMotion := Some (dec 612572 4); epoch := None |}
  else if (planet =? "pluto") && (moon =? "charon") then
    Some {| semiMajorAxis := dec 129 6; eccentricity := dec 2 4; inclination := dec 1 3;
     longitudeOfAscendingNode := dec 223046 3; argumentOfPerihelion := dec 0 1;
     meanAnomaly := dec 0 1; meanMotion := Some (dec 563625 4); epoch := None |}
  else None.

End Data.

(** ** bodies/SolarSystemBuilder.ts

    [build] assembles the roster: the Sun, the eight planets, their moons,
    then Pluto with Charon and Ceres, each pushed onto [allBodies] when it
    is created, and the ring systems of Saturn and Uranus.  Every body
    gets its mesh when it is initialized: [createMesh] of the Sun and of a
    planet assigns [this.mesh] itself, [init] assigns the mesh a moon's
    [createMesh] returns.  Of the constructors and of [createMesh] the
    checks on the radius and on the rotation period are kept; the scene
    graph, materials, textures, orbit lines, the axial tilt of the group
    and the asteroid belt are rendering objects and are left out. *)

Record SolarSystemBuilder : Type := {
  sun : option nat;
  planets : list (string * nat);
  ringSystems : list string;
  allBodies : list CelestialBody
}.

Definition set_allBodies (this : SolarSystemBuilder) (s : bodies)
  : SolarSystemBuilder :=
  {| sun := sun this; planets := planets this;
     ringSystems := ringSystems this; allBodies := s |}.

(** A method of the bodies, run on [this.allBodies]. *)
Definition on_allBodies {A : Type} (m : method bodies A)
  : method SolarSystemBuilder A :=
  fun this =>
    match m (allBodies this) with
    | Returns a s => Returns a (set_allBodies this s)
    | Throws err s => Throws err (set_allBodies this s)
    end.

Section Builder.

Variable math : MathLib.
Variable three : ThreeLib.
Variable performance_now : nat -> float.

Local Open Scope string_scope.
Local Open Scope method_scope.

Definition new_builder : SolarSystemBuilder :=
  {| sun := None; planets := []; ringSystems := []; allBodies := [] |}.

(** [this.allBodies.push(body)]; the result is the index of the body. *)
Definition push (body : CelestialBody) : method SolarSystemBuilder nat :=
  fun this =>
    Returns (List.length (allBodies this))
            (set_allBodies this (allBodies this ++ [body])%list).

Definition planets_set (key : string) (planet : nat)
  : method SolarSystemBuilder unit :=
  fun this =>
    Returns tt {| sun := sun this; planets := (key, planet) :: planets this;
                  ringSystems := ringSystems this;
                  allBodies := allBodies this |}.

Definition planets_get (key : string) : method SolarSystemBuilder (option nat) :=
  fun this =>
    Returns (option_map snd
               (find (fun entry => String.eqb (fst entry) key) (planets this)))
            this.

(** [this.ringSystems.set(key, ringSystem)]: a new key goes last. *)
Definition ringSystems_set (key : string) : method SolarSystemBuilder unit :=
  fun this =>
    Returns tt {| sun := sun this; planets := planets this;
                  ringSystems :=
                    if existsb (String.eqb key) (ringSystems this)
                    then ringSystems this
                    else ringSystems this ++ [key];
                  allBodies := allBodies this |}.

(** The checks of the [CelestialBody] constructor on the radius and on
    the rotation period, and its call of [getScaledRadius] for
    [userData]. *)
Definition check_rotationPeriod (name : string) (rotationPeriod : float)
  : result unit :=
  (invariant (negb (F64.eqb rotationPeriod F64.zero))
             (name ++ " rotation period must be non-zero") ;;
   assertFinite rotationPeriod (name ++ " rotation period"))%result.

Definition new_CelestialBody (this : CelestialBody) (spins : bool)
  : result CelestialBody :=
  (invariant (negb (String.eqb (name this) ""))
             "Celestial body name must not be empty" ;;
   assertPositive (radius this) (name this ++ " radius") ;;
   (if spins then check_rotationPeriod (name this) (rotationPeriod this)
    else Ok tt) ;;
   getScaledRadius this ;;
   Ok this)%result.

(** [new Sun()] and [Sun.createMesh]. *)
Definition new_Sun : result CelestialBody :=
  (assertPositive (Data.physical_radius Data.SUN_DATA) "SUN_DATA.radius" ;;
   new_CelestialBody
     {| name := "Sun"; radius := Data.physical_radius Data.SUN_DATA;
        rotationPeriod := Data.physical_rotationPeriod Data.SUN_DATA;
        orbitalElements := None; parentBody := None;
        position := THREE.origin; mesh := None;
        subclass := Sun THREE.new_Mesh |} true)%result.

Definition Sun_createMesh (this : CelestialBody) : result CelestialBody :=
  (let radius := SUN_VISUAL_RADIUS in
   assertPositive radius "Sun visual radius" ;;
   let coronaRadius := (radius * dec 13 1)%js in
   invariant (coronaRadius >? radius)%js
             "Corona radius must exceed sun radius" ;;
   Ok (set_subclass (set_mesh this (Some THREE.new_Mesh))
                    (Sun THREE.new_Mesh)))%result.

Definition createSun : method SolarSystemBuilder unit :=
  this_sun <- lift new_Sun ;;
  this_sun <- lift (Sun_createMesh this_sun) ;;
  index <- push this_sun ;;
  fun this =>
    Returns tt {| sun := Some index; planets := planets this;
                  ringSystems := ringSystems this;
                  allBodies := allBodies this |}.

(** [new Planet(config)] and [Planet.createMesh], with
    [createAtmosphere] and [createClouds]. *)
Definition new_Planet (name : string) (physicalData : Data.PhysicalProperties)
  (elements : OrbitalElements) : result CelestialBody :=
  (invariant (negb (String.eqb name "")) "Planet name must not be empty" ;;
   assertPositive (Data.physical_radius physicalData)
                  ("Planet " ++ name ++ " radius") ;;
   new_CelestialBody
     {| name := name; radius := Data.physical_radius physicalData;
        rotationPeriod := Data.physical_rotationPeriod physicalData;
        orbitalElements := Some elements; parentBody := None;
        position := THREE.origin; mesh := None;
        subclass := Planet None false |} true)%result.

Definition Planet_createMesh (this : CelestialBody)
  (hasAtmosphere hasClouds : bool) : result CelestialBody :=
  (radius <- getScaledRadius this ;;
   assertPositive radius (name this ++ " scaled radius for mesh") ;;
   (if hasAtmosphere then
      assertPositive radius (name this ++ " radius for atmosphere") ;;
      let atmosphereRadius := (radius * dec 102 2)%js in
      invariant (atmosphereRadius >? radius)%js
                (name this ++ " atmosphere radius must exceed planet radius")
    else Ok tt) ;;
   (if hasClouds then
      assertPositive radius (name this ++ " radius for clouds") ;;
      let cloudsRadius := (radius * dec 1005 3)%js in
      invariant (cloudsRadius >? radius)%js
                (name this ++ " clouds radius must exceed planet radius")
    else Ok tt) ;;
   Ok (set_subclass (set_mesh this (Some THREE.new_Mesh))
         (Planet (if hasClouds then Some THREE.new_Mesh else None)
                 hasAtmosphere)))%result.

(** [new Planet(config)], [init], [planets.set] and [allBodies.push]. *)
Definition addPlanet (key name : string)
  (physicalData : Data.PhysicalProperties) (elements : OrbitalElements)
  (hasAtmosphere hasClouds : bool) : method SolarSystemBuilder nat :=
  planet <- lift (new_Planet name physicalData elements) ;;
  planet <- lift (Planet_createMesh planet hasAtmosphere hasClouds) ;;
  fun this =>
    let index := List.length (allBodies this) in
    Returns index
      {| sun := sun this; planets := (key, index) :: planets this;
         ringSystems := ringSystems this;
         allBodies := allBodies this ++ [planet] |}.

(** [createSaturnRings] and [createUranusRings]: the radii of the ring
    are the given multiples of the scaled radius of the planet. *)
Definition createRings (key label : string) (planet : nat)
  (inner outer : float) : method SolarSystemBuilder unit :=
  this_planet <- on_allBodies (this_body planet) ;;
  planetRadius <- lift (getScaledRadius this_planet) ;;
  lift (assertPositive planetRadius (label ++ " radius")) ;;
  let innerRadius := (planetRadius * inner)%js in
  let outerRadius := (planetRadius * outer)%js in
  lift (invariant (outerRadius >? innerRadius)%js
                  "Ring outer radius must exceed inner radius") ;;
  lift (assertPositive innerRadius "Ring inner radius") ;;
  lift (assertPositive outerRadius "Ring outer radius") ;;
  lift (invariant (outerRadius >? innerRadius)%js
                  "Ring outer radius must exceed inner radius") ;;
  ringSystems_set key.

Definition hasAtmosphere (key : string) : bool :=
  existsb (String.eqb key)
    ["venus"; "earth"; "mars"; "jupiter"; "saturn"; "uranus"; "neptune"].

Definition hasClouds (key : string) : bool :=
  existsb (String.eqb key) ["venus"; "earth"].

Definition createPlanet (key : string) : method SolarSystemBuilder unit :=
  lift (invariant (negb (String.eqb key "")) "Planet name must not be empty") ;;
  match Data.PLANET_ORBITAL_DATA key, Data.PLANET_PHYSICAL_DATA key with
  | None, _ => lift (Throw (Violated "Orbital data must exist for planet"))
  | _, None => lift (Throw (Violated "Physical data must exist for planet"))
  | Some orbitalData, Some physicalData =>
      planet <- addPlanet key (Data.physical_name physicalData) physicalData
                  orbitalData (hasAtmosphere key) (hasClouds key) ;;
      if String.eqb key "saturn" then
        createRings "saturn" "Saturn" planet (dec 12 1) (dec 23 1)
      else if String.eqb key "uranus" then
        createRings "uranus" "Uranus" planet (dec 15 1) (dec 20 1)
      else ret tt
  end.

(** [createMoon]: the checks of the builder, of the [Moon] constructor
    and of [Moon.createMesh]; a moon is tidally locked and is given no
    rotation period, so that [rotationPeriod] is 0. *)
Definition createMoon (moon : string) (moonRadius : float)
  (elements : option OrbitalElements) (parent : nat)
  : method SolarSystemBuilder unit :=
  lift (invariant (negb (String.eqb moon "")) "Moon name must not be empty") ;;
  lift (assertPositive moonRadius ("Moon " ++ moon ++ " radius")) ;;
  match elements with
  | None => lift (Throw (Violated ("Moon " ++ moon ++ " must have orbital elements")))
  | Some orbitalElements =>
      lift (assertPositive moonRadius ("Moon " ++ moon ++ " radius")) ;;
      this_moon <- lift (new_CelestialBody
        {| name := moon; radius := moonRadius; rotationPeriod := F64.zero;
           orbitalElements := Some orbitalElements;
           parentBody := Some parent;
           position := THREE.origin; mesh := None;
           subclass := Moon true |} false) ;;
      scaled <- lift (getScaledRadius this_moon) ;;
      lift (assertPositive scaled (moon ++ " scaled radius for mesh")) ;;
      push (set_mesh this_moon (Some THREE.new_Mesh)) ;;
      ret tt
  end.

(** The moons of one planet, in the order of their creation: display
    name, key in the orbital data, radius in kilometres. *)
Fixpoint createMoonsOf (planet : string) (moons : list (string * string * float))
  (parent : nat) : method SolarSystemBuilder unit :=
  match moons with
  | [] => ret tt
  | (moon, key, moonRadius) :: rest =>
      createMoon moon moonRadius (Data.MOON_ORBITAL_DATA planet key) parent ;;
      createMoonsOf planet rest parent
  end.

Definition moonsOf (planet : string) (moons : list (string * string * float))
  : method SolarSystemBuilder unit :=
  parent <- planets_get planet ;;
  match parent with
  | Some parent => createMoonsOf planet moons parent
  | None => ret tt
  end.

Definition createMoons : method SolarSystemBuilder unit :=
  moonsOf "earth" [("Moon", "moon", dec 17374 1)] ;;
  moonsOf "mars" [("Phobos", "phobos", dec 11267 3);
                  ("Deimos", "deimos", dec 62 1)] ;;
  moonsOf "jupiter" [("Io", "io", dec 18216 1);
                     ("Europa", "europa", dec 15608 1);
                     ("Ganymede", "ganymede", dec 26341 1);
                     ("Callisto", "callisto", dec 24103 1)] ;;
  moonsOf "saturn" [("Titan", "titan", dec 25747 1);
                    ("Enceladus", "enceladus", dec 2521 1);
                    ("Mimas", "mimas", dec 1982 1)] ;;
  moonsOf "uranus" [("Miranda", "miranda", dec 2358 1);
                    ("Ariel", "ariel", dec 5789 1);
                    ("Titania", "titania", dec 7884 1)] ;;
  moonsOf "neptune" [("Triton", "triton", dec 13534 1)].

Definition createDwarfPlanets : method SolarSystemBuilder unit :=
  match Data.DWARF_PLANET_ORBITAL_DATA "pluto",
        Data.DWARF_PLANET_PHYSICAL_DATA "pluto" with
  | Some orbitalData, Some physicalData =>
      pluto <- addPlanet "pluto" "Pluto" physicalData orbitalData false false ;;
      match Data.MOON_ORBITAL_DATA "pluto" "charon" with
      | Some charon => createMoon "Charon" (num 606) (Some charon) pluto
      | None => ret tt
      end
  | _, _ => ret tt
  end ;;
  match Data.DWARF_PLANET_ORBITAL_DATA "ceres",
        Data.DWARF_PLANET_PHYSICAL_DATA "ceres" with
  | Some orbitalData, Some physicalData =>
      addPlanet "ceres" "Ceres" physicalData orbitalData false false ;;
      ret tt
  | _, _ => ret tt
  end.

Definition defined {A : Type} (entry : option A) : bool :=
  match entry with Some _ => true | None => false end.

(** The precondition of [build]: the data of every required planet. *)
Fixpoint check_required (planetNames : list string)
  : method SolarSystemBuilder unit :=
  match planetNames with
  | [] => ret tt
  | planetName :: rest =>
      lift (invariant (defined (Data.PLANET_ORBITAL_DATA planetName))
              ("Orbital data must exist for planet: " ++ planetName)) ;;
      lift (invariant (defined (Data.PLANET_PHYSICAL_DATA planetName))
              ("Physical data must exist for planet: " ++ planetName)) ;;
      check_required rest
  end.

Fixpoint createPlanets (planetNames : list string)
  : method SolarSystemBuilder unit :=
  match planetNames with
  | [] => ret tt
  | key :: rest =>
      createPlanet key ;;
      planet <- planets_get key ;;
      lift (postcondition (defined planet)
              ("Planet " ++ key ++ " must be created after createPlanet()")) ;;
      createPlanets rest
  end.

Definition build : method SolarSystemBuilder unit :=
  check_required ["mercury"; "venus"; "earth"; "mars";
                  "jupiter"; "saturn"; "uranus"; "neptune"] ;;
  createSun ;;
  this <- get ;;
  lift (postcondition (defined (sun this))
          "Sun must be created after createSun()") ;;
  createPlanets ["mercury"; "venus"; "earth"; "mars";
                 "jupiter"; "saturn"; "uranus"; "neptune"] ;;
  createMoons ;;
  createDwarfPlanets ;;
  this <- get ;;
  lift (postcondition (Nat.leb 9 (List.length (allBodies this)))
          "Solar system must have at least 9 bodies (Sun + 8 planets)") ;;
  lift (postcondition (Nat.leb 8 (List.length (planets this)))
          "Solar system must have at least 8 planets") ;;
  lift (invariant (Nat.leb (List.length (allBodies this)) MAX_BODIES)
          "Body count exceeds maximum").

(** [for (const [name, ringSystem] of this.ringSystems)]: the ring
    systems in the order of their creation, each updated with the position
    of the Sun and the position and scaled radius of its planet, if
    [planets] has one under its name. *)
Definition update_ring (name : string) (sunPos : THREE.Vector3)
  : method SolarSystemBuilder unit :=
  planet <- planets_get name ;;
  match planet with
  | Some planet =>
      planetPos <- on_allBodies (getPosition planet) ;;
      this_planet <- on_allBodies (this_body planet) ;;
      planetRadius <- lift (getScaledRadius this_planet) ;;
      lift (RingSystem_update sunPos planetPos planetRadius)
  | None => ret tt
  end.

Fixpoint update_rings (rings : list string) (sunPos : THREE.Vector3)
  : method SolarSystemBuilder unit :=
  match rings with
  | [] => ret tt
  | name :: rest =>
      update_ring name sunPos ;;
      update_rings rest sunPos
  end.

(** [SolarSystemBuilder.update]. *)
Definition SolarSystemBuilder_update (julianDate delta timeScale : float)
  : method SolarSystemBuilder unit :=
  lift (assertFinite julianDate "Julian date") ;;
  lift (assertFinite delta "Delta time") ;;
  lift (assertNonNegative delta "Delta time") ;;
  lift (assertFinite timeScale "Time scale") ;;
  this <- get ;;
  lift (invariant (Nat.leb (List.length (allBodies this)) MAX_BODIES)
                  "Body count exceeds maximum during update") ;;
  on_allBodies
    (update_each math three performance_now (List.length (allBodies this)) 0
       julianDate delta timeScale) ;;
  sunPos <- match sun this with
            | Some i => on_allBodies (getPosition i)
            | None => ret THREE.origin
            end ;;
  update_rings (ringSystems this) sunPos.

End Builder.

(** ** A reference [Math]

    The four functions by argument reduction and truncated power series,
    in binary64 arithmetic.  It stands for the library of the engine when
    the program is run on concrete inputs below. *)

Module ReferenceMath.

Local Open Scope js_scope.

(** [1 - x2/(j(j+1)) (1 - x2/((j+2)(j+3)) (1 - ...))], [n] factors deep. *)
Fixpoint alternating (n : nat) (j : Z) (x2 : float) : float :=
  match n with
  | O => F64.one
  | S n' => F64.one - x2 / num (j * (j + 1)) * alternating n' (j + 2) x2
  end.

(** The argument brought into [-PI, PI]. *)
Definition reduce (x : float) : float :=
  let r := F64.rem x (num 2 * F64.PI) in
  if r >? F64.PI then r - num 2 * F64.PI
  else if r <? - F64.PI then r + num 2 * F64.PI
  else r.

Definition sin (x : float) : float :=
  let r := reduce x in
  r * alternating 16 2 (r * r).

Definition cos (x : float) : float :=
  let r := reduce x in
  alternating 16 1 (r * r).

Definition tan (x : float) : float := sin x / cos x.

(** [y (1 - y2 (1/3 - y2 (1/5 - ...)))] for a small [y]. *)
Fixpoint gregory (n : nat) (j : Z) (y2 : float) : float :=
  match n with
  | O => F64.one / num j
  | S n' => F64.one / num j - y2 * gregory n' (j + 2) y2
  end.

Definition halve (x : float) : float :=
  x / (F64.one + F64.sqrt (F64.one + x * x)).

Definition atan_small (x : float) : float :=
  let y := halve (halve x) in
  num 4 * (y * gregory 16 1 (y * y)).

Definition atan (x : float) : float :=
  if F64.abs x <=? F64.one then atan_small x
  else if x >? F64.zero then F64.PI / num 2 - atan_small (F64.one / x)
  else - (F64.PI / num 2) - atan_small (F64.one / x).

Definition lib : MathLib :=
  {| Math_sin := sin; Math_cos := cos; Math_tan := tan; Math_atan := atan |}.

End ReferenceMath.

(** ** A reference three.js

    The four operations of [ThreeLib], written after the definitions of
    the library on the reference [Math]: the normalization of a vector,
    the quaternion of an Euler triple in the order XYZ, the quaternion of
    the rotation matrix of [lookAt], and the spherical interpolation of
    the quaternion of an object, after which the Euler triple is read back
    from the quaternion.  It stands for the library when the program is
    run on concrete inputs below. *)

Module ReferenceThree.

Import THREE.

Local Open Scope js_scope.

Definition lengthSq (v : Vector3) : float := x v * x v + y v * y v + z v * z v.

Definition length (v : Vector3) : float := F64.sqrt (lengthSq v).

Definition multiplyScalar (v : Vector3) (s : float) : Vector3 :=
  {| x := x v * s; y := y v * s; z := z v * s |}.

(** [this.divideScalar(this.length() || 1)]. *)
Definition normalize (v : Vector3) : Vector3 :=
  let l := length v in
  multiplyScalar v (F64.one / (if F64.truthy l then l else F64.one)).

Definition crossVectors (a b : Vector3) : Vector3 :=
  {| x := y a * z b - z a * y b;
     y := z a * x b - x a * z b;
     z := x a * y b - y a * x b |}.

Definition setFromEuler (e : Euler) : Quaternion :=
  let c1 := ReferenceMath.cos (euler_x e / num 2) in
  let c2 := ReferenceMath.cos (euler_y e / num 2) in
  let c3 := ReferenceMath.cos (euler_z e / num 2) in
  let s1 := ReferenceMath.sin (euler_x e / num 2) in
  let s2 := ReferenceMath.sin (euler_y e / num 2) in
  let s3 := ReferenceMath.sin (euler_z e / num 2) in
  {| quat_x := s1 * c2 * c3 + c1 * s2 * s3;
     quat_y := c1 * s2 * c3 - s1 * c2 * s3;
     quat_z := c1 * c2 * s3 + s1 * s2 * c3;
     quat_w := c1 * c2 * c3 - s1 * s2 * s3 |}.

(** The columns of the rotation matrix of [lookAt(eye, target, up)]. *)
Definition lookAt_axes (eye target up : Vector3) : Vector3 * Vector3 * Vector3 :=
  let zv := subVectors eye target in
  let zv := if F64.eqb (lengthSq zv) F64.zero
            then {| x := x zv; y := y zv; z := F64.one |} else zv in
  let zv := normalize zv in
  let xv := crossVectors up zv in
  let '(zv, xv) :=
    if F64.eqb (lengthSq xv) F64.zero then
      let zv := if F64.eqb (F64.abs (z up)) F64.one
                then {| x := x zv + dec 1 4; y := y zv; z := z zv |}
                else {| x := x zv; y := y zv; z := z zv + dec 1 4 |} in
      let zv := normalize zv in
      (zv, crossVectors up zv)
    else (zv, xv) in
  let xv := normalize xv in
  (xv, crossVectors zv xv, zv).

Definition setFromRotationMatrix (axes : Vector3 * Vector3 * Vector3)
  : Quaternion :=
  let '(xv, yv, zv) := axes in
  let m11 := x xv in let m12 := x yv in let m13 := x zv in
  let m21 := y xv in let m22 := y yv in let m23 := y zv in
  let m31 := z xv in let m32 := z yv in let m33 := z zv in
  let trace := m11 + m22 + m33 in
  if trace >? F64.zero then
    let s := dec 5 1 / F64.sqrt (trace + F64.one) in
    {| quat_w := dec 25 2 / s; quat_x := (m32 - m23) * s;
       quat_y := (m13 - m31) * s; quat_z := (m21 - m12) * s |}
  else if (m11 >? m22) && (m11 >? m33) then
    let s := num 2 * F64.sqrt (F64.one + m11 - m22 - m33) in
    {| quat_w := (m32 - m23) / s; quat_x := dec 25 2 * s;
       quat_y := (m12 + m21) / s; quat_z := (m13 + m31) / s |}
  else if m22 >? m33 then
    let s := num 2 * F64.sqrt (F64.one + m22 - m11 - m33) in
    {| quat_w := (m13 - m31) / s; quat_x := (m12 + m21) / s;
       quat_y := dec 25 2 * s; quat_z := (m23 + m32) / s |}
  else
    let s := num 2 * F64.sqrt (F64.one + m33 - m11 - m22) in
    {| quat_w := (m21 - m12) / s; quat_x := (m13 + m31) / s;
       quat_y := (m23 + m32) / s; quat_z := dec 25 2 * s |}.

Definition lookAt (eye target up : Vector3) : Quaternion :=
  setFromRotationMatrix (lookAt_axes eye target up).

(** [Math.atan2] and [Math.asin], from the arc tangent. *)
Definition atan2 (b a : float) : float :=
  if a >? F64.zero then ReferenceMath.atan (b / a)
  else if a <? F64.zero then
    if b <? F64.zero then ReferenceMath.atan (b / a) - F64.PI
    else ReferenceMath.atan (b / a) + F64.PI
  else if b >? F64.zero then F64.PI / num 2
  else if b <? F64.zero then - (F64.PI / num 2)
  else F64.zero.

Definition asin (v : float) : float :=
  atan2 v (F64.sqrt (F64.one - v * v)).

Definition clamp (v lo hi : float) : float :=
  if v <? lo then lo else if v >? hi then hi else v.

(** [euler.setFromQuaternion(q)], in the order XYZ. *)
Definition setFromQuaternion (q : Quaternion) : Euler :=
  let qx := quat_x q in let qy := quat_y q in
  let qz := quat_z q in let qw := quat_w q in
  let x2 := qx + qx in let y2 := qy + qy in let z2 := qz + qz in
  let xx := qx * x2 in let xy := qx * y2 in let xz := qx * z2 in
  let yy := qy * y2 in let yz := qy * z2 in let zz := qz * z2 in
  let wx := qw * x2 in let wy := qw * y2 in let wz := qw * z2 in
  let m11 := F64.one - (yy + zz) in
  let m12 := xy - wz in
  let m13 := xz + wy in
  let m22 := F64.one - (xx + zz) in
  let m23 := yz - wx in
  let m32 := yz + wx in
  let m33 := F64.one - (xx + yy) in
  let ey := asin (clamp m13 (- F64.one) F64.one) in
  if F64.abs m13 <? dec 9999999 7 then
    {| euler_x := atan2 (- m23) m33; euler_y := ey;
       euler_z := atan2 (- m12) m11 |}
  else
    {| euler_x := atan2 m32 m22; euler_y := ey; euler_z := F64.zero |}.

Definition quaternion_normalize (q : Quaternion) : Quaternion :=
  let l := F64.sqrt (quat_x q * quat_x q + quat_y q * quat_y q +
                    quat_z q * quat_z q + quat_w q * quat_w q) in
  if F64.eqb l F64.zero then
    {| quat_x := F64.zero; quat_y := F64.zero; quat_z := F64.zero;
       quat_w := F64.one |}
  else
    let l := F64.one / l in
    {| quat_x := quat_x q * l; quat_y := quat_y q * l;
       quat_z := quat_z q * l; quat_w := quat_w q * l |}.

(** [qa.slerp(qb, t)]; the result is [None] when the method returns
    without notifying the object. *)
Definition quaternion_slerp (qa qb : Quaternion) (t : float)
  : option Quaternion :=
  if F64.eqb t F64.zero then None
  else if F64.eqb t F64.one then Some qb
  else
    let cosHalfTheta := quat_w qa * quat_w qb + quat_x qa * quat_x qb +
                        quat_y qa * quat_y qb + quat_z qa * quat_z qb in
    let '(qb, cosHalfTheta) :=
      if cosHalfTheta <? F64.zero then
        ({| quat_x := - quat_x qb; quat_y := - quat_y qb;
            quat_z := - quat_z qb; quat_w := - quat_w qb |}, - cosHalfTheta)
      else (qb, cosHalfTheta) in
    if cosHalfTheta >=? F64.one then None
    else
      let sqrSinHalfTheta := F64.one - cosHalfTheta * cosHalfTheta in
      if sqrSinHalfTheta <=? F64.EPSILON then
        let s := F64.one - t in
        Some (quaternion_normalize
                {| quat_x := s * quat_x qa + t * quat_x qb;
                   quat_y := s * quat_y qa + t * quat_y qb;
                   quat_z := s * quat_z qa + t * quat_z qb;
                   quat_w := s * quat_w qa + t * quat_w qb |})
      else
        let sinHalfTheta := F64.sqrt sqrSinHalfTheta in
        let halfTheta := atan2 sinHalfTheta cosHalfTheta in
        let ratioA :=
          ReferenceMath.sin ((F64.one - t) * halfTheta) / sinHalfTheta in
        let ratioB := ReferenceMath.sin (t * halfTheta) / sinHalfTheta in
        Some {| quat_x := quat_x qa * ratioA + quat_x qb * ratioB;
                quat_y := quat_y qa * ratioA + quat_y qb * ratioB;
                quat_z := quat_z qa * ratioA + quat_z qb * ratioB;
                quat_w := quat_w qa * ratioA + quat_w qb * ratioB |}.

Definition slerp (m : Mesh) (q : Quaternion) (t : float) : Mesh :=
  match quaternion_slerp (quaternion m) q t with
  | Some q' => {| rotation := setFromQuaternion q'; quaternion := q' |}
  | None => m
  end.

Definition lib : ThreeLib :=
  {| Vector3_normalize := normalize;
     Quaternion_setFromEuler := setFromEuler;
     Quaternion_lookAt := lookAt;
     Object3D_slerp := slerp |}.

End ReferenceThree.

(** A clock that reads [t] milliseconds at every call. *)
Definition clock_at (t : float) : nat -> float := fun _ => t.

(** ** bodies/OrbitalMechanics.ts and systems/TimeController.ts: the rest of the interface *)

Section OrbitalQuantities.

Variable math : MathLib.

Local Open Scope js_scope.
Local Open Scope result_scope.

Definition calculateOrbitalPeriod (semiMajorAxis : float) : result float :=
  assertPositive semiMajorAxis "Semi-major axis for period" ;;
  let periodYears :=
    F64.sqrt (semiMajorAxis * semiMajorAxis * semiMajorAxis) in
  assertFinite periodYears "Period in years" ;;
  assertPositive periodYears "Period in years" ;;
  let periodDays := periodYears * dec 36525 2 in
  assertFinite periodDays "Orbital period" ;;
  assertPositive periodDays "Orbital period" ;;
  Ok periodDays.

Definition calculateOrbitalVelocity
  (semiMajorAxis eccentricity trueAnomaly : float) : result float :=
  assertPositive semiMajorAxis "Semi-major axis for velocity" ;;
  assertBounds eccentricity F64.zero (F64.one - F64.EPSILON)
               "Eccentricity for velocity" ;;
  assertFinite trueAnomaly "True anomaly for velocity" ;;
  let a := semiMajorAxis in
  let e := eccentricity in
  let nu := trueAnomaly in
  r <- calculateHeliocentricDistance math a e nu ;;
  assertPositive r "Distance for velocity" ;;
  let GM := num 4 * F64.PI * F64.PI in
  let visVivaArg := GM * (num 2 / r - num 1 / a) in
  assertFinite visVivaArg "Vis-viva argument" ;;
  invariant (visVivaArg >=? F64.zero)
            "Vis-viva argument must be non-negative for bound orbits" ;;
  let v := F64.sqrt visVivaArg in
  assertFinite v "Orbital velocity in AU/year" ;;
  let vPerDay := v / dec 36525 2 in
  assertFinite vPerDay "Orbital velocity" ;;
  assertNonNegative vPerDay "Orbital velocity" ;;
  Ok vPerDay.

Definition calculateDistance (pos1 pos2 : CartesianPosition) : result float :=
  assertFinite (x pos1) "Position 1 x" ;;
  assertFinite (y pos1) "Position 1 y" ;;
  assertFinite (z pos1) "Position 1 z" ;;
  assertFinite (x pos2) "Position 2 x" ;;
  assertFinite (y pos2) "Position 2 y" ;;
  assertFinite (z pos2) "Position 2 z" ;;
  let dx := x pos2 - x pos1 in
  let dy := y pos2 - y pos1 in
  let dz := z pos2 - z pos1 in
  let distance := F64.sqrt (dx * dx + dy * dy + dz * dz) in
  assertFinite distance "Distance between bodies" ;;
  assertNonNegative distance "Distance between bodies" ;;
  Ok distance.

Definition auToKm (au : float) : result float :=
  assertFinite au "AU value" ;;
  let km := au * dec 1495978707 1 in
  assertFinite km "Kilometers" ;;
  Ok km.

Definition kmToAu (km : float) : result float :=
  assertFinite km "Kilometers value" ;;
  let au := km / dec 1495978707 1 in
  assertFinite au "AU" ;;
  Ok au.

(** [getCurrentJulianDate], with the time value of [new Date()] as a
    parameter. *)
Definition getCurrentJulianDate (now : Z) : result float :=
  let year := num (JSDate.getUTCFullYear now) in
  let month := num (JSDate.getUTCMonth now) + num 1 in
  let day := num (JSDate.getUTCDate now) in
  let hour := num (JSDate.getUTCHours now) in
  let minute := num (JSDate.getUTCMinutes now) in
  let second := num (JSDate.getUTCSeconds now) in
  let small := month <=? num 2 in
  let y := if small then year - num 1 else year in
  let m := if small then month + num 12 else month in
  let A := F64.floor (y / num 100) in
  let B := num 2 - A + F64.floor (A / num 4) in
  let JD := F64.floor (dec 36525 2 * (y + num 4716)) +
            F64.floor (dec 306001 4 * (m + num 1)) +
            day + B - dec 15245 1 +
            (hour + minute / num 60 + second / num 3600) / num 24 in
  assertFinite JD "Julian Date" ;;
  invariant ((JD >? num 2400000) && (JD <? num 3000000))
            "Julian Date should be in reasonable range" ;;
  Ok JD.

End OrbitalQuantities.

(** [getDaysSinceJ2000] and [getCenturiesSinceJ2000] of the time
    controller. *)
Definition getDaysSinceJ2000 : method TimeController.t float :=
  (this <- get ;;
   let result := (TimeController.julianDate this - J2000_JD)%js in
   lift (assertFinite result "Days since J2000") ;;
   ret result)%method.

Definition getCenturiesSinceJ2000 : method TimeController.t float :=
  (this <- get ;;
   let result := ((TimeController.julianDate this - J2000_JD) / num 36525)%js in
   lift (assertFinite result "Centuries since J2000") ;;
   ret result)%method.

(** * Properties *)

Local Open Scope string_scope.
Local Open Scope Z_scope.

(** ** Reasoning about calls that may throw *)

Lemma bind_Ok {A B : Type} (r : result A) (k : A -> result B) (b : B) :
  bind r k = Ok b -> exists a, r = Ok a /\ k a = Ok b.
Proof.
  destruct r as [a | err]; simpl; intro H; [exists a; auto | discriminate].
Qed.

Lemma bind_Throw {A B : Type} (r : result A) (k : A -> result B) (err : error) :
  bind r k = Throw err ->
  r = Throw err \/ exists a, r = Ok a /\ k a = Throw err.
Proof.
  destruct r as [a | err']; simpl; intro H; [right; exists a; split; auto | left; injection H as ->; reflexivity].
Qed.

Lemma check_Ok (condition : bool) (err : error) (u : unit) :
  check condition err = Ok u -> condition = true.
Proof. destruct condition; simpl; [reflexivity | discriminate]. Qed.

Lemma check_true (err : error) : check true err = Ok tt.
Proof. reflexivity. Qed.

Lemma invariant_Ok (condition : bool) (message : string) (u : unit) :
  invariant condition message = Ok u -> condition = true.
Proof. apply check_Ok. Qed.

Lemma assertFinite_Ok (value : float) (name : string) (u : unit) :
  assertFinite value name = Ok u -> F64.isFinite value = true.
Proof.
  unfold assertFinite; intro H.
  apply bind_Ok in H; destruct H as (? & _ & H).
  now apply check_Ok in H.
Qed.

Lemma assertFinite_finite (value : float) (name : string) :
  F64.isFinite value = true -> assertFinite value name = Ok tt.
Proof. destruct value; simpl; intro H; try discriminate; reflexivity. Qed.

Lemma assertFinite_cases (value : float) (name : string) :
  (F64.isFinite value = true /\ assertFinite value name = Ok tt) \/
  (F64.isFinite value = false /\ exists err, assertFinite value name = Throw err).
Proof.
  destruct value; simpl; [left | right | right | left]; split; try reflexivity;
    eexists; reflexivity.
Qed.

(** Splits a hypothesis [r ;; k = Ok v] into the steps that returned. *)
Ltac invert_Ok H :=
  repeat match type of H with
  | bind _ _ = Ok _ =>
      let a := fresh "a" in
      let Ha := fresh "Hstep" in
      apply bind_Ok in H; destruct H as (a & Ha & H)
  end.

(** ** The Kepler solver returns only after convergence (C4) *)

Section KeplerLoop.

Variable math : MathLib.
Variables e M tolerance : float.

(** [unconverged i n E E']: starting at loop index [i] with the
    eccentric anomaly [E], the loop body runs [n] times without throwing
    and without meeting the tolerance, and leaves [E']. *)
Inductive unconverged : nat -> nat -> float -> float -> Prop :=
| unconverged_none (i : nat) (E : float) : unconverged i 0 E E
| unconverged_step (i n : nat) (E dE E1 E' : float) :
    newton_step math e M E i = Ok (dE, E1) ->
    F64.ltb (F64.abs dE) tolerance = false ->
    unconverged (S i) n E1 E' ->
    unconverged i (S n) E E'.

(** [converged i k E0 E]: after [k] unconverged passes from [E0], pass
    number [k] computes a step below the tolerance and leaves [E]. *)
Definition converged (i k : nat) (E0 E : float) : Prop :=
  exists E_k dE,
    unconverged i k E0 E_k /\
    newton_step math e M E_k (i + k) = Ok (dE, E) /\
    F64.ltb (F64.abs dE) tolerance = true.

Lemma newton_step_Ok (E dE E' : float) (i : nat) :
  newton_step math e M E i = Ok (dE, E') ->
  F64.gtb (F64.abs (F64.one - e * Math_cos math E)%js) F64.EPSILON = true /\
  dE = ((E - e * Math_sin math E - M) / (F64.one - e * Math_cos math E))%js /\
  E' = (E - dE)%js /\
  F64.isFinite dE = true /\ F64.isFinite E' = true.
Proof.
  unfold newton_step; intro H.
  invert_Ok H.
  injection H as <- <-.
  apply invariant_Ok in Hstep.
  apply assertFinite_Ok in Hstep0, Hstep1.
  repeat split; assumption.
Qed.

Lemma newton_step_denominator (E : float) (i : nat) :
  F64.gtb (F64.abs (F64.one - e * Math_cos math E)%js) F64.EPSILON = false ->
  newton_step math e M E i =
    Throw (Violated "Kepler equation denominator must not be zero").
Proof. unfold newton_step; intros ->; reflexivity. Qed.

Lemma newton_loop_Ok (n : nat) :
  forall (i : nat) (E0 : float) (flag : bool) (E : float),
    newton_loop math n i e M tolerance E0 = Ok (flag, E) ->
    if flag then exists k, (k < n)%nat /\ converged i k E0 E
    else unconverged i n E0 E.
Proof.
  induction n as [| n IH]; intros i E0 flag E H; simpl in H.
  - injection H as <- <-. constructor.
  - apply bind_Ok in H. destruct H as ([dE E1] & Hs & H).
    destruct (F64.ltb (F64.abs dE) tolerance) eqn:Htol.
    + injection H as <- <-.
      exists 0%nat. split; [lia |].
      exists E0, dE. rewrite Nat.add_0_r. repeat split; auto. constructor.
    + apply IH in H. destruct flag.
      * destruct H as (k & Hk & E_k & dE' & Hu & Hs' & Ht).
        exists (S k). split; [lia |].
        exists E_k, dE'. rewrite <- Nat.add_succ_comm.
        repeat split; auto. econstructor; eauto.
      * econstructor; eauto.
Qed.

Lemma newton_loop_unconverged (i n : nat) (E0 E' : float) :
  unconverged i n E0 E' ->
  newton_loop math n i e M tolerance E0 = Ok (false, E').
Proof.
  induction 1 as [| i n E dE E1 E' Hs Ht _ IH]; simpl; [reflexivity |].
  rewrite Hs. simpl. rewrite Ht. exact IH.
Qed.

Lemma newton_loop_throws (i k : nat) (E0 E_k : float) (err : error) :
  unconverged i k E0 E_k ->
  newton_step math e M E_k (i + k) = Throw err ->
  forall n, (k < n)%nat -> newton_loop math n i e M tolerance E0 = Throw err.
Proof.
  induction 1 as [i E | i k E dE E1 E' Hs Ht _ IH]; intros Hthrow n Hn.
  - destruct n as [| n]; [lia |]. simpl.
    rewrite Nat.add_0_r in Hthrow. rewrite Hthrow. reflexivity.
  - destruct n as [| n]; [lia |]. simpl.
    rewrite Hs. simpl. rewrite Ht.
    apply IH; [| lia]. now rewrite Nat.add_succ_comm.
Qed.

End KeplerLoop.

(** C4.  [solveKeplerEquation], called with the default tolerance and
    iteration cap, never returns an unconverged result.  With [M] the mean
    anomaly in radians and [E0] the initial guess: (1) a returned [E] is
    the eccentric anomaly left by some pass [k < 100] of the loop whose
    step satisfied [|dE| < 1e-10], no earlier pass having thrown or met the
    tolerance; each pass that ran had [|1 - e cos E| > Number.EPSILON];
    (2) when 100 passes run without meeting the tolerance the call throws;
    (3) when a pass is reached whose denominator does not exceed
    [Number.EPSILON] the call throws. *)
Theorem solveKeplerEquation_converged_or_throws
  (math : MathLib) (meanAnomaly e : float) :
  let M := (meanAnomaly * (F64.PI / num 180))%js in
  let E0 := if (e >? dec 8 1)%js then F64.PI else M in
  let call :=
    solveKeplerEquation math meanAnomaly e KEPLER_TOLERANCE MAX_KEPLER_ITERATIONS in
  (forall E, call = Ok E ->
     exists k, (k < MAX_KEPLER_ITERATIONS)%nat /\
               converged math e M KEPLER_TOLERANCE 0 k E0 E) /\
  (forall E',
     unconverged math e M KEPLER_TOLERANCE 0 MAX_KEPLER_ITERATIONS E0 E' ->
     exists err, call = Throw err) /\
  (forall k E_k,
     (k < MAX_KEPLER_ITERATIONS)%nat ->
     unconverged math e M KEPLER_TOLERANCE 0 k E0 E_k ->
     F64.gtb (F64.abs (F64.one - e * Math_cos math E_k)%js) F64.EPSILON = false ->
     exists err, call = Throw err).
Proof.
  intros M E0 call. unfold call, solveKeplerEquation. fold M. fold E0.
  split; [| split].
  - intros E H. invert_Ok H.
    match goal with
    | Hloop : newton_loop _ _ _ _ _ _ _ = Ok ?p |- _ =>
        destruct p as [flag E1]; invert_Ok H; injection H as <-;
        match goal with
        | Hflag : invariant flag _ = Ok _ |- _ =>
            apply invariant_Ok in Hflag; subst flag
        end;
        exact (newton_loop_Ok math e M KEPLER_TOLERANCE _ _ _ true _ Hloop)
    end.
  - intros E' Hloop.
    apply newton_loop_unconverged in Hloop. rewrite Hloop.
    repeat match goal with
    | |- exists err, bind (Ok _) _ = Throw err => cbn [bind]
    | |- exists err, bind (invariant false _) _ = Throw err =>
        eexists; reflexivity
    | |- exists err, bind ?r _ = Throw err =>
        destruct r as [? | err0]; cbn [bind]; [| exists err0; reflexivity]
    end.
  - intros k E_k Hk Hloop Hden.
    apply (newton_step_denominator math e M E_k (0 + k)) in Hden.
    pose proof (newton_loop_throws math e M KEPLER_TOLERANCE _ _ _ _ _
                  Hloop Hden _ Hk) as Hthrow.
    rewrite Hthrow.
    repeat match goal with
    | |- exists err, bind (Throw ?err0) _ = Throw err =>
        exists err0; reflexivity
    | |- exists err, bind ?r _ = Throw err =>
        destruct r as [? | err0]; cbn [bind]; [| exists err0; reflexivity]
    end.
    try (eexists; reflexivity).
Qed.

Lemma solveKeplerEquation_converged_or_throws_witness :
  exists k, (k < MAX_KEPLER_ITERATIONS)%nat /\
    converged ReferenceMath.lib (dec 5 1)
      (num 100 * (F64.PI / num 180))%js KEPLER_TOLERANCE 0 k
      (num 100 * (F64.PI / num 180))%js
      (S754_finite false 4865686517669949 (-51)).
Proof.
  apply (proj1 (solveKeplerEquation_converged_or_throws
                  ReferenceMath.lib (num 100) (dec 5 1))).
  vm_compute. reflexivity.
Defined.

(** ** Facts of binary64 arithmetic *)

Module F64Facts.

Import F64.

Lemma fexp_eq (e : Z) : fexp prec emax e = Z.max (e - 53) (-1074).
Proof. reflexivity. Qed.

Lemma digits2_pos_log2 (p : positive) :
  Zpos (digits2_pos p) = Z.log2 (Zpos p) + 1.
Proof.
  assert (Hsize : forall q, digits2_pos q = Pos.size q)
    by (induction q; simpl; congruence).
  rewrite Hsize. destruct p; simpl; lia.
Qed.

Lemma Zdigits2_log2 (m : Z) : 0 < m -> Zdigits2 m = Z.log2 m + 1.
Proof. destruct m; try lia. intros _. apply digits2_pos_log2. Qed.

(** *** Right shifts *)

Lemma shr_1_m (mrs : shr_record) :
  0 <= shr_m mrs -> shr_m (shr_1 mrs) = shr_m mrs / 2.
Proof.
  destruct mrs as [m r s]; simpl. intros Hm.
  destruct m as [| p | p]; try lia; [reflexivity |].
  destruct p; simpl.
  - rewrite (Pos2Z.inj_xI p).
    apply Z.div_unique with (r := 1); lia.
  - rewrite (Pos2Z.inj_xO p).
    apply Z.div_unique with (r := 0); lia.
  - reflexivity.
Qed.

Lemma iter_shr_1_m (p : positive) :
  forall mrs : shr_record,
    0 <= shr_m mrs ->
    shr_m (iter_pos shr_1 p mrs) = shr_m mrs / 2 ^ Zpos p.
Proof.
  assert (Hpos : forall mrs, 0 <= shr_m mrs -> 0 <= shr_m mrs / 2)
    by (intros; apply Z.div_pos; lia).
  assert (Hpow : forall q, 0 < 2 ^ Zpos q) by (intro; apply Z.pow_pos_nonneg; lia).
  induction p as [p IH | p IH |]; intros mrs Hm; cbn [iter_pos].
  - assert (H1 : 0 <= shr_m (shr_1 mrs)) by (rewrite shr_1_m; auto).
    assert (H2 : 0 <= shr_m (iter_pos shr_1 p (shr_1 mrs))).
    { rewrite IH by assumption. apply Z.div_pos; auto. }
    rewrite IH, IH, shr_1_m by assumption.
    rewrite !Z.div_div by (try lia; auto).
    f_equal. rewrite (Pos2Z.inj_xI p).
    replace (2 * Zpos p + 1) with (1 + Zpos p + Zpos p) by lia.
    rewrite !Z.pow_add_r by lia. lia.
  - assert (H2 : 0 <= shr_m (iter_pos shr_1 p mrs)).
    { rewrite IH by assumption. apply Z.div_pos; auto. }
    rewrite IH, IH by assumption.
    rewrite !Z.div_div by (try lia; auto).
    f_equal. rewrite (Pos2Z.inj_xO p).
    replace (2 * Zpos p) with (Zpos p + Zpos p) by lia.
    rewrite !Z.pow_add_r by lia. lia.
  - now rewrite shr_1_m.
Qed.

Lemma shr_record_of_loc_m (m : Z) (l : location) :
  shr_m (shr_record_of_loc m l) = m.
Proof. destruct l as [| []]; reflexivity. Qed.

(** The exponent and the mantissa chosen by [shr_fexp]. *)
Lemma shr_fexp_spec (m e : Z) (l : location) :
  0 <= m ->
  let e' := Z.max e (fexp prec emax (Zdigits2 m + e)) in
  snd (shr_fexp prec emax m e l) = e' /\
  shr_m (fst (shr_fexp prec emax m e l)) = m / 2 ^ (e' - e).
Proof.
  intros Hm e'. unfold shr_fexp, shr.
  destruct (fexp prec emax (Zdigits2 m + e) - e) as [| p | p] eqn:Hn; simpl.
  - replace e' with e by (unfold e'; lia).
    rewrite Z.sub_diag, Z.div_1_r, shr_record_of_loc_m. auto.
  - replace e' with (e + Zpos p) by (unfold e'; lia).
    rewrite iter_shr_1_m by (rewrite shr_record_of_loc_m; assumption).
    rewrite shr_record_of_loc_m.
    replace (e + Zpos p - e) with (Zpos p) by lia. auto.
  - replace e' with e by (unfold e'; lia).
    rewrite Z.sub_diag, Z.div_1_r, shr_record_of_loc_m. auto.
Qed.

Lemma round_nearest_even_bounds (m : Z) (l : location) :
  0 <= m -> 0 <= round_nearest_even m l <= m + 1.
Proof.
  intros Hm. destruct l as [| []]; simpl; try lia.
  destruct (Z.even m); lia.
Qed.

Lemma log2_div_pow2 (m k : Z) :
  0 < m -> 0 <= k -> Z.log2 (m / 2 ^ k) = Z.max 0 (Z.log2 m - k).
Proof.
  intros Hm Hk. rewrite <- Z.shiftr_div_pow2 by assumption.
  now apply Z.log2_shiftr.
Qed.

(** *** Rounding without overflow *)

Lemma binary_round_aux_finite (s : bool) (m e : Z) (l : location) :
  0 < m -> e <= 971 -> Z.log2 m + e <= 1022 ->
  isFinite (binary_round_aux prec emax s m e l) = true.
Proof.
  intros Hm He Hlog. unfold binary_round_aux.
  destruct (shr_fexp_spec m e l ltac:(lia)) as [He1 Hm1].
  destruct (shr_fexp prec emax m e l) as [mrs1 e1]. cbn [fst snd] in He1, Hm1.
  set (m1 := round_nearest_even (shr_m mrs1) (loc_of_shr_record mrs1)).
  assert (Hk : 0 <= e1 - e) by lia.
  assert (Hpow : 0 < 2 ^ (e1 - e)) by (apply Z.pow_pos_nonneg; lia).
  assert (Hq : 0 <= shr_m mrs1) by (rewrite Hm1; apply Z.div_pos; lia).
  assert (Hm1b : 0 <= m1 <= shr_m mrs1 + 1)
    by (apply round_nearest_even_bounds; assumption).
  destruct (shr_fexp_spec m1 e1 loc_Exact ltac:(lia)) as [He2 Hm2].
  destruct (shr_fexp prec emax m1 e1 loc_Exact) as [mrs2 e2]. cbn [fst snd] in He2, Hm2.
  assert (Hq2 : 0 <= shr_m mrs2).
  { rewrite Hm2. apply Z.div_pos; [lia |]. apply Z.pow_pos_nonneg; lia. }
  assert (He1b : e1 <= 971).
  { rewrite He1, fexp_eq, Zdigits2_log2 by assumption. lia. }
  assert (He2b : e2 <= 971).
  { rewrite He2, fexp_eq.
    assert (Zdigits2 m1 + e1 <= 1024); [| lia].
    destruct (Z.eq_dec m1 0) as [-> | Hnz]; [simpl; lia |].
    rewrite Zdigits2_log2 by lia.
    destruct (Z.eq_dec (shr_m mrs1) 0) as [Hz | Hnz1].
    - assert (Hone : m1 = 1) by lia. rewrite Hone.
      change (Z.log2 1) with 0. lia.
    - assert (Z.log2 m1 <= Z.log2 (shr_m mrs1) + 1).
      { etransitivity; [apply Z.log2_le_mono; apply Hm1b |].
        apply Z.log2_succ_le. }
      rewrite Hm1, log2_div_pow2 in H by lia. lia. }
  destruct (shr_m mrs2) as [| p | p]; try lia; [reflexivity |].
  replace (e2 <=? emax - prec) with true; [reflexivity |].
  symmetry. apply Z.leb_le. unfold emax, prec. lia.
Qed.

Lemma valid_finite_bounds (s : bool) (m : positive) (e : Z) :
  valid_binary prec emax (S754_finite s m e) = true ->
  Z.log2 (Zpos m) <= 52 /\ -1074 <= e <= 971.
Proof.
  unfold valid_binary, bounded, canonical_mantissa. intro H.
  apply andb_prop in H. destruct H as [Hc He].
  apply Z.eqb_eq in Hc. apply Z.leb_le in He.
  rewrite fexp_eq, digits2_pos_log2 in Hc.
  unfold emax, prec in He. lia.
Qed.

(** Multiplying a number by a constant below 1/2 in magnitude does not
    overflow. *)
Lemma mul_small_finite (x : float) (sy : bool) (my : positive) (ey : Z) :
  valid_binary prec emax x = true -> isFinite x = true ->
  ey <= 0 -> Z.log2 (Zpos my) + ey <= -2 ->
  isFinite (mul x (S754_finite sy my ey)) = true.
Proof.
  intros Hv Hf Hey Hy.
  destruct x as [sx | sx | | sx mx ex]; try discriminate; [reflexivity |].
  apply valid_finite_bounds in Hv. destruct Hv as [Hmx Hex].
  unfold mul, SFmul. apply binary_round_aux_finite.
  - reflexivity.
  - lia.
  - rewrite Pos2Z.inj_mul.
    pose proof (Z.log2_mul_above (Zpos mx) (Zpos my)
                  ltac:(lia) ltac:(lia)). lia.
Qed.

(** *** Exact differences and products with zero *)

Lemma mul_zero_finite (x : float) :
  isFinite x = true -> exists s, mul zero x = S754_zero s.
Proof.
  destruct x as [sx | sx | | sx mx ex]; try discriminate; intros _;
    eexists; reflexivity.
Qed.

Lemma one_sub_zero (s : bool) : sub one (S754_zero s) = one.
Proof. destruct s; reflexivity. Qed.

Lemma sub_self_finite (s : bool) (m : positive) (e : Z) :
  sub (S754_finite s m e) (S754_finite s m e) = S754_zero false.
Proof. unfold sub, SFsub. rewrite Z.sub_diag. reflexivity. Qed.

(** [x - (+-0) - x] is [+0] for every finite [x]. *)
Lemma sub_zero_sub_self (x : float) (s : bool) :
  isFinite x = true -> sub (sub x (S754_zero s)) x = S754_zero false.
Proof.
  destruct x as [sx | sx | | sx mx ex]; try discriminate; intros _.
  - destruct sx, s; reflexivity.
  - change (sub (S754_finite sx mx ex) (S754_zero s))
      with (S754_finite sx mx ex).
    apply sub_self_finite.
Qed.

Lemma sub_positive_zero (x : float) :
  isFinite x = true -> sub x (S754_zero false) = x.
Proof.
  destruct x as [sx | sx | | sx mx ex]; try discriminate; intros _;
    [destruct sx |]; reflexivity.
Qed.

End F64Facts.

(** ** A circular orbit: the eccentric anomaly is the mean anomaly (C9) *)

Section Circular.

Variable math : MathLib.

Lemma deg2rad_value :
  (F64.PI / num 180)%js = S754_finite false 5030569068109113 (-58).
Proof. vm_compute. reflexivity. Qed.

Lemma radians_finite (meanAnomaly : float) :
  valid_binary F64.prec F64.emax meanAnomaly = true ->
  F64.isFinite meanAnomaly = true ->
  F64.isFinite (meanAnomaly * (F64.PI / num 180))%js = true.
Proof.
  intros Hv Hf. rewrite deg2rad_value.
  apply F64Facts.mul_small_finite; auto; [lia | vm_compute; discriminate].
Qed.

(** With eccentricity zero the first pass of the loop computes the step
    [+0] and leaves [E = M]. *)
Lemma newton_step_circular (M : float) (i : nat) :
  F64.isFinite M = true ->
  F64.isFinite (Math_sin math M) = true ->
  F64.isFinite (Math_cos math M) = true ->
  newton_step math F64.zero M M i = Ok (S754_zero false, M).
Proof.
  intros HM Hsin Hcos. unfold newton_step.
  destruct (F64Facts.mul_zero_finite _ Hcos) as [sc ->].
  destruct (F64Facts.mul_zero_finite _ Hsin) as [ss ->].
  rewrite F64Facts.one_sub_zero.
  change (invariant (F64.gtb (F64.abs F64.one) F64.EPSILON) _) with (Ok tt).
  cbn [bind].
  rewrite F64Facts.sub_zero_sub_self by assumption.
  change (F64.div (S754_zero false) F64.one) with (S754_zero false).
  rewrite F64Facts.sub_positive_zero by assumption.
  rewrite (assertFinite_finite M) by assumption.
  reflexivity.
Qed.

End Circular.

(** C9.  For every finite mean anomaly [M] in degrees (a binary64 number),
    [solveKeplerEquation(M, 0)] returns exactly the number [M * (Math.PI /
    180)], the product rounded once: the loop converges in its first pass
    with a step of [+0].  [Math.sin] and [Math.cos] enter only through
    their values at that number, which are finite (as they are for every
    finite argument in an ECMAScript engine). *)
Theorem solveKeplerEquation_circular_exact
  (math : MathLib) (meanAnomaly : float) :
  let M := (meanAnomaly * (F64.PI / num 180))%js in
  valid_binary F64.prec F64.emax meanAnomaly = true ->
  F64.isFinite meanAnomaly = true ->
  F64.isFinite (Math_sin math M) = true ->
  F64.isFinite (Math_cos math M) = true ->
  solveKeplerEquation math meanAnomaly F64.zero
    KEPLER_TOLERANCE MAX_KEPLER_ITERATIONS
  = Ok M.
Proof.
  intros M Hv Hf Hsin Hcos.
  pose proof (radians_finite meanAnomaly Hv Hf) as HM. fold M in HM.
  unfold solveKeplerEquation. fold M.
  rewrite (assertFinite_finite meanAnomaly) by assumption.
  rewrite (assertFinite_finite M) by assumption.
  change (F64.gtb F64.zero (dec 8 1)) with false.
  cbn [bind assertFinite check F64.isNaN F64.isFinite F64.zero negb].
  change (assertBounds (S754_zero false) (S754_zero false) _ _) with (Ok tt).
  change (assertPositive KEPLER_TOLERANCE _) with (Ok tt).
  change (assertPositive (num (Z.of_nat MAX_KEPLER_ITERATIONS)) _) with (Ok tt).
  cbn [bind].
  change MAX_KEPLER_ITERATIONS with (S 99). cbn [newton_loop].
  rewrite (newton_step_circular math M 0 HM Hsin Hcos).
  cbn [bind].
  change (F64.ltb (F64.abs (S754_zero false)) KEPLER_TOLERANCE) with true.
  cbn [bind invariant check].
  rewrite (assertFinite_finite M) by assumption.
  reflexivity.
Qed.

Lemma solveKeplerEquation_circular_exact_witness :
  solveKeplerEquation ReferenceMath.lib (dec 12345 2) F64.zero
    KEPLER_TOLERANCE MAX_KEPLER_ITERATIONS
  = Ok (dec 12345 2 * (F64.PI / num 180))%js.
Proof.
  apply (solveKeplerEquation_circular_exact ReferenceMath.lib (dec 12345 2));
    vm_compute; reflexivity.
Defined.

(** ** The residual of Kepler's equation (C1)

    The bound of the specification on a returned eccentric anomaly [E],
    [|E - e * sin(E) - M_rad| < 1e-9], evaluated in binary64 as the
    program evaluates the numerator of a Newton step. *)

Definition kepler_residual (math : MathLib) (M e E : float) : float :=
  F64.abs (E - e * Math_sin math E - M * (F64.PI / num 180))%js.

Definition residual_within_bound (math : MathLib) (M e E : float) : bool :=
  F64.ltb (kepler_residual math M e E) (dec 1 9).

(** Whether the solver returns for [M] and [e] an eccentric anomaly
    within the bound. *)
Definition solves_within_bound (math : MathLib) (M e : float) : bool :=
  match solveKeplerEquation math M e KEPLER_TOLERANCE MAX_KEPLER_ITERATIONS with
  | Ok E => residual_within_bound math M e E
  | Throw _ => false
  end.

(** With the reference [Math] the bound holds on these inputs, among
    them a mean anomaly of a million degrees, a negative one, and
    eccentricities up to 0.999998.  For every [Math] it cannot hold: the
    last Newton step moves [E] after the residual was measured, and the
    residual at the new [E] depends on the value of [Math.sin] there. *)
Lemma residual_within_bound_on_samples :
  forallb (fun input => solves_within_bound ReferenceMath.lib
                          (fst input) (snd input))
    [(num 0, num 0); (num 90, dec 5 1); (num 180, dec 9 1);
     (dec 3599 1, dec 167 4); (num 1000000, dec 3 1); (num 45, dec 999 3);
     (dec 1 3, dec 999998 6); (num (-725), dec 2 1);
     (dec 10046 2, dec 167 4); (num 5, dec 99 2)]
  = true.
Proof. vm_compute. reflexivity. Qed.

(** ** The supplied mean motion (C7) *)

Lemma mean_motion_cases (elements : OrbitalElements) :
  let a := semiMajorAxis elements in
  let derived := (num 360 / (F64.sqrt (a * a * a) * dec 36525 2))%js in
  match meanMotion elements with
  | None => mean_motion elements = derived
  | Some supplied =>
      (F64.truthy supplied = true -> mean_motion elements = supplied) /\
      (F64.truthy supplied = false -> mean_motion elements = derived)
  end.
Proof.
  unfold mean_motion. destruct (meanMotion elements) as [supplied |]; simpl.
  - split; intros ->; reflexivity.
  - reflexivity.
Qed.

(** Elements of a circular orbit of one astronomical unit that provide
    [meanMotion: 0] explicitly. *)
Definition elements_meanMotion_zero : OrbitalElements :=
  {| semiMajorAxis := num 1; eccentricity := num 0; inclination := num 0;
     longitudeOfAscendingNode := num 0; argumentOfPerihelion := num 0;
     meanAnomaly := num 0; meanMotion := Some (num 0); epoch := None |}.

(** C7.  Where the elements provide [meanMotion: 0], [calculatePosition]
    does not use the supplied value: it takes the derived mean motion
    [360 / (Math.sqrt(a * a * a) * 365.25)], which is not 0, and returns a
    position instead of rejecting the supplied 0 through
    [assertPositive(n, 'Mean motion')]. *)
Theorem meanMotion_zero_is_replaced :
  mean_motion elements_meanMotion_zero
    = (num 360 / (F64.sqrt (num 1 * num 1 * num 1) * dec 36525 2))%js /\
  F64.eqb (mean_motion elements_meanMotion_zero) (num 0) = false /\
  exists p, calculatePosition ReferenceMath.lib elements_meanMotion_zero
              (num 2451546) = Ok p.
Proof.
  split; [reflexivity |]. split; [vm_compute; reflexivity |].
  eexists. vm_compute. reflexivity.
Qed.

(** ** The distance from the focus (C8) *)



Definition aphelion_distance (elements : OrbitalElements) : float :=
  (semiMajorAxis elements * (F64.one + eccentricity elements))%js.

(** An orbit of one astronomical unit and eccentricity 0.1 in the
    reference plane, which passes its perihelion at J2000. *)
Definition elements_at_perihelion : OrbitalElements :=
  {| semiMajorAxis := num 1; eccentricity := dec 1 1; inclination := num 0;
     longitudeOfAscendingNode := num 0; argumentOfPerihelion := num 0;
     meanAnomaly := num 0; meanMotion := None; epoch := None |}.

(** ECMAScript fixes the four functions at +0: [Math.sin(+0)],
    [Math.tan(+0)] and [Math.atan(+0)] are +0 and [Math.cos(+0)] is 1.
    [at_zero math] has these values at +0 and the values of [math]
    everywhere else; the [Math] of a conforming engine is such a
    library. *)
Definition is_positive_zero (v : float) : bool :=
  match v with
  | S754_zero false => true
  | _ => false
  end.

Definition at_zero (math : MathLib) : MathLib :=
  {| Math_sin := fun v => if is_positive_zero v then F64.zero else Math_sin math v;
     Math_cos := fun v => if is_positive_zero v then F64.one else Math_cos math v;
     Math_tan := fun v => if is_positive_zero v then F64.zero else Math_tan math v;
     Math_atan := fun v => if is_positive_zero v then F64.zero else Math_atan math v |}.

(** At the perihelion every call of [Math] is at +0, so the position is
    the same on every conforming engine: the distance is [(1 - 0.1 * 0.1)
    / (1 + 0.1)] on the x axis, which rounds to 0.8999999999999999. *)
Lemma position_at_perihelion (math : MathLib) :
  calculatePosition (at_zero math) elements_at_perihelion J2000_JD
  = Ok {| x := S754_finite false 8106479329266892 (-53);
          y := F64.zero; z := F64.zero |}.
Proof. vm_compute. reflexivity. Qed.


(** ** Reasoning about methods *)

Lemma mbind_Returns {S A B : Type} (m : method S A) (k : A -> method S B)
  (s s' : S) (b : B) :
  mbind m k s = Returns b s' ->
  exists a s1, m s = Returns a s1 /\ k a s1 = Returns b s'.
Proof.
  unfold mbind. destruct (m s) as [a s1 | err s1]; intro H;
    [exists a, s1; auto | discriminate].
Qed.

Lemma lift_Returns {S A : Type} (r : result A) (s s' : S) (a : A) :
  lift r s = Returns a s' -> r = Ok a /\ s' = s.
Proof.
  unfold lift. destruct r; intro H; [injection H as -> -> | discriminate]; auto.
Qed.

Lemma mbind_lift {S A B : Type} (r : result A) (k : A -> method S B) (s : S) :
  mbind (lift r) k s =
  match r with
  | Ok a => k a s
  | Throw err => Throws err s
  end.
Proof. unfold mbind, lift. destruct r; reflexivity. Qed.

(** Splits a hypothesis [(m ;; k) s = Returns b s'] into the calls that
    returned. *)
Ltac invert_Returns H :=
  repeat match type of H with
  | mbind _ _ _ = Returns _ _ =>
      let a := fresh "a" in
      let s := fresh "s" in
      let Ha := fresh "Hcall" in
      apply mbind_Returns in H; destruct H as (a & s & Ha & H)
  end.

(** The same for every hypothesis, with the elementary calls resolved. *)
Ltac invert_calls :=
  repeat match goal with
  | H : mbind _ _ _ = Returns _ _ |- _ =>
      let a := fresh "a" in
      let s := fresh "s" in
      let Ha := fresh "Hcall" in
      apply mbind_Returns in H; destruct H as (a & s & Ha & H)
  | H : get _ = Returns _ _ |- _ => injection H as <- <-
  | H : ret _ _ = Returns _ _ |- _ => injection H as <- <-
  | H : lift _ _ = Returns _ _ |- _ =>
      let Hs := fresh "Hs" in
      apply lift_Returns in H; destruct H as [H Hs]; subst
  end.

(** ** The time controller *)

Module TimeControllerFacts.

Import TimeController.

Lemma julianToDate_Ok (jd : float) (date : Date) :
  julianToDate jd = Ok date -> in_band jd = true.
Proof.
  unfold julianToDate. intro H. invert_Ok H.
  match goal with Hi : invariant (in_band jd) _ = Ok _ |- _ =>
    now apply invariant_Ok in Hi end.
Qed.

(** Notifying the listeners leaves the fields alone, and returns only
    when the day count is inside the band: [getState] converts it to a
    calendar date, and [julianToDate] checks the band first. *)
Lemma notifyListeners_Returns (this this' : t) (u : unit) :
  notifyListeners this = Returns u this' ->
  this' = this /\ in_band (julianDate this) = true.
Proof.
  unfold notifyListeners, getState, getCalendarDate. intro H.
  invert_calls.
  split; [reflexivity |].
  match goal with Hj : julianToDate _ = Ok _ |- _ =>
    now apply julianToDate_Ok in Hj end.
Qed.

(** The day count is inside the band after every operation that
    returns. *)
Lemma in_band_after_return (o : operation) (this this' : t) (u : unit) :
  in_band (julianDate this) = true ->
  run o this = Returns u this' ->
  in_band (julianDate this') = true.
Proof.
  intros Hband H.
  destruct o; simpl in H;
    unfold update, setTimeScale, pause, resume, togglePause, reverse,
      forward, setDate, setJulianDate, addDays, jumpToJ2000 in H.
  1: { apply mbind_Returns in H. destruct H as (this0 & s0 & Hg & H).
       injection Hg as <- <-.
       destruct (isPaused this).
       - injection H as <- <-. assumption.
       - invert_Returns H.
         apply notifyListeners_Returns in H. destruct H as [-> H].
         assumption. }
  all: invert_Returns H;
    apply notifyListeners_Returns in H; destruct H as [-> H]; assumption.
Qed.

Definition j2000_controller : t :=
  {| julianDate := J2000_JD; timeScale := num 1; isPaused := false;
     accumulatedTime := num 0 |}.

Definition paused_controller : t :=
  {| julianDate := J2000_JD; timeScale := num 1; isPaused := true;
     accumulatedTime := num 0 |}.

End TimeControllerFacts.

(** C10.  When the controller is not paused, [update(deltaSeconds)] throws
    for every negative and for every non-finite [deltaSeconds], and the
    fields at the throw are those before the call: neither [julianDate] nor
    [accumulatedTime] has changed.  A negative elapsed-time argument thus
    never moves the simulated time, in either direction.  When the
    controller is paused, [update] returns for any argument and changes
    nothing. *)
Theorem update_rejects_negative_elapsed_time
  (this : TimeController.t) (deltaSeconds : float) :
  (TimeController.isPaused this = false ->
   F64.ltb deltaSeconds F64.zero = true \/ F64.isFinite deltaSeconds = false ->
   exists err, TimeController.update deltaSeconds this = Throws err this) /\
  (TimeController.isPaused this = true ->
   TimeController.update deltaSeconds this = Returns tt this).
Proof.
  unfold TimeController.update, mbind, get. split; intros Hp.
  - rewrite Hp. intros [Hneg | Hinf].
    + destruct deltaSeconds as [[] | [] | | [] m e]; try discriminate;
        eexists; reflexivity.
    + destruct deltaSeconds as [s | s | | s m e]; try discriminate;
        eexists; reflexivity.
  - rewrite Hp. reflexivity.
Qed.

Lemma update_rejects_negative_elapsed_time_witness :
  (exists err,
     TimeController.update (num (-1)) TimeControllerFacts.j2000_controller
     = Throws err TimeControllerFacts.j2000_controller) /\
  TimeController.update (num (-1)) TimeControllerFacts.paused_controller
  = Returns tt TimeControllerFacts.paused_controller.
Proof.
  split.
  - apply (proj1 (update_rejects_negative_elapsed_time
                    TimeControllerFacts.j2000_controller (num (-1))));
      [reflexivity | left; vm_compute; reflexivity].
  - apply (proj2 (update_rejects_negative_elapsed_time
                    TimeControllerFacts.paused_controller (num (-1))));
      reflexivity.
Defined.

(** ** The band of the day count (C2) *)

Definition far_future : Date := JSDate.ymdhms 60000 1 1 0 0 0.

Definition controller_at_band_edge : TimeController.t :=
  {| TimeController.julianDate := dec 199999995 1;
     TimeController.timeScale := num 1;
     TimeController.isPaused := false;
     TimeController.accumulatedTime := num 0 |}.

(** C2.  [setDate] and [update] write the out-of-band day count into
    [julianDate] before anything checks it.  [setDate] of the valid date
    60000-01-01T00:00:00Z on a controller at J2000 stores 23635609.5 and
    throws only afterwards, from [notifyListeners] (through [getState] and
    the range check of [julianToDate]); [update(86400)] at 19999999.5 with
    time scale 1 stores 20000000.5 and then throws from its own invariant.
    In both cases the controller is left holding a day count outside the
    band.  [addDays(1)] in the same state throws with the fields
    unchanged. *)
Theorem setDate_and_update_store_before_throwing :
  (exists err this',
     TimeController.setDate far_future TimeControllerFacts.j2000_controller
       = Throws err this' /\
     TimeController.julianDate this' = dec 236356095 1 /\
     TimeController.in_band (TimeController.julianDate this') = false) /\
  (exists err this',
     TimeController.update (num 86400) controller_at_band_edge
       = Throws err this' /\
     TimeController.julianDate this' = dec 200000005 1 /\
     TimeController.in_band (TimeController.julianDate this') = false) /\
  (exists err,
     TimeController.addDays (num 1) controller_at_band_edge
       = Throws err controller_at_band_edge).
Proof.
  split; [| split].
  - eexists. eexists. split; [vm_compute; reflexivity |].
    split; vm_compute; reflexivity.
  - eexists. eexists. split; [vm_compute; reflexivity |].
    split; vm_compute; reflexivity.
  - eexists. vm_compute. reflexivity.
Qed.

(** ** The calendar round trip (C5) *)

(** [julianToDate(dateToJulian(date))]. *)
Definition round_trip (date : Date) : result Date :=
  jd <- TimeController.dateToJulian date ;;
  TimeController.julianToDate jd.

(** C5.  The round trip loses a second on dates inside the band.  The day
    count of 2000-01-01T01:00:00Z is the binary64 number nearest to
    2451544.5 + 1/24, which lies below it; [julianToDate] takes the floor
    of the hours, minutes and seconds of its fraction and returns
    2000-01-01T00:59:59Z.  In the same way 2000-02-29T00:00:01Z, on a leap
    day, comes back as 2000-02-29T00:00:00Z. *)
Theorem julianToDate_dateToJulian_loses_a_second :
  round_trip (JSDate.ymdhms 2000 1 1 1 0 0) = Ok (JSDate.ymdhms 2000 1 1 0 59 59) /\
  JSDate.ymdhms 2000 1 1 0 59 59 <> JSDate.ymdhms 2000 1 1 1 0 0 /\
  round_trip (JSDate.ymdhms 2000 2 29 0 0 1) = Ok (JSDate.ymdhms 2000 2 29 0 0 0) /\
  JSDate.ymdhms 2000 2 29 0 0 0 <> JSDate.ymdhms 2000 2 29 0 0 1.
Proof.
  repeat split; try (vm_compute; reflexivity); vm_compute; discriminate.
Qed.

(** ** Composition of positions along the hierarchy (C3) *)

(** What the composition depends on and no [update] touches: the name
    of a body, its rotation period, its orbital elements and its parent. *)
Definition roster_entry (b : CelestialBody)
  : string * float * option OrbitalElements * option nat :=
  (name b, rotationPeriod b, orbitalElements b, parentBody b).

(** The assembled system: the bodies of [allBodies] as [build] leaves
    them, in any positions and with their meshes turned in any way. *)
Definition assembled (s : bodies) : Prop :=
  exists b : SolarSystemBuilder,
    build new_builder = Returns tt b /\
    map roster_entry s = map roster_entry (allBodies b).

(** Every parent comes before its children in the array. *)
Definition parents_first (s : bodies) : Prop :=
  forall (i : nat) (b : CelestialBody) (parent : nat),
    nth_error s i = Some b -> parentBody b = Some parent -> (parent < i)%nat.

Definition offset_from (origin : THREE.Vector3) (offset : CartesianPosition)
  (scale : float) : THREE.Vector3 :=
  {| THREE.x := (THREE.x origin + x offset * scale)%js;
     THREE.y := (THREE.y origin + y offset * scale)%js;
     THREE.z := (THREE.z origin + z offset * scale)%js |}.

Definition scaled (offset : CartesianPosition) (scale : float) : THREE.Vector3 :=
  {| THREE.x := (x offset * scale)%js;
     THREE.y := (y offset * scale)%js;
     THREE.z := (z offset * scale)%js |}.

(** The body [b] of the system [s] sits where its orbit at [julianDate]
    puts it: at its parent's position in [s] plus its local offset times
    [SCALE_FACTOR * MOON_ORBIT_SCALE], or without a parent at its local
    offset times [SCALE_FACTOR]. *)
Definition composed (math : MathLib) (julianDate : float) (s : bodies)
  (b : CelestialBody) : Prop :=
  match orbitalElements b with
  | None => True
  | Some elements =>
      exists offset,
        calculatePosition math elements julianDate = Ok offset /\
        match parentBody b with
        | Some parent =>
            exists p, nth_error s parent = Some p /\
              position b =
                offset_from (position p) offset (SCALE_FACTOR * MOON_ORBIT_SCALE)%js
        | None => position b = scaled offset SCALE_FACTOR
        end
  end.

Lemma store_length {A : Type} (l : list A) (i : nat) (a : A) :
  List.length (store l i a) = List.length l.
Proof.
  revert i; induction l as [| b l IH]; intros [| i]; simpl; auto.
Qed.

Lemma nth_error_store_same {A : Type} (l : list A) (i : nat) (a b : A) :
  nth_error l i = Some b -> nth_error (store l i a) i = Some a.
Proof.
  revert i; induction l as [| c l IH]; intros [| i]; simpl;
    try discriminate; auto.
Qed.

Lemma nth_error_store_other {A : Type} (l : list A) (i j : nat) (a : A) :
  i <> j -> nth_error (store l i a) j = nth_error l j.
Proof.
  revert i j; induction l as [| c l IH]; intros [| i] [| j] H; simpl;
    try reflexivity; try congruence.
  apply IH. congruence.
Qed.

Lemma store_store {A : Type} (l : list A) (i : nat) (a b : A) :
  store (store l i a) i b = store l i b.
Proof.
  revert i; induction l as [| c l IH]; intros [| i]; simpl; congruence.
Qed.

Lemma this_body_Returns (i : nat) (s s' : bodies) (b : CelestialBody) :
  this_body i s = Returns b s' -> nth_error s i = Some b /\ s' = s.
Proof.
  unfold this_body. destruct (nth_error s i); intro H;
    [injection H as -> -> | discriminate]; auto.
Qed.

Lemma store_same {A : Type} (l : list A) (i : nat) (a : A) :
  nth_error l i = Some a -> store l i a = l.
Proof.
  revert i; induction l as [| c l IH]; intros [| i]; simpl;
    try discriminate; try reflexivity.
  - intros [= ->]. reflexivity.
  - intros H. f_equal. auto.
Qed.

Lemma write_body_Returns (i : nat) (b : CelestialBody) (s s' : bodies) (u : unit) :
  write_body i b s = Returns u s' -> s' = store s i b.
Proof. unfold write_body. intro H. injection H as _ H. symmetry. exact H. Qed.

(** Splits the calls of a method on the array of bodies that returned. *)
Ltac invert_body_calls :=
  repeat match goal with
  | H : mbind _ _ _ = Returns _ _ |- _ =>
      let a := fresh "a" in
      let s := fresh "s" in
      let Ha := fresh "Hcall" in
      apply mbind_Returns in H; destruct H as (a & s & Ha & H)
  | H : get _ = Returns _ _ |- _ => injection H as <- <-
  | H : ret _ _ = Returns _ _ |- _ => injection H as <- <-
  | H : lift _ _ = Returns _ _ |- _ =>
      let Hs := fresh "Hs" in
      apply lift_Returns in H; destruct H as [H Hs]; subst
  | H : this_body _ _ = Returns _ _ |- _ =>
      let Hs := fresh "Hs" in
      apply this_body_Returns in H; destruct H as [H Hs]; subst
  | H : getPosition _ _ = Returns _ _ |- _ => unfold getPosition in H
  | H : write_body _ _ _ = Returns _ _ |- _ =>
      apply write_body_Returns in H; subst
  end.

(** The body [b'] has what the builder fixed of [b], and its position. *)
Definition same_place (b b' : CelestialBody) : Prop :=
  roster_entry b' = roster_entry b /\ position b' = position b.

(** A method that, called while [b] is the body at index [i], leaves in
    its place a body with the same roster entry and the same position, and
    touches no other body. *)
Definition in_place (i : nat) (b : CelestialBody) (m : method bodies unit)
  : Prop :=
  forall s s' u, m s = Returns u s' -> nth_error s i = Some b ->
    exists b', s' = store s i b' /\ same_place b b'.

Lemma in_place_ret (i : nat) (b : CelestialBody) : in_place i b (ret tt).
Proof.
  intros s s' u H Hb. injection H as _ <-. exists b.
  rewrite store_same by assumption. repeat split.
Qed.

Lemma in_place_lift {A : Type} (i : nat) (b : CelestialBody) (r : result A)
  (k : A -> method bodies unit) :
  (forall a, in_place i b (k a)) -> in_place i b (mbind (lift r) k).
Proof.
  intros Hk s s' u H Hb. rewrite mbind_lift in H.
  destruct r as [a | err]; [| discriminate]. exact (Hk a s s' u H Hb).
Qed.

Lemma in_place_lift_unit (i : nat) (b : CelestialBody) (r : result unit) :
  in_place i b (lift r).
Proof.
  intros s s' u H Hb. apply lift_Returns in H. destruct H as [_ ->].
  exists b. rewrite store_same by assumption. repeat split.
Qed.

Lemma in_place_this (i : nat) (b : CelestialBody)
  (k : CelestialBody -> method bodies unit) :
  in_place i b (k b) -> in_place i b (mbind (this_body i) k).
Proof.
  intros Hk s s' u H Hb. unfold mbind, this_body in H. rewrite Hb in H.
  exact (Hk s s' u H Hb).
Qed.

Lemma in_place_getPosition (i j : nat) (b : CelestialBody)
  (k : THREE.Vector3 -> method bodies unit) :
  (forall p, in_place i b (k p)) -> in_place i b (mbind (getPosition j) k).
Proof.
  intros Hk s s' u H Hb. unfold getPosition, mbind, this_body, ret in H.
  destruct (nth_error s j) as [c |]; [| discriminate].
  exact (Hk _ s s' u H Hb).
Qed.

Lemma in_place_write (i : nat) (b b' : CelestialBody) :
  same_place b b' -> in_place i b (write_body i b').
Proof.
  intros Hsame s s' u H Hb. apply write_body_Returns in H. subst s'.
  exists b'. split; [reflexivity | assumption].
Qed.

Lemma in_place_seq (i : nat) (b : CelestialBody) (m1 m2 : method bodies unit) :
  in_place i b m1 -> (forall b', same_place b b' -> in_place i b' m2) ->
  in_place i b (mbind m1 (fun _ => m2)).
Proof.
  intros H1 H2 s s' u H Hb.
  apply mbind_Returns in H. destruct H as (u1 & s1 & Hm1 & Hm2).
  destruct (H1 s s1 u1 Hm1 Hb) as (b1 & -> & Hs1).
  destruct (H2 b1 Hs1 _ _ _ Hm2 (nth_error_store_same _ _ _ _ Hb))
    as (b2 & -> & Hs2).
  exists b2. rewrite store_store. split; [reflexivity |].
  destruct Hs1, Hs2. split; congruence.
Qed.

Section Pass.

Variable math : MathLib.
Variable three : ThreeLib.
Variable performance_now : nat -> float.
Variables julianDate deltaTime timeScale : float.

(** What one call of [update] on the body at index [i] leaves in the
    array: the body [b'] in place of [b], placed from the state [s] the
    call started in. *)
Definition placed (s : bodies) (b b' : CelestialBody) : Prop :=
  roster_entry b' = roster_entry b /\
  match orbitalElements b with
  | None => position b' = position b
  | Some elements =>
      exists offset,
        calculatePosition math elements julianDate = Ok offset /\
        match parentBody b with
        | Some parent =>
            exists p, nth_error s parent = Some p /\
              position b' =
                offset_from (position p) offset (SCALE_FACTOR * MOON_ORBIT_SCALE)%js
        | None => position b' = scaled offset SCALE_FACTOR
        end
  end.

Lemma placed_same_place (s : bodies) (b b1 b2 : CelestialBody) :
  placed s b b1 -> same_place b1 b2 -> placed s b b2.
Proof.
  intros [Hr Hp] [Hr2 Hp2]. split; [congruence |].
  destruct (orbitalElements b); [| congruence].
  destruct Hp as (offset & Hoff & Hp). exists offset. split; [assumption |].
  destruct (parentBody b).
  - destruct Hp as (p & Hn & Hp). exists p. split; [assumption | congruence].
  - congruence.
Qed.

Lemma update_orbital_position_Returns (i : nat) (s s' : bodies) (u : unit)
  (b : CelestialBody) :
  update_orbital_position math i julianDate s = Returns u s' ->
  nth_error s i = Some b ->
  exists b', s' = store s i b' /\ placed s b b'.
Proof.
  intros H Hb. unfold update_orbital_position in H.
  apply mbind_Returns in H; destruct H as (this & s0 & Hthis & H).
  apply this_body_Returns in Hthis. destruct Hthis as [Hthis ->].
  rewrite Hb in Hthis. injection Hthis as <-.
  unfold placed.
  destruct (orbitalElements b) as [elements |] eqn:Hel.
  - destruct (parentBody b) as [parent |] eqn:Hparent; invert_body_calls;
      eexists; (split; [reflexivity |]);
      (split; [unfold roster_entry; simpl; congruence |]);
      eexists; (split; [eassumption |]).
    + eexists. split; [eassumption | reflexivity].
    + reflexivity.
  - injection H as _ <-. exists b. rewrite store_same by assumption.
    repeat split.
Qed.

Lemma update_rotation_in_place (i : nat) (b : CelestialBody) :
  in_place i b (update_rotation three i deltaTime timeScale).
Proof.
  unfold update_rotation. apply in_place_this.
  destruct (mesh b) as [m |]; [| apply in_place_ret].
  destruct (negb (F64.eqb (rotationPeriod b) F64.zero)); [| apply in_place_ret].
  apply in_place_lift; intros _. apply in_place_lift; intros _.
  apply in_place_write. split; reflexivity.
Qed.

Lemma CelestialBody_update_Returns (i : nat) (s s' : bodies) (u : unit)
  (b : CelestialBody) :
  CelestialBody_update math three i julianDate deltaTime timeScale s
    = Returns u s' ->
  nth_error s i = Some b ->
  exists b', s' = store s i b' /\ placed s b b'.
Proof.
  intros H Hb. unfold CelestialBody_update in H.
  apply mbind_Returns in H; destruct H as (this & s0 & Hthis & H).
  apply this_body_Returns in Hthis. destruct Hthis as [_ ->].
  do 4 (apply mbind_Returns in H; destruct H as (? & ? & Hl & H);
        apply lift_Returns in Hl; destruct Hl as [_ ->]).
  apply mbind_Returns in H; destruct H as (? & s1 & Hpos & Hrot).
  destruct (update_orbital_position_Returns _ _ _ _ _ Hpos Hb)
    as (b1 & -> & Hplaced).
  destruct (update_rotation_in_place i b1 _ _ _ Hrot
              (nth_error_store_same _ _ _ _ Hb))
    as (b2 & -> & Hsame).
  exists b2. rewrite store_store. split; [reflexivity |].
  exact (placed_same_place _ _ _ _ Hplaced Hsame).
Qed.

(** What the subclasses add to [update] turns meshes and checks numbers:
    it moves no body. *)
Lemma Sun_rotation_in_place (i : nat) (b : CelestialBody) :
  in_place i b (Sun_rotation three i deltaTime timeScale).
Proof.
  unfold Sun_rotation. apply in_place_this.
  destruct (mesh b) as [m |]; [| apply in_place_ret].
  apply in_place_lift; intros _. apply in_place_write. split; reflexivity.
Qed.

Lemma Sun_corona_rotation_in_place (i : nat) (b : CelestialBody) :
  in_place i b (Sun_corona_rotation three i deltaTime timeScale).
Proof.
  unfold Sun_corona_rotation. apply in_place_this.
  destruct (subclass b) as [corona | clouds atmosphere | locked];
    try apply in_place_ret.
  apply in_place_lift; intros _. apply in_place_write. split; reflexivity.
Qed.

Lemma Planet_clouds_rotation_in_place (i : nat) (b : CelestialBody) :
  in_place i b (Planet_clouds_rotation three i deltaTime timeScale).
Proof.
  unfold Planet_clouds_rotation. apply in_place_this.
  destruct (subclass b) as [corona | [clouds |] atmosphere | locked];
    try apply in_place_ret.
  apply in_place_lift; intros _. apply in_place_write. split; reflexivity.
Qed.

Lemma Planet_sun_direction_in_place (i : nat) (b : CelestialBody) :
  in_place i b (Planet_sun_direction three i).
Proof.
  unfold Planet_sun_direction. apply in_place_this.
  destruct (subclass b) as [corona | clouds [|] | locked];
    try apply in_place_ret.
  apply in_place_getPosition; intros pos.
  apply in_place_lift; intros _. apply in_place_lift; intros _.
  apply in_place_lift_unit.
Qed.

Lemma Moon_tidal_lock_in_place (i : nat) (b : CelestialBody) :
  in_place i b (Moon_tidal_lock three i).
Proof.
  unfold Moon_tidal_lock. apply in_place_this.
  destruct (subclass b) as [corona | clouds atmosphere | [|]];
    try apply in_place_ret;
    destruct (parentBody b) as [parent |]; try apply in_place_ret.
  apply in_place_getPosition; intros parentPos.
  apply in_place_getPosition; intros moonPos.
  apply in_place_lift; intros _. apply in_place_lift; intros _.
  cbv zeta.
  destruct (mesh b) as [m |]; [| apply in_place_ret].
  apply in_place_write. split; reflexivity.
Qed.

Lemma after_CelestialBody_update (i : nat) (rest : method bodies unit)
  (s s' : bodies) (u : unit) (b : CelestialBody) :
  (forall b1, in_place i b1 rest) ->
  mbind (CelestialBody_update math three i julianDate deltaTime timeScale)
        (fun _ => rest) s = Returns u s' ->
  nth_error s i = Some b ->
  exists b', s' = store s i b' /\ placed s b b'.
Proof.
  intros Hrest H Hb.
  apply mbind_Returns in H. destruct H as (u1 & s1 & Hbase & H).
  destruct (CelestialBody_update_Returns _ _ _ _ _ Hbase Hb)
    as (b1 & -> & Hplaced).
  destruct (Hrest b1 _ _ _ H (nth_error_store_same _ _ _ _ Hb))
    as (b2 & -> & Hsame).
  exists b2. rewrite store_store. split; [reflexivity |].
  exact (placed_same_place _ _ _ _ Hplaced Hsame).
Qed.

Lemma Sun_extras_in_place (i : nat) (b : CelestialBody) :
  in_place i b
    (mbind (lift (assertFinite (performance_now i * dec 1 3)%js "Sun shader time"))
       (fun _ => mbind (Sun_rotation three i deltaTime timeScale)
                   (fun _ => Sun_corona_rotation three i deltaTime timeScale))).
Proof.
  apply in_place_lift; intros _. apply in_place_seq.
  - apply Sun_rotation_in_place.
  - intros b' _. apply Sun_corona_rotation_in_place.
Qed.

Lemma Planet_extras_in_place (i : nat) (b : CelestialBody) :
  in_place i b
    (mbind (Planet_clouds_rotation three i deltaTime timeScale)
       (fun _ => Planet_sun_direction three i)).
Proof.
  apply in_place_seq.
  - apply Planet_clouds_rotation_in_place.
  - intros b' _. apply Planet_sun_direction_in_place.
Qed.

Lemma body_update_Returns (i : nat) (s s' : bodies) (u : unit)
  (b : CelestialBody) :
  body_update math three performance_now i julianDate deltaTime timeScale s
    = Returns u s' ->
  nth_error s i = Some b ->
  exists b', s' = store s i b' /\ placed s b b'.
Proof.
  intros H Hb. unfold body_update in H. unfold mbind at 1 in H.
  unfold this_body at 1 in H. rewrite Hb in H.
  destruct (subclass b) as [corona | clouds atmosphere | locked].
  - exact (after_CelestialBody_update i _ s s' u b
             (Sun_extras_in_place i) H Hb).
  - exact (after_CelestialBody_update i _ s s' u b
             (Planet_extras_in_place i) H Hb).
  - exact (after_CelestialBody_update i _ s s' u b
             (Moon_tidal_lock_in_place i) H Hb).
Qed.

End Pass.

Lemma map_roster_store (s : bodies) (i : nat) (b b' : CelestialBody) :
  nth_error s i = Some b -> roster_entry b' = roster_entry b ->
  map roster_entry (store s i b') = map roster_entry s.
Proof.
  revert i; induction s as [| c s IH]; intros [| i]; simpl;
    try discriminate.
  - intros [= ->] ->. reflexivity.
  - intros Hb Hr. f_equal. eauto.
Qed.

Lemma parents_first_roster (s s' : bodies) :
  map roster_entry s' = map roster_entry s ->
  parents_first s -> parents_first s'.
Proof.
  intros Hmap Hs i b' parent Hb' Hp.
  assert (H : nth_error (map roster_entry s') i = Some (roster_entry b'))
    by (rewrite nth_error_map, Hb'; reflexivity).
  rewrite Hmap, nth_error_map in H.
  destruct (nth_error s i) as [b |] eqn:Hb; [| discriminate].
  injection H as H. apply (Hs i b parent Hb).
  unfold roster_entry in H. congruence.
Qed.

Section Loop.

Variable math : MathLib.
Variable three : ThreeLib.
Variable performance_now : nat -> float.
Variables julianDate delta timeScale : float.

Lemma composed_store (s : bodies) (i j : nat) (b b' c : CelestialBody) :
  parents_first s -> nth_error s j = Some c -> (j <= i)%nat ->
  composed math julianDate s c ->
  composed math julianDate (store s i b') c.
Proof.
  intros Hpf Hc Hj. unfold composed.
  destruct (orbitalElements c); [| auto].
  intros (offset & Hoff & H). exists offset. split; [assumption |].
  destruct (parentBody c) as [parent |] eqn:Hparent; [| assumption].
  destruct H as (p & Hp & H). exists p. split; [| assumption].
  rewrite nth_error_store_other; [assumption |].
  specialize (Hpf j c parent Hc Hparent). lia.
Qed.

Lemma update_each_Returns (n : nat) :
  forall (i : nat) (s s' : bodies) (u : unit),
    update_each math three performance_now n i julianDate delta timeScale s
      = Returns u s' ->
    (i + n)%nat = List.length s ->
    parents_first s ->
    (forall j b, (j < i)%nat -> nth_error s j = Some b ->
                 composed math julianDate s b) ->
    (forall j b, nth_error s' j = Some b -> composed math julianDate s' b) /\
    map roster_entry s' = map roster_entry s.
Proof.
  induction n as [| n IH]; intros i s s' u H Hlen Hpf Hdone; simpl in H.
  - injection H as _ <-. split; [| reflexivity].
    intros j b Hb. apply (Hdone j b); [| assumption].
    assert (j < List.length s)%nat by (apply nth_error_Some; congruence). lia.
  - apply mbind_Returns in H. destruct H as (u1 & s1 & Hstep & H).
    destruct (nth_error s i) as [b |] eqn:Hb;
      [| apply nth_error_None in Hb; lia].
    destruct (body_update_Returns _ _ _ _ _ _ _ _ _ _ _ Hstep Hb)
      as (b' & -> & Hroster & Hplaced).
    assert (Hmap : map roster_entry (store s i b') = map roster_entry s)
      by (eapply map_roster_store; eauto).
    assert (Hpf1 : parents_first (store s i b'))
      by (eapply parents_first_roster; eauto).
    apply IH in H; [| rewrite store_length; lia | assumption |].
    + destruct H as [Hall Hmap']. split; [assumption | congruence].
    + intros j c Hj Hc.
      destruct (Nat.eq_dec j i) as [-> | Hne].
      * rewrite (nth_error_store_same _ _ _ _ Hb) in Hc. injection Hc as <-.
        unfold composed. unfold roster_entry in Hroster.
        injection Hroster as _ _ Hel Hparent. rewrite Hel, Hparent.
        destruct (orbitalElements b); [| exact I].
        destruct Hplaced as (offset & Hoff & Hplaced).
        exists offset. split; [assumption |].
        destruct (parentBody b) as [parent |] eqn:Hpar; [| assumption].
        destruct Hplaced as (p & Hp & Hpos). exists p. split; [| assumption].
        rewrite nth_error_store_other; [assumption |].
        specialize (Hpf i b parent Hb Hpar). lia.
      * rewrite nth_error_store_other in Hc by congruence.
        eapply composed_store; eauto; [lia |].
        apply (Hdone j c); [lia | assumption].
Qed.

End Loop.

(** *** The builder around the loop *)

Lemma set_allBodies_same (this : SolarSystemBuilder) :
  set_allBodies this (allBodies this) = this.
Proof. destruct this; reflexivity. Qed.

Lemma on_allBodies_Returns {A : Type} (m : method bodies A)
  (this this' : SolarSystemBuilder) (a : A) :
  on_allBodies m this = Returns a this' ->
  exists s', m (allBodies this) = Returns a s' /\ this' = set_allBodies this s'.
Proof.
  unfold on_allBodies. destruct (m (allBodies this)) as [a1 s1 | err s1];
    intro H; [| discriminate].
  inversion H. subst. exists s1. split; reflexivity.
Qed.

(** A call that leaves the object as it is, whether it returns or
    throws. *)
Definition steady {S A : Type} (m : method S A) (s : S) : Prop :=
  (exists a, m s = Returns a s) \/ (exists err, m s = Throws err s).

Lemma steady_ret {S A : Type} (a : A) (s : S) : steady (ret a) s.
Proof. left. exists a. reflexivity. Qed.

Lemma steady_lift {S A : Type} (r : result A) (s : S) : steady (lift r) s.
Proof. destruct r; [left | right]; eexists; reflexivity. Qed.

Lemma steady_mbind {S A B : Type} (m : method S A) (k : A -> method S B)
  (s : S) :
  steady m s -> (forall a, steady (k a) s) -> steady (mbind m k) s.
Proof.
  intros [[a Hm] | [err Hm]] Hk; unfold steady, mbind; rewrite Hm.
  - exact (Hk a).
  - right. exists err. reflexivity.
Qed.

(** Reading a body of the array leaves the builder as it is. *)
Lemma on_allBodies_this_body (i : nat) (this : SolarSystemBuilder) :
  steady (on_allBodies (this_body i)) this.
Proof.
  unfold steady, on_allBodies, this_body.
  destruct (nth_error (allBodies this) i) as [b |];
    rewrite set_allBodies_same; [left | right]; eexists; reflexivity.
Qed.

Lemma on_allBodies_getPosition (i : nat) (this : SolarSystemBuilder) :
  steady (on_allBodies (getPosition i)) this.
Proof.
  unfold steady, on_allBodies, getPosition, mbind, this_body, ret.
  destruct (nth_error (allBodies this) i) as [b |];
    rewrite set_allBodies_same; [left | right]; eexists; reflexivity.
Qed.

(** The update of the ring systems changes no field of the builder and
    no body, whether it returns or throws. *)
Lemma update_ring_state (name : string) (sunPos : THREE.Vector3)
  (this : SolarSystemBuilder) :
  steady (update_ring name sunPos) this.
Proof.
  unfold update_ring. apply steady_mbind.
  - left. eexists. reflexivity.
  - intros [planet |]; [| apply steady_ret].
    apply steady_mbind; [apply on_allBodies_getPosition | intros planetPos].
    apply steady_mbind; [apply on_allBodies_this_body | intros this_planet].
    apply steady_mbind; [apply steady_lift | intros planetRadius].
    apply steady_lift.
Qed.

Lemma update_rings_state (rings : list string) (sunPos : THREE.Vector3)
  (this : SolarSystemBuilder) :
  steady (update_rings rings sunPos) this.
Proof.
  induction rings as [| name rings IH]; [apply steady_ret |].
  cbn [update_rings]. apply steady_mbind; [apply update_ring_state |].
  intros _. exact IH.
Qed.

Lemma sun_position_state (this : SolarSystemBuilder) (i : option nat) :
  steady match i with
         | Some i => on_allBodies (getPosition i)
         | None => ret THREE.origin
         end this.
Proof.
  destruct i as [i |]; [apply on_allBodies_getPosition | apply steady_ret].
Qed.

(** A pass that returns ran the loop over the bodies it started with,
    and leaves the bodies as the loop left them. *)
Lemma SolarSystemBuilder_update_Returns
  (math : MathLib) (three : ThreeLib) (performance_now : nat -> float)
  (julianDate delta timeScale : float)
  (this this' : SolarSystemBuilder) (u : unit) :
  SolarSystemBuilder_update math three performance_now
    julianDate delta timeScale this = Returns u this' ->
  (List.length (allBodies this) <= MAX_BODIES)%nat /\
  this' = set_allBodies this (allBodies this') /\
  update_each math three performance_now (List.length (allBodies this)) 0
    julianDate delta timeScale (allBodies this) = Returns tt (allBodies this').
Proof.
  intro H. unfold SolarSystemBuilder_update in H.
  do 4 (apply mbind_Returns in H; destruct H as (? & ? & Hl & H);
        apply lift_Returns in Hl; destruct Hl as [_ ->]).
  apply mbind_Returns in H; destruct H as (this0 & s0 & Hg & H).
  injection Hg as <- <-.
  apply mbind_Returns in H; destruct H as (? & ? & Hl & H).
  apply lift_Returns in Hl; destruct Hl as [Hcount ->].
  apply invariant_Ok in Hcount. apply Nat.leb_le in Hcount.
  split; [assumption |].
  apply mbind_Returns in H; destruct H as ([] & this1 & Hloop & H).
  apply on_allBodies_Returns in Hloop. destruct Hloop as (s1 & Hloop & ->).
  apply mbind_Returns in H; destruct H as (sunPos & this2 & Hsun & H).
  destruct (sun_position_state (set_allBodies this s1) (sun this))
    as [[p Hp] | [err Hp]]; rewrite Hp in Hsun; [| discriminate].
  inversion Hsun; subst this2.
  destruct (update_rings_state (ringSystems this) sunPos (set_allBodies this s1))
    as [[u2 Hr] | [err Hr]]; rewrite Hr in H; [| discriminate].
  inversion H; subst this'. cbn [allBodies set_allBodies].
  split; [reflexivity | assumption].
Qed.

(** The system that [build] assembles, and its array of bodies. *)
Definition state_after {S A : Type} (o : outcome S A) : S :=
  match o with
  | Returns _ s => s
  | Throws _ s => s
  end.

Definition built_system : SolarSystemBuilder := state_after (build new_builder).

Definition built_bodies : bodies := allBodies built_system.

Fixpoint parents_before (i : nat) (s : bodies) : bool :=
  match s with
  | [] => true
  | b :: s' =>
      match parentBody b with
      | Some parent => Nat.ltb parent i
      | None => true
      end && parents_before (S i) s'
  end.

Lemma parents_before_sound (s : bodies) :
  forall k, parents_before k s = true ->
  forall i b parent,
    nth_error s i = Some b -> parentBody b = Some parent -> (parent < k + i)%nat.
Proof.
  induction s as [| c s IH]; intros k H [| i] b parent Hb Hp; simpl in *;
    try discriminate; apply andb_prop in H; destruct H as [Hc Hs].
  - injection Hb as ->. rewrite Hp in Hc. apply Nat.ltb_lt in Hc. lia.
  - specialize (IH (S k) Hs i b parent Hb Hp). lia.
Qed.

Lemma built_parents_before : parents_before 0 built_bodies = true.
Proof. vm_compute. reflexivity. Qed.

Lemma build_allBodies (b : SolarSystemBuilder) :
  build new_builder = Returns tt b -> allBodies b = built_bodies.
Proof.
  intro H. unfold built_bodies, built_system. rewrite H. reflexivity.
Qed.

Lemma build_returns : exists b, build new_builder = Returns tt b.
Proof. eexists. vm_compute. reflexivity. Qed.

Lemma assembled_parents_first (s : bodies) : assembled s -> parents_first s.
Proof.
  intros (b & Hb & Hmap).
  apply (parents_first_roster (allBodies b)); [assumption |].
  rewrite (build_allBodies b Hb).
  intros i c parent Hc Hp.
  exact (parents_before_sound built_bodies 0 built_parents_before i c parent Hc Hp).
Qed.

(** C3.  At every update pass over the assembled system that returns,
    every body with orbital elements ends placed from the pass's own tick:
    a body with a parent at its parent's position at the end of the same
    pass plus its local offset [calculatePosition(elements, julianDate)]
    times [SCALE_FACTOR * MOON_ORBIT_SCALE], a body without a parent at
    its local offset times [SCALE_FACTOR] (each coordinate computed in
    binary64 as the program does).  The roster is unchanged, so the
    system is assembled for the next pass as well.  The pass is
    [SolarSystemBuilder.update] as the program runs it: each body is
    updated by the method of its class, and the ring systems after the
    bodies. *)
Theorem hierarchy_composition
  (math : MathLib) (three : ThreeLib) (performance_now : nat -> float)
  (julianDate delta timeScale : float)
  (this this' : SolarSystemBuilder) (u : unit) :
  assembled (allBodies this) ->
  SolarSystemBuilder_update math three performance_now
    julianDate delta timeScale this = Returns u this' ->
  (forall i b, nth_error (allBodies this') i = Some b ->
               composed math julianDate (allBodies this') b) /\
  assembled (allBodies this').
Proof.
  intros Hs H.
  pose proof (assembled_parents_first _ Hs) as Hpf.
  apply SolarSystemBuilder_update_Returns in H.
  destruct H as (_ & _ & H).
  apply update_each_Returns in H; auto.
  - destruct H as [Hall Hmap]. split; [assumption |].
    destruct Hs as (b & Hb & Hr). exists b. split; [assumption | congruence].
  - intros j b Hj. lia.
Qed.

(** One pass over the system as built, at day 2460000, one sixtieth of a
    second after the previous frame, with the clock at 5 seconds. *)
Definition first_pass : SolarSystemBuilder :=
  state_after (SolarSystemBuilder_update ReferenceMath.lib ReferenceThree.lib
                 (clock_at (num 5000))
                 (num 2460000) (dec 16 3) (num 1) built_system).

Lemma hierarchy_composition_witness :
  (forall i b, nth_error (allBodies first_pass) i = Some b ->
               composed ReferenceMath.lib (num 2460000)
                 (allBodies first_pass) b) /\
  assembled (allBodies first_pass).
Proof.
  apply (hierarchy_composition ReferenceMath.lib ReferenceThree.lib
           (clock_at (num 5000))
           (num 2460000) (dec 16 3) (num 1) built_system first_pass tt).
  - destruct build_returns as (b & Hb). exists b. split; [assumption |].
    rewrite (build_allBodies b Hb). unfold built_bodies. reflexivity.
  - vm_compute. reflexivity.
Defined.


(** ** Normalization of the mean anomaly (C6) *)

(** The value a call returned, or a default. *)
Definition value_or {A : Type} (default : A) (r : result A) : A :=
  match r with
  | Ok a => a
  | Throw _ => default
  end.

(** The epoch of the elements, J2000 when they give none. *)
Definition epoch_of (elements : OrbitalElements) : float :=
  match epoch elements with
  | Some t => t
  | None => J2000_JD
  end.

(** The mean anomaly [calculatePosition] hands to the solver. *)
Definition solver_argument (elements : OrbitalElements) (julianDate : float)
  : float :=
  current_mean_anomaly (meanAnomaly elements) (mean_motion elements)
                       (julianDate - epoch_of elements)%js.

(** Earth-like elements whose mean anomaly at epoch is -1e-20 degrees. *)
Definition elements_tiny_negative_anomaly : OrbitalElements :=
  {| semiMajorAxis := num 1; eccentricity := dec 167 4; inclination := num 0;
     longitudeOfAscendingNode := dec (-1126) 2;
     argumentOfPerihelion := dec 10294 2;
     meanAnomaly := dec (-1) 20; meanMotion := Some (dec 98560028 8);
     epoch := Some (num 2451545) |}.



(** * More of the code *)

(** ** The time controller: what its operations keep *)

Lemma mbind_Throws {S A B : Type} (m : method S A) (k : A -> method S B)
  (s s' : S) (err : error) :
  mbind m k s = Throws err s' ->
  m s = Throws err s' \/
  exists a s1, m s = Returns a s1 /\ k a s1 = Throws err s'.
Proof.
  unfold mbind. destruct (m s) as [a s1 | err1 s1]; intro H.
  - right. exists a, s1. auto.
  - left. injection H as <- <-. reflexivity.
Qed.

Lemma lift_Throws {S A : Type} (r : result A) (s s' : S) (err : error) :
  lift r s = Throws err s' -> r = Throw err /\ s' = s.
Proof.
  unfold lift. destruct r; intro H; [discriminate | injection H as -> ->]; auto.
Qed.

Lemma state_after_lift {S A : Type} (r : result A) (s : S) :
  state_after (lift r s) = s.
Proof. destruct r; reflexivity. Qed.

Lemma state_after_mbind {S A B : Type} (m : method S A) (k : A -> method S B)
  (s : S) :
  state_after (mbind m k s) =
  match m s with
  | Returns a s1 => state_after (k a s1)
  | Throws _ s1 => s1
  end.
Proof. unfold mbind. destruct (m s); reflexivity. Qed.

Module TimeControllerInvariants.

Import TimeController.

(** Whatever its outcome, notifying the listeners leaves the fields as
    they are. *)
Lemma state_after_notifyListeners (this : t) :
  state_after (notifyListeners this) = this.
Proof.
  cbv [notifyListeners getState getCalendarDate mbind get lift ret].
  destruct (julianToDate (julianDate this)); reflexivity.
Qed.

Lemma notifyListeners_outcome (this : t) :
  (exists u, notifyListeners this = Returns u this) \/
  (exists err, notifyListeners this = Throws err this).
Proof.
  cbv [notifyListeners getState getCalendarDate mbind get lift ret].
  destruct (julianToDate (julianDate this)); [left | right]; eexists; reflexivity.
Qed.

(** The controllers a program can hold: a constructed one, and what any
    public operation makes of it, whether the operation returns or throws.
    An exception leaves the object with its holder: the animation loop of
    the application requests the next frame before it calls [update]. *)
Inductive held : t -> Prop :=
| held_constructor (now : Date) (this : t) :
    constructor now = Ok this -> held this
| held_operation (o : operation) (this : t) :
    held this -> held (state_after (run o this))
| held_jumpToNow (now : Date) (this : t) :
    held this -> held (state_after (jumpToNow now this)).

(** What every held controller satisfies: the day count is a number, the
    time scale has a magnitude of at most 10,000,000, and the accumulated
    time is not negative (it may be infinite). *)
Definition well_formed (this : t) : Prop :=
  F64.isNaN (julianDate this) = false /\
  F64.leb (F64.abs (timeScale this)) MAX_TIME_SCALE = true /\
  F64.geb (accumulatedTime this) F64.zero = true.

Lemma abs_opp_abs (v : float) : F64.abs (F64.opp (F64.abs v)) = F64.abs v.
Proof. destruct v; reflexivity. Qed.

Lemma abs_abs (v : float) : F64.abs (F64.abs v) = F64.abs v.
Proof. destruct v; reflexivity. Qed.

Lemma assertBounds_Ok (value min max : float) (name : string) (u : unit) :
  assertBounds value min max name = Ok u ->
  F64.isFinite value = true /\ F64.geb value min = true /\ F64.leb value max = true.
Proof.
  unfold assertBounds. intro H. invert_Ok H.
  repeat match goal with Hc : check _ _ = Ok _ |- _ => apply check_Ok in Hc end.
  match goal with Hb : _ && _ = true |- _ => apply andb_prop in Hb; destruct Hb end.
  auto.
Qed.

Lemma assertNonNegative_Ok (value : float) (name : string) (u : unit) :
  assertNonNegative value name = Ok u ->
  F64.isFinite value = true /\ F64.geb value F64.zero = true.
Proof.
  unfold assertNonNegative. intro H. invert_Ok H.
  repeat match goal with Hc : check _ _ = Ok _ |- _ => apply check_Ok in Hc end.
  auto.
Qed.

(** Resolves the assignments to the fields among the calls that returned. *)
Ltac invert_setters :=
  repeat match goal with
  | H : set_julianDate _ _ = Returns _ _ |- _ =>
      unfold set_julianDate in H; injection H as _ <-
  | H : set_timeScale _ _ = Returns _ _ |- _ =>
      unfold set_timeScale in H; injection H as _ <-
  | H : set_isPaused _ _ = Returns _ _ |- _ =>
      unfold set_isPaused in H; injection H as _ <-
  | H : set_accumulatedTime _ _ = Returns _ _ |- _ =>
      unfold set_accumulatedTime in H; injection H as _ <-
  end.

End TimeControllerInvariants.

(** X2.  [setJulianDate] and [addDays] check the band before they assign:
    whatever they are given and whether they return or throw, a controller
    whose day count was inside the band is left with a day count inside
    the band. *)
Theorem setJulianDate_addDays_never_leave_band
  (this : TimeController.t) (v : float) :
  TimeController.in_band (TimeController.julianDate this) = true ->
  TimeController.in_band
    (TimeController.julianDate
       (state_after (TimeController.setJulianDate v this))) = true /\
  TimeController.in_band
    (TimeController.julianDate
       (state_after (TimeController.addDays v this))) = true.
Proof.
  intro Hband. split.
  - cbv [TimeController.setJulianDate mbind lift TimeController.set_julianDate].
    destruct (assertFinite v _); [| assumption].
    destruct (invariant (TimeController.in_band v) _) eqn:Hv; [| assumption].
    apply invariant_Ok in Hv.
    match goal with |- context [TimeController.notifyListeners ?s] =>
      pose proof (TimeControllerInvariants.state_after_notifyListeners s) as Hs;
      destruct (TimeController.notifyListeners s); simpl in Hs |- *; subst;
      assumption
    end.
  - cbv [TimeController.addDays mbind lift get TimeController.set_julianDate].
    destruct (assertFinite v _); [| assumption].
    destruct (invariant (TimeController.in_band _) _) eqn:Hv; [| assumption].
    apply invariant_Ok in Hv.
    match goal with |- context [TimeController.notifyListeners ?s] =>
      pose proof (TimeControllerInvariants.state_after_notifyListeners s) as Hs;
      destruct (TimeController.notifyListeners s); simpl in Hs |- *; subst;
      assumption
    end.
Qed.

Lemma setJulianDate_addDays_never_leave_band_witness :
  TimeController.in_band
    (TimeController.julianDate
       (state_after (TimeController.setJulianDate (num 30000000)
                       TimeControllerFacts.j2000_controller))) = true /\
  TimeController.in_band
    (TimeController.julianDate
       (state_after (TimeController.addDays (num 30000000)
                       TimeControllerFacts.j2000_controller))) = true.
Proof.
  apply (setJulianDate_addDays_never_leave_band
           TimeControllerFacts.j2000_controller (num 30000000)).
  vm_compute. reflexivity.
Defined.

(** ** Comparisons of numbers *)

Lemma SFcompare_antisym (a b : float) :
  SFcompare b a = option_map CompOpp (SFcompare a b).
Proof.
  destruct a as [sa | sa | | sa ma ea], b as [sb | sb | | sb mb eb];
    try reflexivity;
    try (destruct sa; reflexivity); try (destruct sb; reflexivity);
    try (destruct sa, sb; reflexivity).
  simpl. f_equal.
  rewrite (Z.compare_antisym ea eb).
  change (Pos.compare_cont Eq mb ma) with (Pos.compare mb ma).
  change (Pos.compare_cont Eq ma mb) with (Pos.compare ma mb).
  rewrite (Pos.compare_antisym ma mb).
  destruct sa, sb, (ea ?= eb), (ma ?= mb)%positive; reflexivity.
Qed.

Lemma gtb_not_leb (a b : float) :
  F64.gtb a b = true -> F64.leb a b = false.
Proof.
  unfold F64.gtb, F64.leb, SFltb, SFleb.
  rewrite (SFcompare_antisym a b).
  destruct (SFcompare a b) as [[] |]; simpl; congruence.
Qed.

Lemma ltb_not_geb (a b : float) :
  F64.ltb a b = true -> F64.geb a b = false.
Proof.
  unfold F64.ltb, F64.geb, SFltb, SFleb.
  rewrite (SFcompare_antisym a b).
  destruct (SFcompare a b) as [[] |]; simpl; congruence.
Qed.

(** X3.  [setTimeScale] stores a scale only if it is finite and of
    magnitude at most 10,000,000, and changes no other field; a scale that
    is not finite or whose magnitude exceeds 10,000,000 makes it throw
    with every field unchanged. *)
Theorem setTimeScale_bounds (this : TimeController.t) (scale : float) :
  (forall u this',
     TimeController.setTimeScale scale this = Returns u this' ->
     F64.isFinite scale = true /\
     F64.leb (F64.abs scale) TimeController.MAX_TIME_SCALE = true /\
     TimeController.timeScale this' = scale /\
     TimeController.julianDate this' = TimeController.julianDate this /\
     TimeController.isPaused this' = TimeController.isPaused this /\
     TimeController.accumulatedTime this' = TimeController.accumulatedTime this) /\
  (F64.isFinite scale = false \/
   F64.gtb (F64.abs scale) TimeController.MAX_TIME_SCALE = true ->
   exists err, TimeController.setTimeScale scale this = Throws err this).
Proof.
  split.
  - intros u this' H. unfold TimeController.setTimeScale in H.
    invert_calls. TimeControllerInvariants.invert_setters.
    match goal with Hn : TimeController.notifyListeners _ = Returns _ _ |- _ =>
      apply TimeControllerFacts.notifyListeners_Returns in Hn;
      destruct Hn as [-> Hn] end.
    match goal with Hb : assertBounds _ _ _ _ = Ok _ |- _ =>
      apply TimeControllerInvariants.assertBounds_Ok in Hb;
      destruct Hb as (_ & _ & Hb) end.
    match goal with Hf : assertFinite scale _ = Ok _ |- _ =>
      apply assertFinite_Ok in Hf end.
    repeat split; assumption.
  - intros [Hinf | Hbig];
      cbv [TimeController.setTimeScale mbind lift].
    + destruct scale; try discriminate; eexists; reflexivity.
    + destruct (assertFinite scale _); [| eexists; reflexivity].
      unfold assertBounds. apply gtb_not_leb in Hbig. rewrite Hbig.
      rewrite andb_false_r.
      destruct (check (negb (F64.isNaN (F64.abs scale))) _);
        [| eexists; reflexivity].
      destruct (check (F64.isFinite (F64.abs scale)) _);
        eexists; reflexivity.
Qed.

Lemma setTimeScale_bounds_witness :
  exists err,
    TimeController.setTimeScale (num 20000000)
      TimeControllerFacts.j2000_controller
    = Throws err TimeControllerFacts.j2000_controller.
Proof.
  apply (proj2 (setTimeScale_bounds TimeControllerFacts.j2000_controller
                  (num 20000000))).
  right. vm_compute. reflexivity.
Defined.

Lemma notifyListeners_same_date (s s' s2 : TimeController.t) (u : unit) :
  TimeController.notifyListeners s = Returns u s' ->
  TimeController.julianDate s2 = TimeController.julianDate s ->
  TimeController.notifyListeners s2 = Returns tt s2.
Proof.
  cbv [TimeController.notifyListeners TimeController.getState
       TimeController.getCalendarDate mbind get lift ret].
  intros H ->.
  destruct (TimeController.julianToDate (TimeController.julianDate s));
    [reflexivity | discriminate].
Qed.

(** X4.  [reverse] and [forward] change the sign of the time scale and
    nothing else: the magnitude and the other fields are kept, the scale
    is never positive after [reverse] and never negative after [forward],
    and [forward] after [reverse] leaves what [forward] alone leaves. *)
Theorem reverse_forward_keep_magnitude
  (this this1 this2 : TimeController.t) (u1 u2 : unit) :
  TimeController.reverse this = Returns u1 this1 ->
  TimeController.forward this1 = Returns u2 this2 ->
  F64.abs (TimeController.timeScale this1) = F64.abs (TimeController.timeScale this) /\
  F64.gtb (TimeController.timeScale this1) F64.zero = false /\
  F64.ltb (TimeController.timeScale this2) F64.zero = false /\
  TimeController.timeScale this2 = F64.abs (TimeController.timeScale this) /\
  TimeController.julianDate this2 = TimeController.julianDate this /\
  TimeController.isPaused this2 = TimeController.isPaused this /\
  TimeController.accumulatedTime this2 = TimeController.accumulatedTime this /\
  TimeController.forward this = Returns tt this2.
Proof.
  intros H1 H2. unfold TimeController.reverse in H1.
  unfold TimeController.forward in H2.
  invert_calls. TimeControllerInvariants.invert_setters.
  match goal with
  | Hn : TimeController.notifyListeners _ = Returns _ this2 |- _ =>
      pose proof Hn as Hn2;
      apply TimeControllerFacts.notifyListeners_Returns in Hn;
      destruct Hn as [-> _]
  end.
  match goal with
  | Hn : TimeController.notifyListeners _ = Returns _ this1 |- _ =>
      apply TimeControllerFacts.notifyListeners_Returns in Hn;
      destruct Hn as [-> _]
  end.
  cbn [TimeController.timeScale TimeController.julianDate
       TimeController.isPaused TimeController.accumulatedTime] in *.
  rewrite TimeControllerInvariants.abs_opp_abs in *.
  split; [reflexivity |].
  split; [destruct (TimeController.timeScale this) as [| | | s m e]; reflexivity |].
  split; [destruct (TimeController.timeScale this) as [| | | s m e]; reflexivity |].
  repeat (split; [reflexivity |]).
  cbv [TimeController.forward mbind get TimeController.set_timeScale].
  apply (notifyListeners_same_date _ _ _ _ Hn2). reflexivity.
Qed.

Definition reversed_j2000 : TimeController.t :=
  {| TimeController.julianDate := J2000_JD;
     TimeController.timeScale := F64.opp (num 1);
     TimeController.isPaused := false;
     TimeController.accumulatedTime := num 0 |}.

Lemma reverse_forward_keep_magnitude_witness :
  TimeController.forward TimeControllerFacts.j2000_controller
  = Returns tt TimeControllerFacts.j2000_controller.
Proof.
  apply (reverse_forward_keep_magnitude TimeControllerFacts.j2000_controller
           reversed_j2000 TimeControllerFacts.j2000_controller tt tt);
    vm_compute; reflexivity.
Defined.

(** A sequence of frames: [update] called with each elapsed time in turn. *)
Fixpoint updates (deltas : list float) : method TimeController.t unit :=
  match deltas with
  | [] => ret tt
  | d :: rest => mbind (TimeController.update d) (fun _ => updates rest)
  end.

(** X5.  Pausing freezes the simulated time: once [pause] has returned,
    any sequence of [update] calls, with any arguments (negative, infinite
    and NaN included), returns and leaves every field as [pause] left it,
    and [pause] itself has changed neither the day count, the accumulated
    time nor the time scale. *)
Theorem pause_freezes_time
  (this paused : TimeController.t) (u : unit) (deltas : list float) :
  TimeController.pause this = Returns u paused ->
  updates deltas paused = Returns tt paused /\
  TimeController.julianDate paused = TimeController.julianDate this /\
  TimeController.accumulatedTime paused = TimeController.accumulatedTime this /\
  TimeController.timeScale paused = TimeController.timeScale this.
Proof.
  intro H. unfold TimeController.pause in H.
  invert_calls. TimeControllerInvariants.invert_setters.
  match goal with
  | Hn : TimeController.notifyListeners _ = Returns _ _ |- _ =>
      apply TimeControllerFacts.notifyListeners_Returns in Hn;
      destruct Hn as [-> _]
  end.
  split; [| repeat split; reflexivity].
  induction deltas as [| d rest IH]; [reflexivity |].
  cbn [updates]. unfold mbind at 1.
  unfold TimeController.update at 1. cbv [mbind get]. cbn [TimeController.isPaused].
  cbv [ret]. exact IH.
Qed.

Lemma pause_freezes_time_witness :
  updates [num 1; num (-5); F64.div F64.zero F64.zero]
    TimeControllerFacts.paused_controller
  = Returns tt TimeControllerFacts.paused_controller.
Proof.
  apply (pause_freezes_time TimeControllerFacts.j2000_controller
           TimeControllerFacts.paused_controller tt
           [num 1; num (-5); F64.div F64.zero F64.zero]).
  vm_compute. reflexivity.
Defined.

(** X6.  [togglePause] twice gives back the controller it started from,
    and the second call returns whenever the first did. *)
Theorem togglePause_twice (this this1 : TimeController.t) (u : unit) :
  TimeController.togglePause this = Returns u this1 ->
  TimeController.isPaused this1 = negb (TimeController.isPaused this) /\
  TimeController.togglePause this1 = Returns tt this.
Proof.
  intro H. unfold TimeController.togglePause in H.
  invert_calls. TimeControllerInvariants.invert_setters.
  match goal with
  | Hn : TimeController.notifyListeners _ = Returns _ _ |- _ =>
      pose proof Hn as Hn2;
      apply TimeControllerFacts.notifyListeners_Returns in Hn;
      destruct Hn as [-> _]
  end.
  split; [reflexivity |].
  cbv [TimeController.togglePause mbind get TimeController.set_isPaused].
  cbn [TimeController.timeScale TimeController.julianDate
       TimeController.isPaused TimeController.accumulatedTime].
  rewrite negb_involutive.
  rewrite (notifyListeners_same_date _ _
             {| TimeController.julianDate := TimeController.julianDate this;
                TimeController.timeScale := TimeController.timeScale this;
                TimeController.isPaused := TimeController.isPaused this;
                TimeController.accumulatedTime := TimeController.accumulatedTime this |}
             _ Hn2 eq_refl).
  destruct this; reflexivity.
Qed.

Lemma togglePause_twice_witness :
  TimeController.isPaused TimeControllerFacts.paused_controller
  = negb (TimeController.isPaused TimeControllerFacts.j2000_controller) /\
  TimeController.togglePause TimeControllerFacts.paused_controller
  = Returns tt TimeControllerFacts.j2000_controller.
Proof.
  apply (togglePause_twice TimeControllerFacts.j2000_controller
           TimeControllerFacts.paused_controller tt).
  vm_compute. reflexivity.
Defined.

(** ** The update pass over the bodies: what it keeps *)

Lemma assertFinite_Throw (value : float) (name : string) :
  F64.isFinite value = false -> exists err, assertFinite value name = Throw err.
Proof.
  destruct value; try discriminate; intros _; eexists; reflexivity.
Qed.

Lemma assertNonNegative_Throw (value : float) (name : string) :
  F64.ltb value F64.zero = true ->
  exists err, assertNonNegative value name = Throw err.
Proof.
  destruct value as [[] | [] | | [] m e]; try discriminate; intros _;
    eexists; reflexivity.
Qed.

(** The arguments that the preconditions of the [update] methods
    refuse. *)
Definition refused (julianDate deltaTime timeScale : float) : Prop :=
  F64.isFinite julianDate = false \/ F64.isFinite deltaTime = false \/
  F64.ltb deltaTime F64.zero = true \/ F64.isFinite timeScale = false.

Lemma preconditions_Throw {S A : Type} (julianDate deltaTime timeScale : float)
  (n1 n2 n3 n4 : string) (k : method S A) (s : S) :
  refused julianDate deltaTime timeScale ->
  exists err,
    mbind (lift (assertFinite julianDate n1)) (fun _ =>
    mbind (lift (assertFinite deltaTime n2)) (fun _ =>
    mbind (lift (assertNonNegative deltaTime n3)) (fun _ =>
    mbind (lift (assertFinite timeScale n4)) (fun _ => k)))) s
    = Throws err s.
Proof.
  intro H. rewrite mbind_lift.
  destruct (assertFinite julianDate n1) as [[] | err1] eqn:H1;
    [| eexists; reflexivity].
  rewrite mbind_lift.
  destruct (assertFinite deltaTime n2) as [[] | err2] eqn:H2;
    [| eexists; reflexivity].
  rewrite mbind_lift.
  destruct (assertNonNegative deltaTime n3) as [[] | err3] eqn:H3;
    [| eexists; reflexivity].
  rewrite mbind_lift.
  destruct (assertFinite timeScale n4) as [[] | err4] eqn:H4;
    [| eexists; reflexivity].
  exfalso. destruct H as [H | [H | [H | H]]].
  - destruct (assertFinite_Throw julianDate n1 H). congruence.
  - destruct (assertFinite_Throw deltaTime n2 H). congruence.
  - destruct (assertNonNegative_Throw deltaTime n3 H). congruence.
  - destruct (assertFinite_Throw timeScale n4 H). congruence.
Qed.

(** X7.  The [update] methods check their arguments before they touch
    anything: with a Julian date, an elapsed time or a time scale that is
    not finite, or a negative elapsed time, [SolarSystemBuilder.update]
    throws and leaves the builder and every body as they were, and so do
    [CelestialBody.update] and the [update] of its class on any body of
    any array; [SolarSystemBuilder.update] does the same when the array
    holds more than 200 bodies, whatever the arguments. *)
Theorem update_refuses_before_it_writes
  (math : MathLib) (three : ThreeLib) (performance_now : nat -> float)
  (julianDate deltaTime timeScale : float)
  (this : SolarSystemBuilder) (s : bodies) :
  (refused julianDate deltaTime timeScale \/
   (MAX_BODIES < List.length (allBodies this))%nat ->
   exists err,
     SolarSystemBuilder_update math three performance_now
       julianDate deltaTime timeScale this
     = Throws err this) /\
  (refused julianDate deltaTime timeScale ->
   forall (i : nat) (b : CelestialBody), nth_error s i = Some b ->
   exists err,
     CelestialBody_update math three i julianDate deltaTime timeScale s
     = Throws err s /\
     body_update math three performance_now i julianDate deltaTime timeScale s
     = Throws err s).
Proof.
  split.
  - intros [H | Hlen].
    + unfold SolarSystemBuilder_update. apply preconditions_Throw. assumption.
    + unfold SolarSystemBuilder_update.
      rewrite mbind_lift.
      destruct (assertFinite julianDate _) as [[] |]; [| eexists; reflexivity].
      rewrite mbind_lift.
      destruct (assertFinite deltaTime _) as [[] |]; [| eexists; reflexivity].
      rewrite mbind_lift.
      destruct (assertNonNegative deltaTime _) as [[] |]; [| eexists; reflexivity].
      rewrite mbind_lift.
      destruct (assertFinite timeScale _) as [[] |]; [| eexists; reflexivity].
      unfold mbind at 1. unfold get. rewrite mbind_lift.
      replace (Nat.leb (List.length (allBodies this)) MAX_BODIES) with false
        by (symmetry; apply Nat.leb_gt; assumption).
      eexists. reflexivity.
  - intros H i b Hb.
    assert (Hbase : exists err,
              CelestialBody_update math three i julianDate deltaTime timeScale s
              = Throws err s).
    { unfold CelestialBody_update.
      unfold mbind at 1. unfold this_body. rewrite Hb.
      apply preconditions_Throw. assumption. }
    destruct Hbase as [err Hbase]. exists err. split; [assumption |].
    unfold body_update. unfold mbind at 1. unfold this_body at 1. rewrite Hb.
    destruct (subclass b);
      unfold Sun_update, Planet_update, Moon_update, mbind;
      rewrite Hbase; reflexivity.
Qed.

(** A builder whose array holds the Sun 201 times. *)
Definition two_hundred_and_one_suns : SolarSystemBuilder :=
  {| sun := Some 0%nat; planets := []; ringSystems := [];
     allBodies :=
       repeat {| name := "Sun"; radius := num 696340;
                 rotationPeriod := dec 60912 2;
                 orbitalElements := None; parentBody := None;
                 position := THREE.origin; mesh := Some THREE.new_Mesh;
                 subclass := Sun THREE.new_Mesh |} 201 |}.

Lemma update_refuses_before_it_writes_witness :
  exists err,
    SolarSystemBuilder_update ReferenceMath.lib ReferenceThree.lib
      (clock_at (num 5000))
      (num 2460000) (dec 16 3) (num 1) two_hundred_and_one_suns
    = Throws err two_hundred_and_one_suns.
Proof.
  apply (proj1 (update_refuses_before_it_writes ReferenceMath.lib
                  ReferenceThree.lib (clock_at (num 5000))
                  (num 2460000) (dec 16 3) (num 1)
                  two_hundred_and_one_suns [])).
  right. vm_compute. lia.
Defined.

(** What one call of [update] makes of a body, whatever the rest of the
    array holds: name, rotation period, orbital elements and parent are
    kept; a body with orbital elements ends at a position with three finite
    coordinates, a body without them stays where it was. *)
Definition finite_vector (v : THREE.Vector3) : bool :=
  F64.isFinite (THREE.x v) && F64.isFinite (THREE.y v) && F64.isFinite (THREE.z v).

Definition settled (b b' : CelestialBody) : Prop :=
  roster_entry b' = roster_entry b /\
  match orbitalElements b with
  | Some _ => finite_vector (position b') = true
  | None => position b' = position b
  end.

Lemma assertFiniteVector_Ok (v : THREE.Vector3) (what : string) (u : unit) :
  assertFiniteVector v what = Ok u -> finite_vector v = true.
Proof.
  unfold assertFiniteVector, finite_vector. intro H. invert_Ok H.
  repeat match goal with
  | Hf : assertFinite _ _ = Ok _ |- _ => apply assertFinite_Ok in Hf; rewrite Hf
  end.
  reflexivity.
Qed.

Lemma settled_same_place (b b1 b2 : CelestialBody) :
  settled b b1 -> same_place b1 b2 -> settled b b2.
Proof.
  intros [Hr Hp] [Hr2 Hp2]. split; [congruence |].
  destruct (orbitalElements b); congruence.
Qed.

Section Frame.

Variable math : MathLib.
Variable three : ThreeLib.
Variable performance_now : nat -> float.
Variables julianDate deltaTime timeScale : float.

Lemma update_orbital_position_settled (i : nat) (s s' : bodies) (u : unit)
  (b : CelestialBody) :
  update_orbital_position math i julianDate s = Returns u s' ->
  nth_error s i = Some b ->
  exists b', s' = store s i b' /\ settled b b'.
Proof.
  intros H Hb. unfold update_orbital_position in H.
  apply mbind_Returns in H; destruct H as (this & s0 & Hthis & H).
  apply this_body_Returns in Hthis. destruct Hthis as [Hthis ->].
  rewrite Hb in Hthis. injection Hthis as <-. unfold settled.
  destruct (orbitalElements b) as [elements |] eqn:Hel.
  - destruct (parentBody b) as [parent |] eqn:Hparent; invert_body_calls;
      match goal with
      | Hn : nth_error (store _ _ _) _ = Some _ |- _ =>
          rewrite (nth_error_store_same _ _ _ _ Hb) in Hn; injection Hn as <-
      end;
      match goal with
      | Hf : assertFiniteVector _ _ = Ok _ |- _ =>
          apply assertFiniteVector_Ok in Hf
      end;
      eexists; (split; [reflexivity |]);
      (split; [unfold roster_entry; simpl; congruence | assumption]).
  - injection H as _ <-. exists b. rewrite store_same by assumption.
    repeat split.
Qed.

Lemma CelestialBody_update_settled (i : nat) (s s' : bodies) (u : unit)
  (b : CelestialBody) :
  CelestialBody_update math three i julianDate deltaTime timeScale s
    = Returns u s' ->
  nth_error s i = Some b ->
  exists b', s' = store s i b' /\ settled b b'.
Proof.
  intros H Hb. unfold CelestialBody_update in H.
  apply mbind_Returns in H; destruct H as (this & s0 & Hthis & H).
  apply this_body_Returns in Hthis. destruct Hthis as [_ ->].
  do 4 (apply mbind_Returns in H; destruct H as (? & ? & Hl & H);
        apply lift_Returns in Hl; destruct Hl as [_ ->]).
  apply mbind_Returns in H; destruct H as (? & s1 & Hpos & Hrot).
  destruct (update_orbital_position_settled _ _ _ _ _ Hpos Hb)
    as (b1 & -> & Hsettled).
  destruct (update_rotation_in_place three deltaTime timeScale i b1 _ _ _ Hrot
              (nth_error_store_same _ _ _ _ Hb))
    as (b2 & -> & Hsame).
  exists b2. rewrite store_store. split; [reflexivity |].
  exact (settled_same_place _ _ _ Hsettled Hsame).
Qed.

Lemma settled_after_CelestialBody_update (i : nat) (rest : method bodies unit)
  (s s' : bodies) (u : unit) (b : CelestialBody) :
  (forall b1, in_place i b1 rest) ->
  mbind (CelestialBody_update math three i julianDate deltaTime timeScale)
        (fun _ => rest) s = Returns u s' ->
  nth_error s i = Some b ->
  exists b', s' = store s i b' /\ settled b b'.
Proof.
  intros Hrest H Hb.
  apply mbind_Returns in H. destruct H as (u1 & s1 & Hbase & H).
  destruct (CelestialBody_update_settled _ _ _ _ _ Hbase Hb)
    as (b1 & -> & Hsettled).
  destruct (Hrest b1 _ _ _ H (nth_error_store_same _ _ _ _ Hb))
    as (b2 & -> & Hsame).
  exists b2. rewrite store_store. split; [reflexivity |].
  exact (settled_same_place _ _ _ Hsettled Hsame).
Qed.

Lemma body_update_settled (i : nat) (s s' : bodies) (u : unit)
  (b : CelestialBody) :
  body_update math three performance_now i julianDate deltaTime timeScale s
    = Returns u s' ->
  nth_error s i = Some b ->
  exists b', s' = store s i b' /\ settled b b'.
Proof.
  intros H Hb. unfold body_update in H. unfold mbind at 1 in H.
  unfold this_body at 1 in H. rewrite Hb in H.
  destruct (subclass b) as [corona | clouds atmosphere | locked].
  - exact (settled_after_CelestialBody_update i _ s s' u b
             (Sun_extras_in_place three performance_now deltaTime timeScale i)
             H Hb).
  - exact (settled_after_CelestialBody_update i _ s s' u b
             (Planet_extras_in_place three deltaTime timeScale i) H Hb).
  - exact (settled_after_CelestialBody_update i _ s s' u b
             (Moon_tidal_lock_in_place three i) H Hb).
Qed.

Lemma update_each_settled (n : nat) :
  forall (i : nat) (s s' : bodies) (u : unit),
    update_each math three performance_now n i julianDate deltaTime timeScale s
      = Returns u s' ->
    (i + n)%nat = List.length s ->
    List.length s' = List.length s /\
    forall j b, nth_error s j = Some b ->
      exists b', nth_error s' j = Some b' /\
        if Nat.ltb j i then b' = b else settled b b'.
Proof.
  induction n as [| n IH]; intros i s s' u H Hlen; simpl in H.
  - injection H as _ <-. split; [reflexivity |].
    intros j b Hb. exists b. split; [assumption |].
    assert (j < List.length s)%nat by (apply nth_error_Some; congruence).
    replace (Nat.ltb j i) with true by (symmetry; apply Nat.ltb_lt; lia).
    reflexivity.
  - apply mbind_Returns in H. destruct H as (u1 & s1 & Hstep & H).
    destruct (nth_error s i) as [b |] eqn:Hb;
      [| apply nth_error_None in Hb; lia].
    destruct (body_update_settled _ _ _ _ _ Hstep Hb)
      as (b' & -> & Hsettled).
    apply IH in H; [| rewrite store_length; lia].
    destruct H as [Hlen' Hall]. rewrite store_length in Hlen'.
    split; [assumption |].
    intros j c Hc.
    destruct (Nat.eq_dec j i) as [-> | Hne].
    + rewrite Hb in Hc. injection Hc as <-.
      destruct (Hall i b' (nth_error_store_same _ _ _ _ Hb)) as (c' & Hc' & Hrel).
      replace (Nat.ltb i (S i)) with true in Hrel
        by (symmetry; apply Nat.ltb_lt; lia).
      subst c'. exists b'. split; [assumption |].
      replace (Nat.ltb i i) with false by (symmetry; apply Nat.ltb_ge; lia).
      assumption.
    + assert (Hc1 : nth_error (store s i b') j = Some c)
        by (rewrite nth_error_store_other by congruence; assumption).
      destruct (Hall j c Hc1) as (c' & Hc' & Hrel).
      exists c'. split; [assumption |].
      destruct (Nat.ltb j i) eqn:Hji.
      * apply Nat.ltb_lt in Hji.
        replace (Nat.ltb j (S i)) with true in Hrel
          by (symmetry; apply Nat.ltb_lt; lia).
        assumption.
      * apply Nat.ltb_ge in Hji.
        replace (Nat.ltb j (S i)) with false in Hrel
          by (symmetry; apply Nat.ltb_ge; lia).
        assumption.
Qed.

End Frame.

(** X8.  A pass of [SolarSystemBuilder.update] that returns, over any
    builder: the array has at most 200 bodies and keeps its length; the
    Sun, the planets and the ring systems the builder refers to are the
    same; every body keeps its name, rotation period, orbital elements
    and parent; every body with orbital elements ends at a position with
    three finite coordinates and every body without them stays where it
    was. *)
Theorem pass_settles_every_body
  (math : MathLib) (three : ThreeLib) (performance_now : nat -> float)
  (julianDate delta timeScale : float)
  (this this' : SolarSystemBuilder) (u : unit) :
  SolarSystemBuilder_update math three performance_now
    julianDate delta timeScale this = Returns u this' ->
  (List.length (allBodies this) <= MAX_BODIES)%nat /\
  List.length (allBodies this') = List.length (allBodies this) /\
  this' = set_allBodies this (allBodies this') /\
  forall i b, nth_error (allBodies this) i = Some b ->
    exists b', nth_error (allBodies this') i = Some b' /\ settled b b'.
Proof.
  intro H. apply SolarSystemBuilder_update_Returns in H.
  destruct H as (Hcount & Hsame & H).
  split; [assumption |].
  apply update_each_settled in H; [| reflexivity].
  destruct H as [Hlen Hall]. split; [assumption |]. split; [assumption |].
  intros i b Hb. destruct (Hall i b Hb) as (b' & Hb' & Hrel).
  exists b'. split; [assumption |].
  replace (Nat.ltb i 0) with false in Hrel by (symmetry; apply Nat.ltb_ge; lia).
  assumption.
Qed.

Lemma pass_settles_every_body_witness :
  (List.length built_bodies <= MAX_BODIES)%nat /\
  List.length (allBodies first_pass) = List.length built_bodies /\
  first_pass = set_allBodies built_system (allBodies first_pass) /\
  forall i b, nth_error built_bodies i = Some b ->
    exists b', nth_error (allBodies first_pass) i = Some b' /\ settled b b'.
Proof.
  apply (pass_settles_every_body ReferenceMath.lib ReferenceThree.lib
           (clock_at (num 5000))
           (num 2460000) (dec 16 3) (num 1) built_system first_pass tt).
  vm_compute. reflexivity.
Defined.

(** ** Spin: retrograde rotation and reversed time *)

Module Signs.

Lemma binary_round_aux_negb (s : bool) (m e : Z) (l : location) :
  binary_round_aux F64.prec F64.emax (negb s) m e l
  = SFopp (binary_round_aux F64.prec F64.emax s m e l).
Proof.
  unfold binary_round_aux.
  destruct (shr_fexp F64.prec F64.emax m e l) as [mrs e1].
  destruct (shr_fexp F64.prec F64.emax _ e1 loc_Exact) as [mrs2 e2].
  destruct (shr_m mrs2); try reflexivity.
  destruct (e2 <=? F64.emax - F64.prec); reflexivity.
Qed.

Lemma xorb_negb_l (a b : bool) : xorb (negb a) b = negb (xorb a b).
Proof. destruct a, b; reflexivity. Qed.

Lemma xorb_negb_r (a b : bool) : xorb a (negb b) = negb (xorb a b).
Proof. destruct a, b; reflexivity. Qed.

Lemma mul_opp_l (a b : float) : F64.mul (F64.opp a) b = F64.opp (F64.mul a b).
Proof.
  destruct a as [sa | sa | | sa ma ea], b as [sb | sb | | sb mb eb];
    cbn [F64.mul F64.opp SFmul SFopp];
    rewrite ?xorb_negb_l, ?binary_round_aux_negb; reflexivity.
Qed.

Lemma mul_opp_r (a b : float) : F64.mul a (F64.opp b) = F64.opp (F64.mul a b).
Proof.
  destruct a as [sa | sa | | sa ma ea], b as [sb | sb | | sb mb eb];
    cbn [F64.mul F64.opp SFmul SFopp];
    rewrite ?xorb_negb_r, ?binary_round_aux_negb; reflexivity.
Qed.

Lemma div_opp_r (a b : float) : F64.div a (F64.opp b) = F64.opp (F64.div a b).
Proof.
  destruct a as [sa | sa | | sa ma ea], b as [sb | sb | | sb mb eb];
    cbn [F64.div F64.opp SFdiv SFopp];
    rewrite ?xorb_negb_r; try reflexivity.
  destruct (SFdiv_core_binary F64.prec F64.emax (Z.pos ma) ea (Z.pos mb) eb)
    as [[mz ez] lz].
  apply binary_round_aux_negb.
Qed.

Lemma isFinite_opp (a : float) : F64.isFinite (F64.opp a) = F64.isFinite a.
Proof. destruct a; reflexivity. Qed.

Lemma assertFinite_opp (a : float) (name : string) :
  assertFinite (F64.opp a) name = assertFinite a name.
Proof. destruct a; reflexivity. Qed.

Lemma eqb_opp_zero (a : float) :
  F64.eqb (F64.opp a) F64.zero = F64.eqb a F64.zero.
Proof. destruct a as [[] | [] | | [] m e]; reflexivity. Qed.

End Signs.

Lemma Returns_state {S A : Type} (a a' : A) (s s' : S) :
  Returns a s = Returns a' s' -> s = s'.
Proof. intro H. inversion H. reflexivity. Qed.

(** The same body turning the other way. *)
Definition retrograde (b : CelestialBody) : CelestialBody :=
  {| name := name b; radius := radius b;
     rotationPeriod := (- rotationPeriod b)%js;
     orbitalElements := orbitalElements b; parentBody := parentBody b;
     position := position b; mesh := mesh b; subclass := subclass b |}.

(** [if (!Number.isFinite(rotation.y)) rotation.y = 0]. *)
Definition finite_or_zero (angle : float) : float :=
  if F64.isFinite angle then angle else F64.zero.

Lemma rotation_y_turned (three : ThreeLib) (m : THREE.Mesh) (turn : float) :
  rotation_y (turned three m turn)
  = finite_or_zero (rotation_y m + turn)%js.
Proof.
  unfold turned, finite_or_zero, set_rotation_y, rotation_y.
  cbn [THREE.rotation THREE.euler_y].
  destruct (F64.isFinite _); reflexivity.
Qed.

(** X9.  The rotation block of [CelestialBody.update] turns a body with
    a mesh and a non-zero rotation period by a finite angle [turn]: the
    angle is added to [mesh.rotation.y], which is reset to 0 if the sum is
    not finite.  The same call on the same body with the opposite rotation
    period (retrograde rotation), or with the opposite time scale
    (reversed time), returns as well and turns the body by exactly
    [-turn]. *)
Theorem opposite_period_or_time_scale_turns_back
  (three : ThreeLib) (i : nat) (deltaTime timeScale : float)
  (s s' : bodies) (u : unit) (b : CelestialBody) (m : THREE.Mesh) :
  nth_error s i = Some b -> mesh b = Some m ->
  F64.eqb (rotationPeriod b) F64.zero = false ->
  update_rotation three i deltaTime timeScale s = Returns u s' ->
  exists turn : float,
    F64.isFinite turn = true /\
    s' = store s i (set_mesh b (Some (turned three m turn))) /\
    rotation_y (turned three m turn)
    = finite_or_zero (rotation_y m + turn)%js /\
    update_rotation three i deltaTime timeScale (store s i (retrograde b))
    = Returns tt (store s i (set_mesh (retrograde b)
                               (Some (turned three m (- turn)%js)))) /\
    update_rotation three i deltaTime (- timeScale)%js s
    = Returns tt (store s i (set_mesh b (Some (turned three m (- turn)%js)))) /\
    rotation_y (turned three m (- turn)%js)
    = finite_or_zero (rotation_y m + - turn)%js.
Proof.
  intros Hb Hmesh Hzero H.
  unfold update_rotation in H. unfold mbind at 1 in H. unfold this_body in H.
  rewrite Hb, Hmesh, Hzero in H. cbn [negb] in H.
  rewrite mbind_lift in H.
  destruct (assertFinite _ _) as [[] |] eqn:Hrate in H; [| discriminate].
  rewrite mbind_lift in H.
  destruct (assertFinite _ _) as [[] |] eqn:Hturn in H; [| discriminate].
  unfold write_body in H. apply Returns_state in H. subst s'.
  eexists. split; [apply (assertFinite_Ok _ _ _ Hturn) |].
  split; [reflexivity |]. split; [apply rotation_y_turned |].
  split; [| split; [| apply rotation_y_turned]].
  - unfold update_rotation. unfold mbind at 1. unfold this_body.
    rewrite (nth_error_store_same _ _ _ _ Hb).
    cbn [mesh rotationPeriod name retrograde]. rewrite Hmesh.
    rewrite Signs.eqb_opp_zero, Hzero. cbn [negb].
    rewrite Signs.div_opp_r, !Signs.mul_opp_l.
    rewrite mbind_lift, Signs.assertFinite_opp, Hrate.
    rewrite mbind_lift, Signs.assertFinite_opp, Hturn.
    unfold write_body. rewrite store_store. reflexivity.
  - unfold update_rotation. unfold mbind at 1. unfold this_body.
    rewrite Hb, Hmesh, Hzero. cbn [negb].
    rewrite Signs.mul_opp_r.
    rewrite mbind_lift, Hrate.
    rewrite mbind_lift, Signs.assertFinite_opp, Hturn.
    reflexivity.
Qed.

(** Venus alone, its mesh as it was created, one sixtieth of a second
    at time scale 1000. *)
Definition venus : CelestialBody :=
  {| name := "Venus"; radius := dec 60518 1; rotationPeriod := dec (-58325) 1;
     orbitalElements := None; parentBody := None;
     position := THREE.origin; mesh := Some THREE.new_Mesh;
     subclass := Planet (Some THREE.new_Mesh) true |}.

Lemma opposite_period_or_time_scale_turns_back_witness :
  exists turn : float,
    F64.isFinite turn = true /\
    state_after (update_rotation ReferenceThree.lib 0 (dec 16 3) (num 1000)
                   [venus])
    = store [venus] 0
        (set_mesh venus
           (Some (turned ReferenceThree.lib THREE.new_Mesh turn))).
Proof.
  assert (Hrun : update_rotation ReferenceThree.lib 0 (dec 16 3) (num 1000)
                   [venus]
                 = Returns tt
                     (state_after (update_rotation ReferenceThree.lib
                                     0 (dec 16 3) (num 1000) [venus])))
    by (vm_compute; reflexivity).
  assert (Hperiod : F64.eqb (rotationPeriod venus) F64.zero = false)
    by (vm_compute; reflexivity).
  destruct (opposite_period_or_time_scale_turns_back ReferenceThree.lib
              0 (dec 16 3) (num 1000) [venus] _ tt venus THREE.new_Mesh
              eq_refl eq_refl Hperiod Hrun)
    as (turn & Hturn & Hs & _).
  exists turn. split; [exact Hturn | exact Hs].
Defined.

(** ** The order of numbers

    The comparison of two numbers is the lexicographic comparison of
    their keys: the class (negative infinity, negative, zero, positive,
    positive infinity), then the exponent and the mantissa, both negated
    for a negative number. *)

Module Order.

Definition key (a : float) : Z * Z * Z :=
  match a with
  | S754_zero _ => (0, 0, 0)
  | S754_infinity s => (if s then -2 else 2, 0, 0)
  | S754_nan => (0, 0, 0)
  | S754_finite s m e => if s then (-1, - e, Z.neg m) else (1, e, Z.pos m)
  end.

Definition below (k1 k2 : Z * Z * Z) : Prop :=
  let '(a1, a2, a3) := k1 in
  let '(b1, b2, b3) := k2 in
  a1 < b1 \/ (a1 = b1 /\ (a2 < b2 \/ (a2 = b2 /\ a3 < b3))).

Definition lex (k1 k2 : Z * Z * Z) : comparison :=
  let '(a1, a2, a3) := k1 in
  let '(b1, b2, b3) := k2 in
  match a1 ?= b1 with
  | Eq => match a2 ?= b2 with Eq => a3 ?= b3 | c => c end
  | c => c
  end.

Lemma SFcompare_lex (a b : float) :
  F64.isNaN a = false -> F64.isNaN b = false ->
  SFcompare a b = Some (lex (key a) (key b)).
Proof.
  destruct a as [sa | sa | | sa ma ea], b as [sb | sb | | sb mb eb];
    try discriminate; intros _ _;
    try (destruct sa; reflexivity); try (destruct sb; reflexivity);
    try (destruct sa, sb; reflexivity).
  destruct sa, sb; try reflexivity. cbn [SFcompare key lex].
  rewrite Z.compare_opp. rewrite (Z.compare_antisym ea eb).
  destruct (ea ?= eb); reflexivity.
Qed.

Lemma lex_Lt (k1 k2 : Z * Z * Z) : lex k1 k2 = Lt <-> below k1 k2.
Proof.
  destruct k1 as [[a1 a2] a3], k2 as [[b1 b2] b3]. unfold lex, below.
  destruct (Z.compare_spec a1 b1), (Z.compare_spec a2 b2),
    (Z.compare_spec a3 b3); split; intro Hlex; try discriminate;
    try reflexivity; lia.
Qed.

Lemma lex_Gt (k1 k2 : Z * Z * Z) : lex k1 k2 = Gt <-> below k2 k1.
Proof.
  destruct k1 as [[a1 a2] a3], k2 as [[b1 b2] b3]. unfold lex, below.
  destruct (Z.compare_spec a1 b1), (Z.compare_spec a2 b2),
    (Z.compare_spec a3 b3); split; intro Hlex; try discriminate;
    try reflexivity; lia.
Qed.

Lemma ltb_spec (a b : float) :
  F64.ltb a b = true <->
  F64.isNaN a = false /\ F64.isNaN b = false /\ below (key a) (key b).
Proof.
  unfold F64.ltb, SFltb.
  destruct (F64.isNaN a) eqn:Ha.
  { destruct a; try discriminate. split; [discriminate | intros (? & _); discriminate]. }
  destruct (F64.isNaN b) eqn:Hb.
  { destruct b; try discriminate. destruct a; split;
      try discriminate; intros (_ & ? & _); discriminate. }
  rewrite (SFcompare_lex a b Ha Hb). rewrite <- lex_Lt.
  destruct (lex (key a) (key b)); intuition (try discriminate; auto).
Qed.

Lemma leb_spec (a b : float) :
  F64.leb a b = true <->
  F64.isNaN a = false /\ F64.isNaN b = false /\ ~ below (key b) (key a).
Proof.
  unfold F64.leb, SFleb.
  destruct (F64.isNaN a) eqn:Ha.
  { destruct a; try discriminate. split; [discriminate | intros (? & _); discriminate]. }
  destruct (F64.isNaN b) eqn:Hb.
  { destruct b; try discriminate. destruct a; split;
      try discriminate; intros (_ & ? & _); discriminate. }
  rewrite (SFcompare_lex a b Ha Hb). rewrite <- lex_Gt.
  destruct (lex (key a) (key b)); intuition (try discriminate; auto).
Qed.

Lemma gtb_spec (a b : float) :
  F64.gtb a b = true <->
  F64.isNaN a = false /\ F64.isNaN b = false /\ below (key b) (key a).
Proof. unfold F64.gtb. change (SFltb b a) with (F64.ltb b a).
  rewrite ltb_spec. tauto. Qed.

Lemma geb_spec (a b : float) :
  F64.geb a b = true <->
  F64.isNaN a = false /\ F64.isNaN b = false /\ ~ below (key a) (key b).
Proof. unfold F64.geb. change (SFleb b a) with (F64.leb b a).
  rewrite leb_spec. tauto. Qed.

(** Chains of comparisons. *)
Ltac order :=
  repeat match goal with
  | H : F64.ltb _ _ = true |- _ => apply ltb_spec in H; destruct H as (? & ? & H)
  | H : F64.leb _ _ = true |- _ => apply leb_spec in H; destruct H as (? & ? & H)
  | H : F64.gtb _ _ = true |- _ => apply gtb_spec in H; destruct H as (? & ? & H)
  | H : F64.geb _ _ = true |- _ => apply geb_spec in H; destruct H as (? & ? & H)
  end;
  try match goal with
  | |- F64.ltb _ _ = true => apply ltb_spec; split; [assumption | split; [assumption |]]
  | |- F64.leb _ _ = true => apply leb_spec; split; [assumption | split; [assumption |]]
  | |- F64.gtb _ _ = true => apply gtb_spec; split; [assumption | split; [assumption |]]
  | |- F64.geb _ _ = true => apply geb_spec; split; [assumption | split; [assumption |]]
  end;
  repeat match goal with
  | H : context [key ?a] |- _ =>
      let k := fresh "k" in
      remember (key a) as k eqn:Hk; clear Hk;
      destruct k as [[? ?] ?]
  | |- context [key ?a] =>
      let k := fresh "k" in
      remember (key a) as k eqn:Hk; clear Hk;
      destruct k as [[? ?] ?]
  end;
  unfold below in *; lia.

Lemma ltb_trans (a b c : float) :
  F64.ltb a b = true -> F64.ltb b c = true -> F64.ltb a c = true.
Proof. intros H1 H2. order. Qed.

Lemma leb_trans (a b c : float) :
  F64.leb a b = true -> F64.leb b c = true -> F64.leb a c = true.
Proof. intros H1 H2. order. Qed.

Lemma ltb_leb_trans (a b c : float) :
  F64.ltb a b = true -> F64.leb b c = true -> F64.ltb a c = true.
Proof. intros H1 H2. order. Qed.

Lemma leb_ltb_trans (a b c : float) :
  F64.leb a b = true -> F64.ltb b c = true -> F64.ltb a c = true.
Proof. intros H1 H2. order. Qed.

End Order.

(** ** Orbits that are not ellipses *)

Lemma Ok_value {A : Type} (a b : A) : Ok a = Ok b -> a = b.
Proof. intro H. inversion H. reflexivity. Qed.

Lemma bind_throws {A B : Type} (r : result A) (k : A -> result B) :
  (forall a, exists err, k a = Throw err) -> exists err, bind r k = Throw err.
Proof.
  intro H. destruct r as [a | err]; [apply H | eexists; reflexivity].
Qed.

Lemma bind_throws_now {A B : Type} (r : result A) (k : A -> result B) :
  (exists err, r = Throw err) -> exists err, bind r k = Throw err.
Proof. intros [err ->]. eexists. reflexivity. Qed.

(** An eccentricity outside [0, 1 - Number.EPSILON]: NaN, infinite,
    negative, or at least 1 (a parabola or a hyperbola). *)
Definition not_elliptic (e : float) : Prop :=
  F64.isFinite e = false \/ F64.ltb e F64.zero = true \/
  F64.geb e F64.one = true.

Lemma assertBounds_not_elliptic (e : float) (name : string) :
  not_elliptic e ->
  exists err,
    assertBounds e F64.zero (F64.sub F64.one F64.EPSILON) name = Throw err.
Proof.
  intros [H | [H | H]]; unfold assertBounds.
  - destruct e; try discriminate; eexists; reflexivity.
  - apply ltb_not_geb in H. rewrite H.
    destruct (check (negb (F64.isNaN e)) _); [| eexists; reflexivity].
    destruct (check (F64.isFinite e) _); eexists; reflexivity.
  - assert (Hle : F64.leb e (F64.sub F64.one F64.EPSILON) = false).
    { destruct (F64.leb e (F64.sub F64.one F64.EPSILON)) eqn:Hle;
        [| reflexivity].
      unfold F64.geb in H. change (SFleb F64.one e) with (F64.leb F64.one e) in H.
      pose proof (Order.leb_trans _ _ _ H Hle) as Habs.
      vm_compute in Habs. discriminate. }
    rewrite Hle, andb_false_r.
    destruct (check (negb (F64.isNaN e)) _); [| eexists; reflexivity].
    destruct (check (F64.isFinite e) _); eexists; reflexivity.
Qed.

(** X10.  No function of the orbital mechanics accepts an orbit that is
    not an ellipse: with an eccentricity that is NaN, infinite, negative or
    at least 1, [solveKeplerEquation], [trueAnomalyFromEccentric],
    [calculateHeliocentricDistance], [calculateOrbitalVelocity] and
    [calculatePosition] throw, whatever their other arguments. *)
Theorem eccentricity_outside_0_1_is_refused (math : MathLib) (e : float) :
  not_elliptic e ->
  (forall M tolerance maxIterations, exists err,
     solveKeplerEquation math M e tolerance maxIterations = Throw err) /\
  (forall E, exists err, trueAnomalyFromEccentric math E e = Throw err) /\
  (forall a nu, exists err,
     calculateHeliocentricDistance math a e nu = Throw err) /\
  (forall a nu, exists err, calculateOrbitalVelocity math a e nu = Throw err) /\
  (forall elements julianDate, eccentricity elements = e -> exists err,
     calculatePosition math elements julianDate = Throw err).
Proof.
  intro H.
  repeat split; intros.
  - unfold solveKeplerEquation.
    do 2 (apply bind_throws; intros _).
    apply bind_throws_now, assertBounds_not_elliptic, H.
  - unfold trueAnomalyFromEccentric.
    do 2 (apply bind_throws; intros _).
    apply bind_throws_now, assertBounds_not_elliptic, H.
  - unfold calculateHeliocentricDistance.
    do 2 (apply bind_throws; intros _).
    apply bind_throws_now, assertBounds_not_elliptic, H.
  - unfold calculateOrbitalVelocity.
    apply bind_throws; intros _.
    apply bind_throws_now, assertBounds_not_elliptic, H.
  - unfold calculatePosition. cbv zeta.
    do 4 (apply bind_throws; intros _).
    subst e.
    apply bind_throws_now, assertBounds_not_elliptic, H.
Qed.

Lemma eccentricity_outside_0_1_is_refused_witness :
  exists err,
    calculateHeliocentricDistance ReferenceMath.lib (num 1) (num 1) (num 0)
    = Throw err.
Proof.
  apply (proj1 (proj2 (proj2
           (eccentricity_outside_0_1_is_refused ReferenceMath.lib (num 1)
              ltac:(right; right; vm_compute; reflexivity))))).
Defined.

(** ** The current Julian date, computed twice *)

Lemma gtb_ltb (a b : float) : F64.gtb a b = F64.ltb b a.
Proof. reflexivity. Qed.

Lemma low_bound_in_band :
  F64.ltb TimeController.MIN_JULIAN_DATE (num 2400000) = true.
Proof. vm_compute. reflexivity. Qed.

Lemma high_bound_in_band :
  F64.ltb (num 3000000) TimeController.MAX_JULIAN_DATE = true.
Proof. vm_compute. reflexivity. Qed.

(** The day count that both [getCurrentJulianDate] and [dateToJulian]
    compute from the fields of a date. *)
Definition julian_day_count (now : Z) : float :=
  let year := num (JSDate.getUTCFullYear now) in
  let month := (num (JSDate.getUTCMonth now) + num 1)%js in
  let day := num (JSDate.getUTCDate now) in
  let hour := num (JSDate.getUTCHours now) in
  let minute := num (JSDate.getUTCMinutes now) in
  let second := num (JSDate.getUTCSeconds now) in
  let small := (month <=? num 2)%js in
  let y := if small then (year - num 1)%js else year in
  let m := if small then (month + num 12)%js else month in
  let A := F64.floor (y / num 100)%js in
  let B := (num 2 - A + F64.floor (A / num 4))%js in
  (F64.floor (dec 36525 2 * (y + num 4716)) +
   F64.floor (dec 306001 4 * (m + num 1)) +
   day + B - dec 15245 1 +
   (hour + minute / num 60 + second / num 3600) / num 24)%js.

Lemma getCurrentJulianDate_count (now : Z) :
  getCurrentJulianDate now =
  (assertFinite (julian_day_count now) "Julian Date" ;;
   invariant (F64.gtb (julian_day_count now) (num 2400000) &&
              F64.ltb (julian_day_count now) (num 3000000))
             "Julian Date should be in reasonable range" ;;
   Ok (julian_day_count now)).
Proof. unfold getCurrentJulianDate, julian_day_count. reflexivity. Qed.

Lemma dateToJulian_count (now : Z) :
  TimeController.dateToJulian (Some now) =
  (assertFinite (julian_day_count now) "Calculated Julian date" ;;
   Ok (julian_day_count now)).
Proof. unfold TimeController.dateToJulian, julian_day_count. reflexivity. Qed.

(** X11.  [getCurrentJulianDate] of the orbital mechanics and the
    constructor of the time controller read the clock through the same
    formula: whenever [getCurrentJulianDate] returns a day count at an
    instant, the count lies strictly between 2,400,000 and 3,000,000,
    [dateToJulian] of that instant returns the same count, and a time
    controller constructed at that instant starts with exactly this count,
    time scale 1, not paused. *)
Theorem getCurrentJulianDate_agrees_with_the_controller
  (now : Z) (JD : float) :
  getCurrentJulianDate now = Ok JD ->
  F64.gtb JD (num 2400000) = true /\ F64.ltb JD (num 3000000) = true /\
  TimeController.dateToJulian (Some now) = Ok JD /\
  TimeController.constructor (Some now)
  = Ok {| TimeController.julianDate := JD;
          TimeController.timeScale := num 1;
          TimeController.isPaused := false;
          TimeController.accumulatedTime := num 0 |}.
Proof.
  rewrite getCurrentJulianDate_count. unfold TimeController.constructor.
  rewrite dateToJulian_count.
  generalize (julian_day_count now). intros jd H.
  apply bind_Ok in H. destruct H as ([] & Hfinite & H).
  apply bind_Ok in H. destruct H as ([] & Hrange & H).
  apply Ok_value in H. subst JD.
  apply assertFinite_Ok in Hfinite.
  apply invariant_Ok in Hrange. apply andb_prop in Hrange.
  destruct Hrange as [Hlow Hhigh].
  rewrite !assertFinite_finite by assumption. cbn [bind].
  rewrite !assertFinite_finite by assumption. cbn [bind].
  split; [assumption |]. split; [assumption |]. split; [reflexivity |].
  assert (Hband : TimeController.in_band jd = true);
    [| rewrite Hband; reflexivity].
  unfold TimeController.in_band. apply andb_true_intro. split.
  - rewrite gtb_ltb in *.
    apply (Order.ltb_trans _ (num 2400000) _ low_bound_in_band Hlow).
  - apply (Order.ltb_trans _ (num 3000000) _ Hhigh high_bound_in_band).
Qed.

(** Noon of 1 January 2000, in milliseconds since the epoch of [Date]. *)
Lemma getCurrentJulianDate_agrees_with_the_controller_witness :
  TimeController.dateToJulian (Some 946728000000) = Ok J2000_JD.
Proof.
  exact (proj1 (proj2 (proj2
    (getCurrentJulianDate_agrees_with_the_controller 946728000000 J2000_JD
       ltac:(vm_compute; reflexivity))))).
Defined.

(** ** Distances *)

Module Differences.

Lemma opp_involutive (a : float) : F64.opp (F64.opp a) = a.
Proof. destruct a; cbn [F64.opp SFopp]; rewrite ?negb_involutive; reflexivity. Qed.

Lemma binary_normalize_opp (n e : Z) :
  n <> 0 ->
  binary_normalize F64.prec F64.emax (- n) e false
  = F64.opp (binary_normalize F64.prec F64.emax n e false).
Proof.
  intro Hn. destruct n as [| p | p]; [contradiction | |];
    cbn [Z.opp binary_normalize]; unfold binary_round;
    destruct (shl_align p e _) as [mz ez];
    [apply (Signs.binary_round_aux_negb false)
    | symmetry; rewrite (Signs.binary_round_aux_negb false);
      apply opp_involutive ].
Qed.

(** [b - a] is [-(a - b)], unless both are [+0]. *)
Lemma sub_swap (a b : float) :
  F64.isFinite a = true -> F64.isFinite b = true ->
  F64.sub b a = F64.opp (F64.sub a b) \/
  (F64.sub b a = F64.zero /\ F64.sub a b = F64.zero).
Proof.
  destruct a as [sa | sa | | sa ma ea], b as [sb | sb | | sb mb eb];
    try discriminate; intros _ _.
  - destruct sa, sb; cbn; auto.
  - left. cbn [F64.sub SFsub F64.opp SFopp]. rewrite negb_involutive. reflexivity.
  - left. cbn [F64.sub SFsub F64.opp SFopp]. reflexivity.
  - cbn [F64.sub SFsub]. rewrite (Z.min_comm eb ea).
    set (ez := Z.min ea eb).
    set (X := cond_Zopp sa (Z.pos (fst (shl_align ma ea ez)))).
    set (Y := cond_Zopp sb (Z.pos (fst (shl_align mb eb ez)))).
    destruct (Z.eq_dec (X - Y) 0) as [Hz | Hz].
    + right. replace (Y - X) with 0 by lia. rewrite Hz. split; reflexivity.
    + left. replace (Y - X) with (- (X - Y)) by lia.
      apply binary_normalize_opp. assumption.
Qed.

Lemma square_swap (a b : float) :
  F64.isFinite a = true -> F64.isFinite b = true ->
  F64.mul (F64.sub b a) (F64.sub b a) = F64.mul (F64.sub a b) (F64.sub a b).
Proof.
  intros Ha Hb. destruct (sub_swap a b Ha Hb) as [H | [H1 H2]].
  - rewrite H, Signs.mul_opp_l, Signs.mul_opp_r. apply opp_involutive.
  - rewrite H1, H2. reflexivity.
Qed.

Lemma sub_self (a : float) :
  F64.isFinite a = true -> F64.sub a a = F64.zero.
Proof.
  destruct a as [[] | | | s m e]; try discriminate; intros _;
    try reflexivity.
  apply F64Facts.sub_self_finite.
Qed.

End Differences.

(** Discharges the finiteness checks on values known to be finite. *)
Ltac finite_arguments :=
  repeat match goal with
  | Hf : F64.isFinite ?v = true |- context [assertFinite ?v ?n] =>
      rewrite (assertFinite_finite v n Hf)
  end.

(** X12.  [calculateDistance] does not depend on the order of its two
    points: when it returns a distance for [(pos1, pos2)] it returns the
    same number for [(pos2, pos1)]; the number is finite and not negative;
    and the distance from a point with finite coordinates to itself is
    exactly 0. *)
Theorem calculateDistance_symmetric
  (pos1 pos2 : CartesianPosition) (distance : float) :
  calculateDistance pos1 pos2 = Ok distance ->
  calculateDistance pos2 pos1 = Ok distance /\
  F64.isFinite distance = true /\ F64.geb distance F64.zero = true /\
  calculateDistance pos1 pos1 = Ok F64.zero.
Proof.
  intro H. pose proof H as H0. unfold calculateDistance in H. cbv zeta in H.
  do 6 (apply bind_Ok in H; destruct H as ([] & ? & H)).
  repeat match goal with
  | Hf : assertFinite _ _ = Ok tt |- _ => apply assertFinite_Ok in Hf
  end.
  assert (Hsym : calculateDistance pos2 pos1 = Ok distance).
  { rewrite <- H0. unfold calculateDistance. cbv zeta.
    finite_arguments. cbn [bind].
    rewrite (Differences.square_swap (x pos2) (x pos1)) by assumption.
    rewrite (Differences.square_swap (y pos2) (y pos1)) by assumption.
    rewrite (Differences.square_swap (z pos2) (z pos1)) by assumption.
    reflexivity. }
  split; [assumption |].
  apply bind_Ok in H; destruct H as ([] & Hfinite & H).
  apply bind_Ok in H; destruct H as ([] & Hsign & H).
  apply Ok_value in H.
  apply assertFinite_Ok in Hfinite.
  apply TimeControllerInvariants.assertNonNegative_Ok in Hsign. destruct Hsign as [_ Hsign].
  rewrite H in Hfinite, Hsign.
  split; [assumption |]. split; [assumption |].
  unfold calculateDistance. cbv zeta.
  finite_arguments. cbn [bind].
  rewrite !Differences.sub_self by assumption.
  reflexivity.
Qed.

Lemma calculateDistance_symmetric_witness :
  calculateDistance {| x := num 4; y := num 0; z := num 0 |}
                    {| x := num 1; y := num 4; z := num 0 |}
  = Ok (num 5).
Proof.
  exact (proj1 (calculateDistance_symmetric
                  {| x := num 1; y := num 4; z := num 0 |}
                  {| x := num 4; y := num 0; z := num 0 |}
                  (num 5) ltac:(vm_compute; reflexivity))).
Defined.

(** ** The orbital period and the derived mean motion *)

Module Positivity.

Lemma assertPositive_Ok (value : float) (name : string) (u : unit) :
  assertPositive value name = Ok u ->
  F64.isFinite value = true /\ F64.gtb value F64.zero = true.
Proof.
  unfold assertPositive. intro H. invert_Ok H.
  repeat match goal with Hc : check _ _ = Ok _ |- _ => apply check_Ok in Hc end.
  auto.
Qed.

Lemma assertPositive_positive (value : float) (name : string) :
  F64.isFinite value = true -> F64.gtb value F64.zero = true ->
  assertPositive value name = Ok tt.
Proof.
  unfold assertPositive. intros Hf Hp. rewrite Hf, Hp.
  destruct value; try discriminate; reflexivity.
Qed.

(** A rounded result with a negative sign is not positive. *)
Lemma rounded_negative (m e : Z) (l : location) :
  F64.gtb (binary_round_aux F64.prec F64.emax true m e l) F64.zero = false.
Proof.
  unfold binary_round_aux.
  destruct (shr_fexp F64.prec F64.emax m e l) as [mrs e1].
  destruct (shr_fexp F64.prec F64.emax _ e1 loc_Exact) as [mrs2 e2].
  destruct (shr_m mrs2); try reflexivity.
  destruct (e2 <=? F64.emax - F64.prec); reflexivity.
Qed.

(** A positive finite quotient of a positive finite number has a positive
    finite denominator. *)
Lemma positive_quotient (mc : positive) (ec : Z) (d : float) :
  F64.isFinite (F64.div (S754_finite false mc ec) d) = true ->
  F64.gtb (F64.div (S754_finite false mc ec) d) F64.zero = true ->
  F64.isFinite d = true /\ F64.gtb d F64.zero = true.
Proof.
  destruct d as [s | s | | s m e]; cbn [F64.div SFdiv]; intros H1 H2.
  - discriminate H1.
  - destruct s; discriminate H2.
  - discriminate H1.
  - destruct s; [| split; reflexivity].
    cbn [xorb] in H2.
    destruct (SFdiv_core_binary F64.prec F64.emax (Z.pos mc) ec (Z.pos m) e)
      as [[mz ez] lz].
    rewrite rounded_negative in H2. discriminate.
Qed.

(** A positive finite product with a positive finite number has a
    positive finite other factor. *)
Lemma positive_product (y : float) (md : positive) (ed : Z) :
  F64.isFinite (F64.mul y (S754_finite false md ed)) = true ->
  F64.gtb (F64.mul y (S754_finite false md ed)) F64.zero = true ->
  F64.isFinite y = true /\ F64.gtb y F64.zero = true.
Proof.
  destruct y as [s | s | | s m e]; cbn [F64.mul SFmul]; intros H1 H2.
  - destruct s; discriminate H2.
  - discriminate H1.
  - discriminate H1.
  - destruct s; [| split; reflexivity].
    cbn [xorb] in H2. rewrite rounded_negative in H2. discriminate.
Qed.

End Positivity.

(** The elements leave the mean motion to be derived: [meanMotion] is
    absent, or falsy ([0], [-0] or [NaN]). *)
Definition without_mean_motion (elements : OrbitalElements) : Prop :=
  match meanMotion elements with
  | None => True
  | Some supplied => F64.truthy supplied = false
  end.

(** X13.  Whenever [calculatePosition] returns for elements that leave
    the mean motion to be derived, [calculateOrbitalPeriod] returns for
    their semi-major axis, and the mean motion that [calculatePosition]
    used is 360 degrees divided by that period. *)
Theorem derived_mean_motion_is_360_per_period
  (math : MathLib) (elements : OrbitalElements) (julianDate : float)
  (pos : CartesianPosition) :
  without_mean_motion elements ->
  calculatePosition math elements julianDate = Ok pos ->
  exists period : float,
    calculateOrbitalPeriod (semiMajorAxis elements) = Ok period /\
    mean_motion elements = (num 360 / period)%js.
Proof.
  intros Hnone H.
  assert (Hn : mean_motion elements
               = (num 360 / (F64.sqrt (semiMajorAxis elements *
                                       semiMajorAxis elements *
                                       semiMajorAxis elements) *
                             dec 36525 2))%js).
  { pose proof (mean_motion_cases elements) as Hc. cbv zeta in Hc.
    unfold without_mean_motion in Hnone.
    destruct (meanMotion elements); [apply Hc, Hnone | exact Hc]. }
  unfold calculatePosition in H. cbv zeta in H.
  apply bind_Ok in H; destruct H as ([] & _ & H).
  apply bind_Ok in H; destruct H as ([] & Ha & H).
  do 8 (apply bind_Ok in H; destruct H as ([] & _ & H)).
  apply bind_Ok in H; destruct H as ([] & _ & H).
  apply bind_Ok in H; destruct H as ([] & Hpos & _).
  apply Positivity.assertPositive_Ok in Ha. destruct Ha as [Hafin Hapos].
  apply Positivity.assertPositive_Ok in Hpos. destruct Hpos as [Hnfin Hnpos].
  rewrite Hn in Hnfin, Hnpos.
  assert (Hpositive :
            F64.isFinite (F64.sqrt (semiMajorAxis elements *
                                    semiMajorAxis elements *
                                    semiMajorAxis elements) * dec 36525 2)%js
            = true /\
            F64.gtb (F64.sqrt (semiMajorAxis elements *
                               semiMajorAxis elements *
                               semiMajorAxis elements) * dec 36525 2)%js
                    F64.zero = true).
  { remember (num 360) as c eqn:Hc. vm_compute in Hc. subst c.
    exact (Positivity.positive_quotient _ _ _ Hnfin Hnpos). }
  destruct Hpositive as [Hpfin Hppos].
  assert (Hyears :
            F64.isFinite (F64.sqrt (semiMajorAxis elements *
                                    semiMajorAxis elements *
                                    semiMajorAxis elements)%js) = true /\
            F64.gtb (F64.sqrt (semiMajorAxis elements *
                               semiMajorAxis elements *
                               semiMajorAxis elements)%js) F64.zero = true).
  { pose proof Hpfin as Hpfin'. pose proof Hppos as Hppos'.
    remember (dec 36525 2) as d eqn:Hd. vm_compute in Hd. subst d.
    exact (Positivity.positive_product _ _ _ Hpfin' Hppos'). }
  destruct Hyears as [Hyfin Hypos].
  eexists. split; [| rewrite Hn; reflexivity].
  unfold calculateOrbitalPeriod. cbv zeta.
  rewrite (Positivity.assertPositive_positive _ _ Hafin Hapos). cbn [bind].
  rewrite (assertFinite_finite _ _ Hyfin). cbn [bind].
  rewrite (Positivity.assertPositive_positive _ _ Hyfin Hypos). cbn [bind].
  rewrite (assertFinite_finite _ _ Hpfin). cbn [bind].
  rewrite (Positivity.assertPositive_positive _ _ Hpfin Hppos). cbn [bind].
  reflexivity.
Qed.

Lemma derived_mean_motion_is_360_per_period_witness :
  exists period : float,
    calculateOrbitalPeriod (semiMajorAxis elements_meanMotion_zero) = Ok period /\
    mean_motion elements_meanMotion_zero = (num 360 / period)%js.
Proof.
  apply (derived_mean_motion_is_360_per_period ReferenceMath.lib
           elements_meanMotion_zero J2000_JD
           (value_or {| x := F64.zero; y := F64.zero; z := F64.zero |}
              (calculatePosition ReferenceMath.lib elements_meanMotion_zero
                 J2000_JD))).
  - vm_compute. reflexivity.
  - vm_compute. reflexivity.
Defined.

(** ** Rounding is monotone

    A number that lies below a representable number rounds to at most that
    number, and a number that lies above it rounds to at least that
    number.  The representable number is given by its mantissa [m0] and
    exponent [e0] in canonical form; the number to round is [m * 2^e],
    with [e <= e0]. *)

Module Rounding.

Import F64 F64Facts.

Definition canonical (m0 e0 : Z) : Prop :=
  0 < m0 /\ e0 = fexp prec emax (Zdigits2 m0 + e0).

(** The magnitude of a result is at most [m0 * 2^e0]. *)
Inductive at_most (s : bool) (m0 e0 : Z) : float -> Prop :=
| at_most_zero : at_most s m0 e0 (S754_zero s)
| at_most_finite (m : positive) (e : Z) :
    e < e0 \/ (e = e0 /\ Zpos m <= m0) ->
    Zpos m < 2 ^ 53 ->
    at_most s m0 e0 (S754_finite s m e).

(** The magnitude of a result is at least [m0 * 2^e0]. *)
Inductive at_least (s : bool) (m0 e0 : Z) : float -> Prop :=
| at_least_infinity : at_least s m0 e0 (S754_infinity s)
| at_least_finite (m : positive) (e : Z) :
    e0 < e \/ (e = e0 /\ m0 <= Zpos m) ->
    at_least s m0 e0 (S754_finite s m e).

(** The two shifts of [binary_round_aux] on an exact mantissa. *)
Lemma binary_round_aux_steps (s : bool) (m e : Z) :
  0 < m ->
  exists e1 m1 e2 m2 : Z,
    e1 = Z.max e (fexp prec emax (Zdigits2 m + e)) /\
    m / 2 ^ (e1 - e) <= m1 <= m / 2 ^ (e1 - e) + 1 /\
    e2 = Z.max e1 (fexp prec emax (Zdigits2 m1 + e1)) /\
    m2 = m1 / 2 ^ (e2 - e1) /\
    binary_round_aux prec emax s m e loc_Exact =
    match m2 with
    | Z0 => S754_zero s
    | Zpos p => if e2 <=? emax - prec then S754_finite s p e2
                else S754_infinity s
    | Zneg _ => S754_nan
    end.
Proof.
  intro Hm. unfold binary_round_aux.
  destruct (shr_fexp_spec m e loc_Exact ltac:(lia)) as [He1 Hm1].
  destruct (shr_fexp prec emax m e loc_Exact) as [mrs1 e1].
  cbn [fst snd] in He1, Hm1. cbv zeta in He1, Hm1. rewrite <- He1 in Hm1.
  set (m1 := round_nearest_even (shr_m mrs1) (loc_of_shr_record mrs1)).
  assert (Hk : 0 <= e1 - e) by lia.
  assert (Hpow : 0 < 2 ^ (e1 - e)) by (apply Z.pow_pos_nonneg; lia).
  assert (Hq : 0 <= shr_m mrs1) by (rewrite Hm1; apply Z.div_pos; lia).
  assert (Hm1b : shr_m mrs1 <= m1 <= shr_m mrs1 + 1).
  { unfold m1. destruct (loc_of_shr_record mrs1) as [| []]; simpl; try lia.
    destruct (Z.even (shr_m mrs1)); lia. }
  destruct (shr_fexp_spec m1 e1 loc_Exact ltac:(lia)) as [He2 Hm2].
  destruct (shr_fexp prec emax m1 e1 loc_Exact) as [mrs2 e2].
  cbn [fst snd] in He2, Hm2. cbv zeta in He2, Hm2. rewrite <- He2 in Hm2.
  exists e1, m1, e2, (shr_m mrs2).
  rewrite <- Hm1. repeat split; try assumption; lia.
Qed.

Lemma canonical_bounds (m0 e0 : Z) :
  canonical m0 e0 ->
  0 < m0 < 2 ^ 53 /\ -1074 <= e0 /\ Z.log2 m0 <= 52 /\
  (-1074 < e0 -> 2 ^ 52 <= m0).
Proof.
  intros [Hm0 Hc]. rewrite fexp_eq, Zdigits2_log2 in Hc by lia.
  assert (Hlog : Z.log2 m0 <= 52) by lia.
  repeat split; try lia.
  - apply Z.log2_lt_pow2; lia.
  - intro He. apply Z.log2_le_pow2; lia.
Qed.

Lemma binary_round_aux_upper (s : bool) (m e m0 e0 : Z) :
  0 < m -> canonical m0 e0 -> e0 <= emax - prec -> e <= e0 ->
  m < m0 * 2 ^ (e0 - e) ->
  at_most s m0 e0 (binary_round_aux prec emax s m e loc_Exact).
Proof.
  intros Hm Hcan He0 Hee Hlt.
  destruct (canonical_bounds m0 e0 Hcan) as (Hm0 & He0low & Hlog0 & Hnormal).
  destruct Hcan as [_ Hc]. rewrite fexp_eq, Zdigits2_log2 in Hc by lia.
  destruct (binary_round_aux_steps s m e Hm)
    as (e1 & m1 & e2 & m2 & He1 & Hm1 & He2 & Hm2 & ->).
  rewrite fexp_eq, Zdigits2_log2 in He1 by lia.
  assert (Hlog : Z.log2 m <= Z.log2 m0 + (e0 - e)).
  { replace (Z.log2 m0 + (e0 - e)) with ((e0 - e) + Z.log2 m0) by lia.
    rewrite <- Z.log2_mul_pow2 by lia. apply Z.log2_le_mono. lia. }
  assert (He1le : e1 <= e0) by lia.
  assert (He1ge : -1074 <= e1) by lia.
  remember (e1 - e) as k eqn:Hk.
  assert (Hk0 : 0 <= k) by lia.
  assert (Hpow : 0 < 2 ^ k) by (apply Z.pow_pos_nonneg; lia).
  remember (m / 2 ^ k) as q eqn:Hq.
  assert (Hq0 : 0 <= q) by (subst q; apply Z.div_pos; lia).
  assert (Hqlt : q < m0 * 2 ^ (e0 - e1)).
  { subst q. apply Z.div_lt_upper_bound; [lia |].
    replace (2 ^ k * (m0 * 2 ^ (e0 - e1))) with (m0 * 2 ^ (e0 - e)); [lia |].
    replace (e0 - e) with (k + (e0 - e1)) by lia.
    rewrite Z.pow_add_r by lia. lia. }
  assert (Hq53 : q < 2 ^ 53).
  { destruct (Z.eq_dec q 0) as [Hz | Hnz]; [rewrite Hz; reflexivity |].
    apply Z.log2_lt_pow2; [lia |].
    subst q. rewrite log2_div_pow2 by lia. lia. }
  assert (Hm1b : 0 <= m1 <= 2 ^ 53) by lia.
  destruct (Z.eq_dec m1 0) as [Hz1 | Hnz1].
  { (* the mantissa vanished *)
    subst m1. rewrite Hm2. rewrite Z.div_0_l; [constructor |].
    apply Z.pow_nonzero; lia. }
  rewrite fexp_eq, Zdigits2_log2 in He2 by lia.
  assert (Hl1 : Z.log2 m1 <= 53).
  { change 53 with (Z.log2 (2 ^ 53)). apply Z.log2_le_mono. lia. }
  destruct (Z.eq_dec e1 e0) as [Heq | Hne].
  - (* the first shift reaches the exponent of the bound *)
    assert (Hm1le : m1 <= m0).
    { rewrite Heq, Z.sub_diag in Hqlt. change (2 ^ 0) with 1 in Hqlt. lia. }
    assert (Z.log2 m1 <= Z.log2 m0) by (apply Z.log2_le_mono; assumption).
    assert (He2eq : e2 = e0) by lia.
    rewrite He2eq in *. rewrite Heq, Z.sub_diag in Hm2.
    change (2 ^ 0) with 1 in Hm2. rewrite Z.div_1_r in Hm2. subst m2.
    destruct m1 as [| p | p]; try lia.
    replace (e0 <=? emax - prec) with true by (symmetry; apply Z.leb_le; lia).
    constructor; [right; split; [reflexivity | assumption] | lia].
  - destruct (Z.eq_dec m1 (2 ^ 53)) as [Hcarry | Hnocarry].
    + (* rounding carried into the next binade *)
      assert (He2eq : e2 = e1 + 1).
      { rewrite Hcarry in He2. change (Z.log2 (2 ^ 53)) with 53 in He2. lia. }
      rewrite He2eq in *.
      replace (e1 + 1 - e1) with 1 in Hm2 by lia.
      rewrite Hcarry in Hm2. change (2 ^ 53 / 2 ^ 1) with (2 ^ 52) in Hm2.
      subst m2. change (2 ^ 52) with (Zpos 4503599627370496).
      replace (e1 + 1 <=? emax - prec) with true
        by (symmetry; apply Z.leb_le; lia).
      constructor; [| reflexivity].
      destruct (Z.eq_dec (e1 + 1) e0) as [Heq2 | Hne2]; [right | left; lia].
      split; [assumption |].
      change (Zpos 4503599627370496) with (2 ^ 52). apply Hnormal. lia.
    + assert (Hm1lt : m1 < 2 ^ 53) by lia.
      assert (Hl1' : Z.log2 m1 <= 52).
      { apply Z.log2_lt_pow2 in Hm1lt; lia. }
      assert (He2eq : e2 = e1) by lia.
      rewrite He2eq in *. rewrite Z.sub_diag in Hm2.
      change (2 ^ 0) with 1 in Hm2. rewrite Z.div_1_r in Hm2. subst m2.
      destruct m1 as [| p | p]; try lia.
      replace (e1 <=? emax - prec) with true
        by (symmetry; apply Z.leb_le; lia).
      constructor; [left; lia | assumption].
Qed.

Lemma binary_round_aux_lower (s : bool) (m e m0 e0 : Z) :
  canonical m0 e0 -> e <= e0 ->
  m0 * 2 ^ (e0 - e) <= m ->
  at_least s m0 e0 (binary_round_aux prec emax s m e loc_Exact).
Proof.
  intros Hcan Hee Hge.
  destruct (canonical_bounds m0 e0 Hcan) as (Hm0 & He0low & Hlog0 & Hnormal).
  destruct Hcan as [_ Hc]. rewrite fexp_eq, Zdigits2_log2 in Hc by lia.
  assert (Hpow0 : 0 < 2 ^ (e0 - e)) by (apply Z.pow_pos_nonneg; lia).
  assert (Hm : 0 < m) by nia.
  destruct (binary_round_aux_steps s m e Hm)
    as (e1 & m1 & e2 & m2 & He1 & Hm1 & He2 & Hm2 & ->).
  rewrite fexp_eq, Zdigits2_log2 in He1 by lia.
  assert (Hlog : Z.log2 m0 + (e0 - e) <= Z.log2 m).
  { replace (Z.log2 m0 + (e0 - e)) with ((e0 - e) + Z.log2 m0) by lia.
    rewrite <- Z.log2_mul_pow2 by lia. apply Z.log2_le_mono. lia. }
  assert (He1ge : e0 <= e1) by lia.
  remember (e1 - e) as k eqn:Hk.
  assert (Hk0 : 0 <= k) by lia.
  assert (Hpow : 0 < 2 ^ k) by (apply Z.pow_pos_nonneg; lia).
  remember (m / 2 ^ k) as q eqn:Hq.
  (* the mantissa after the first shift is positive, and at least [m0]
     when the exponent is that of the bound *)
  assert (Hqpos : 0 < q /\ (e1 = e0 -> m0 <= q)).
  { destruct (Z.eq_dec e1 e0) as [Heq | Hne].
    - assert (m0 <= q); [| lia].
      subst q. apply Z.div_le_lower_bound; [lia |].
      replace k with (e0 - e) by lia. lia.
    - assert (Hshift : e1 = Z.log2 m + 1 + e - 53) by lia.
      assert (Z.log2 q = 52).
      { subst q. rewrite log2_div_pow2 by lia. lia. }
      split; [| lia].
      destruct (Z.le_gt_cases q 0) as [Hle | Hgt]; [| assumption].
      rewrite (Z.log2_nonpos q Hle) in H. lia. }
  destruct Hqpos as [Hq0 Hqm0].
  assert (Hm1pos : 0 < m1) by lia.
  rewrite fexp_eq, Zdigits2_log2 in He2 by lia.
  assert (He2ge : e1 <= e2) by lia.
  assert (Hpow2 : 0 < 2 ^ (e2 - e1)) by (apply Z.pow_pos_nonneg; lia).
  assert (Hm2pos : 0 < m2 /\ (e2 = e1 -> m2 = m1)).
  { destruct (Z.eq_dec e2 e1) as [Heq | Hne].
    - rewrite Heq, Z.sub_diag in Hm2. change (2 ^ 0) with 1 in Hm2.
      rewrite Z.div_1_r in Hm2. lia.
    - assert (Hshift : e2 = Z.log2 m1 + 1 + e1 - 53) by lia.
      assert (Z.log2 m2 = 52).
      { subst m2. rewrite log2_div_pow2 by lia. lia. }
      split; [| lia].
      destruct (Z.le_gt_cases m2 0) as [Hle | Hgt]; [| assumption].
      rewrite (Z.log2_nonpos m2 Hle) in H. lia. }
  destruct Hm2pos as [Hm2pos Hm2eq].
  destruct m2 as [| p | p]; try lia.
  destruct (e2 <=? emax - prec); [| constructor].
  constructor.
  destruct (Z.eq_dec e2 e0) as [Heq | Hne]; [right | left; lia].
  split; [assumption |].
  assert (e1 = e0) by lia. assert (e2 = e1) by lia.
  rewrite (Hm2eq H0). specialize (Hqm0 H). lia.
Qed.

(** *** Alignment of mantissas *)

Lemma shl_align_spec (mx : positive) (ex ex' : Z) :
  snd (shl_align mx ex ex') = Z.min ex ex' /\
  Zpos (fst (shl_align mx ex ex')) = Zpos mx * 2 ^ (ex - Z.min ex ex').
Proof.
  unfold shl_align. destruct (ex' - ex) as [| d | d] eqn:Hd; cbn [fst snd].
  - replace (Z.min ex ex') with ex by lia. rewrite Z.sub_diag. lia.
  - replace (Z.min ex ex') with ex by lia. rewrite Z.sub_diag. lia.
  - replace (Z.min ex ex') with ex' by lia.
    change (Pos.iter xO mx d) with (shift_pos d mx).
    rewrite shift_pos_correct.
    replace (ex - ex') with (Zpos d) by lia.
    change (Z.pow_pos 2 d) with (2 ^ Zpos d). lia.
Qed.

Lemma binary_round_upper (s : bool) (p : positive) (e m0 e0 : Z) :
  canonical m0 e0 -> e0 <= emax - prec -> e <= e0 ->
  Zpos p < m0 * 2 ^ (e0 - e) ->
  at_most s m0 e0 (binary_round prec emax s p e).
Proof.
  intros Hcan He0 Hee Hlt. unfold binary_round.
  destruct (shl_align_spec p e (fexp prec emax (Zpos (digits2_pos p) + e)))
    as [Hez Hmz].
  destruct (shl_align p e _) as [mz ez]. cbn [fst snd] in Hez, Hmz.
  rewrite <- Hez in Hmz.
  assert (Hle : ez <= e) by lia.
  apply binary_round_aux_upper; try assumption; try lia.
  rewrite Hmz.
  replace (e0 - ez) with ((e0 - e) + (e - ez)) by lia.
  rewrite Z.pow_add_r by lia.
  assert (0 < 2 ^ (e - ez)) by (apply Z.pow_pos_nonneg; lia).
  nia.
Qed.

Lemma binary_round_lower (s : bool) (p : positive) (e m0 e0 : Z) :
  canonical m0 e0 -> e <= e0 ->
  m0 * 2 ^ (e0 - e) <= Zpos p ->
  at_least s m0 e0 (binary_round prec emax s p e).
Proof.
  intros Hcan Hee Hge. unfold binary_round.
  destruct (shl_align_spec p e (fexp prec emax (Zpos (digits2_pos p) + e)))
    as [Hez Hmz].
  destruct (shl_align p e _) as [mz ez]. cbn [fst snd] in Hez, Hmz.
  rewrite <- Hez in Hmz.
  assert (Hle : ez <= e) by lia.
  apply binary_round_aux_lower; try assumption; try lia.
  rewrite Hmz.
  replace (e0 - ez) with ((e0 - e) + (e - ez)) by lia.
  rewrite Z.pow_add_r by lia.
  assert (0 < 2 ^ (e - ez)) by (apply Z.pow_pos_nonneg; lia).
  nia.
Qed.

(** *** What the bounds say in the order of numbers *)

Lemma at_most_leb (m : positive) (e : Z) (x : float) :
  at_most false (Zpos m) e x ->
  geb x zero = true /\ leb x (S754_finite false m e) = true.
Proof.
  intro H. inversion H as [| m' e' Hlex Hbits]; subst.
  - split; reflexivity.
  - split; [reflexivity |].
    apply Order.leb_spec. split; [reflexivity |]. split; [reflexivity |].
    unfold Order.below, Order.key. lia.
Qed.

Lemma at_least_geb (m : positive) (e : Z) (x : float) :
  at_least false (Zpos m) e x -> geb x (S754_finite false m e) = true.
Proof.
  intro H. inversion H as [| m' e' Hlex]; subst.
  - reflexivity.
  - apply Order.geb_spec. split; [reflexivity |]. split; [reflexivity |].
    unfold Order.below, Order.key. lia.
Qed.

End Rounding.

(** ** The mean anomaly handed to the solver *)

Module MeanAnomaly.

Import F64 Rounding.

Definition m360 : positive := 6333186975989760.
Definition e360 : Z := -44.

Lemma num_360 : num 360 = S754_finite false m360 e360.
Proof. vm_compute. reflexivity. Qed.

Lemma canonical_360 : canonical (Zpos m360) e360.
Proof. split; [reflexivity | vm_compute; reflexivity]. Qed.

(** The remainder of a division by 360 has the sign of the dividend and
    a magnitude of at most 360. *)
Lemma rem_360 (x : float) :
  F64.rem x (num 360) = S754_nan \/
  exists s, at_most s (Zpos m360) e360 (F64.rem x (num 360)).
Proof.
  rewrite num_360.
  destruct x as [sx | sx | | sx mx ex]; cbn [F64.rem]; auto.
  - right. exists sx. constructor.
  - right. exists sx.
    destruct (shl_align_spec mx ex (Z.min ex e360)) as [_ HX].
    destruct (shl_align_spec m360 e360 (Z.min ex e360)) as [_ HY].
    replace (Z.min ex (Z.min ex e360)) with (Z.min ex e360) in HX by lia.
    replace (Z.min e360 (Z.min ex e360)) with (Z.min ex e360) in HY by lia.
    set (ez := Z.min ex e360) in *.
    set (X := Zpos (fst (shl_align mx ex ez))) in *.
    set (Y := Zpos (fst (shl_align m360 e360 ez))) in *.
    assert (Hr : 0 <= Z.rem X Y < Y) by (apply Z.rem_bound_pos; lia).
    destruct (Z.rem X Y) as [| p | p] eqn:Hrem; try lia.
    + destruct sx; constructor.
    + assert (Hround : at_most sx (Zpos m360) e360
                         (binary_round prec emax sx p ez)).
      { apply binary_round_upper.
        - exact canonical_360.
        - vm_compute. discriminate.
        - unfold ez. lia.
        - rewrite <- HY. lia. }
      destruct sx; exact Hround.
Qed.

(** Adding 360 to a negative number of magnitude at most 360. *)
Lemma add_360 (m : positive) (e : Z) :
  at_most true (Zpos m360) e360 (S754_finite true m e) ->
  at_most false (Zpos m360) e360 (add (S754_finite true m e) (num 360)).
Proof.
  intro H. inversion H as [| m' e' Hlex Hbits]; subst.
  rewrite num_360. cbn [add SFadd].
  assert (He : e <= e360) by lia.
  replace (Z.min e e360) with e by lia.
  destruct (shl_align_spec m e e) as [_ HX].
  destruct (shl_align_spec m360 e360 e) as [_ HY].
  replace (Z.min e e) with e in HX by lia.
  replace (Z.min e360 e) with e in HY by lia.
  rewrite Z.sub_diag in HX. change (2 ^ 0) with 1 in HX.
  cbn [cond_Zopp].
  set (X := fst (shl_align m e e)) in *.
  set (Y := fst (shl_align m360 e360 e)) in *.
  change (Z.opp (Zpos X)) with (- Zpos X).
  assert (Hpow : 0 < 2 ^ (e360 - e)) by (apply Z.pow_pos_nonneg; lia).
  assert (HXY : Zpos X <= Zpos Y).
  { rewrite HX, HY. destruct Hlex as [Hlt | [Heq Hle]].
    - assert (2 <= 2 ^ (e360 - e)).
      { change 2 with (2 ^ 1) at 1. apply Z.pow_le_mono_r; lia. }
      assert (2 ^ 52 <= Zpos m360) by (vm_compute; discriminate).
      change (2 ^ 53) with (2 * 2 ^ 52) in Hbits. nia.
    - rewrite Heq, Z.sub_diag. change (2 ^ 0) with 1. lia. }
  destruct (- Zpos X + Zpos Y) as [| p | p] eqn:Hsum; try lia.
  - constructor.
  - cbn [binary_normalize]. apply binary_round_upper.
    + exact canonical_360.
    + vm_compute. discriminate.
    + assumption.
    + rewrite <- HY. lia.
Qed.

Lemma current_mean_anomaly_range (M0 n daysSinceEpoch : float) :
  isFinite (current_mean_anomaly M0 n daysSinceEpoch) = true ->
  geb (current_mean_anomaly M0 n daysSinceEpoch) zero = true /\
  leb (current_mean_anomaly M0 n daysSinceEpoch) (num 360) = true.
Proof.
  unfold current_mean_anomaly.
  destruct (rem_360 (add M0 (mul n daysSinceEpoch))) as [Hnan | [s Hmost]].
  - rewrite Hnan. cbn. discriminate.
  - remember (F64.rem (add M0 (mul n daysSinceEpoch)) (num 360)) as M eqn:HM.
    clear HM. intro Hfinite.
    rewrite num_360 in *.
    inversion Hmost as [| m e Hlex Hbits]; subst.
    + destruct s; split; reflexivity.
    + destruct s.
      * change (ltb (S754_finite true m e) zero) with true in *.
        cbv iota in *. apply at_most_leb.
        rewrite <- num_360. apply add_360. assumption.
      * change (ltb (S754_finite false m e) zero) with false in *.
        cbv iota in *. apply at_most_leb. assumption.
Qed.

End MeanAnomaly.

(** X14.  The mean anomaly that [calculatePosition] hands to
    [solveKeplerEquation] is never negative and never above 360: every
    finite value of [(M0 + n * daysSinceEpoch) % 360], with 360 added when
    it is negative, is at least 0 and at most 360, and so is the solver's
    argument whenever [calculatePosition] returns. *)
Theorem solver_argument_between_0_and_360 :
  (forall M0 n daysSinceEpoch : float,
     F64.isFinite (current_mean_anomaly M0 n daysSinceEpoch) = true ->
     F64.geb (current_mean_anomaly M0 n daysSinceEpoch) F64.zero = true /\
     F64.leb (current_mean_anomaly M0 n daysSinceEpoch) (num 360) = true) /\
  (forall (math : MathLib) (elements : OrbitalElements) (julianDate : float)
          (p : CartesianPosition),
     calculatePosition math elements julianDate = Ok p ->
     F64.geb (solver_argument elements julianDate) F64.zero = true /\
     F64.leb (solver_argument elements julianDate) (num 360) = true).
Proof.
  split; [exact MeanAnomaly.current_mean_anomaly_range |].
  intros math elements julianDate p H.
  apply MeanAnomaly.current_mean_anomaly_range.
  unfold calculatePosition in H. cbv zeta in H.
  do 13 (apply bind_Ok in H; destruct H as ([] & _ & H)).
  apply bind_Ok in H; destruct H as ([] & HM & _).
  apply assertFinite_Ok in HM. exact HM.
Qed.

Lemma solver_argument_between_0_and_360_witness :
  F64.geb (solver_argument elements_tiny_negative_anomaly (num 2460000))
          F64.zero = true /\
  F64.leb (solver_argument elements_tiny_negative_anomaly (num 2460000))
          (num 360) = true.
Proof.
  apply (proj2 solver_argument_between_0_and_360 ReferenceMath.lib
           elements_tiny_negative_anomaly (num 2460000)
           (value_or {| x := F64.zero; y := F64.zero; z := F64.zero |}
              (calculatePosition ReferenceMath.lib
                 elements_tiny_negative_anomaly (num 2460000)))).
  vm_compute. reflexivity.
Defined.



(** ** The direction of time *)

Module Direction.

Import F64 Rounding.

(** A number that is zero, or finite with the sign [s]. *)
Definition zero_or_signed (s : bool) (x : float) : Prop :=
  match x with
  | S754_zero _ => True
  | S754_finite s' _ _ => s' = s
  | _ => False
  end.

(** A number that is zero, or has the sign [s]; it may be infinite. *)
Definition leaning (s : bool) (x : float) : Prop :=
  match x with
  | S754_zero _ => True
  | S754_finite s' _ _ | S754_infinity s' => s' = s
  | S754_nan => False
  end.

Lemma rounded_sign (s : bool) (m e : Z) (l : location) :
  isFinite (binary_round_aux prec emax s m e l) = true ->
  zero_or_signed s (binary_round_aux prec emax s m e l).
Proof.
  unfold binary_round_aux.
  destruct (shr_fexp prec emax m e l) as [mrs e1].
  destruct (shr_fexp prec emax _ e1 loc_Exact) as [mrs2 e2].
  destruct (shr_m mrs2); try (intros; exact I); try discriminate.
  destruct (e2 <=? emax - prec); [reflexivity | discriminate].
Qed.

Lemma geb_zero_leaning (x : float) : geb x zero = true -> leaning false x.
Proof. destruct x as [[] | [] | | [] m e]; try discriminate; reflexivity. Qed.

Lemma leb_zero_leaning (x : float) : leb x zero = true -> leaning true x.
Proof. destruct x as [[] | [] | | [] m e]; try discriminate; reflexivity. Qed.

Lemma num_86400 : num 86400 = S754_finite false 5937362789990400 (-36).
Proof. vm_compute. reflexivity. Qed.

(** The sign of [(deltaSeconds * timeScale) / 86400] for an elapsed time
    that is not negative. *)
Lemma deltaDays_sign (s : bool) (deltaSeconds timeScale : float) :
  zero_or_signed false deltaSeconds -> leaning s timeScale ->
  isFinite (div (mul deltaSeconds timeScale) (num 86400)) = true ->
  zero_or_signed s (div (mul deltaSeconds timeScale) (num 86400)).
Proof.
  rewrite num_86400.
  destruct deltaSeconds as [sd | sd | | sd md ed]; try contradiction;
    destruct timeScale as [st | st | | st mt et]; try contradiction;
    cbn [mul SFmul div SFdiv zero_or_signed leaning]; intros Hd Ht;
    try (intros; exact I); try discriminate.
  subst sd st. cbn [xorb].
  intro Hfinite.
  destruct (binary_round_aux prec emax s (Z.pos (md * mt)) (ed + et) loc_Exact)
    as [sp | sp | | sp mp ep] eqn:Hprod; cbn [div SFdiv] in *;
    try exact I; try discriminate.
  assert (Hsp : sp = s).
  { pose proof (rounded_sign s (Z.pos (md * mt)) (ed + et) loc_Exact) as Hs.
    rewrite Hprod in Hs. exact (Hs eq_refl). }
  subst sp. rewrite xorb_false_r in *.
  destruct (SFdiv_core_binary prec emax (Z.pos mp) ep 5937362789990400 (-36))
    as [[mz ez] lz].
  apply rounded_sign. assumption.
Qed.

Lemma valid_canonical (s : bool) (m : positive) (e : Z) :
  valid_binary prec emax (S754_finite s m e) = true ->
  canonical (Zpos m) e /\ e <= emax - prec.
Proof.
  unfold valid_binary, bounded, canonical_mantissa. intro H.
  apply andb_prop in H. destruct H as [Hc He].
  apply Z.eqb_eq in Hc. apply Z.leb_le in He.
  split; [| assumption]. split; [lia |]. symmetry. exact Hc.
Qed.

(** Adding a number that is not negative to a positive representable
    number gives at least that number. *)
Lemma add_forward (m : positive) (e : Z) (d : float) :
  valid_binary prec emax (S754_finite false m e) = true ->
  zero_or_signed false d ->
  geb (add (S754_finite false m e) d) (S754_finite false m e) = true.
Proof.
  intros Hvalid Hd. destruct (valid_canonical _ _ _ Hvalid) as [Hcan He].
  destruct d as [sd | sd | | sd md ed]; try contradiction.
  - cbn [add SFadd]. apply Order.geb_spec.
    split; [reflexivity |]. split; [reflexivity |].
    unfold Order.below, Order.key. lia.
  - cbn [zero_or_signed] in Hd. subst sd. cbn [add SFadd cond_Zopp].
    destruct (shl_align_spec m e (Z.min e ed)) as [_ HX].
    destruct (shl_align_spec md ed (Z.min e ed)) as [_ HD].
    replace (Z.min e (Z.min e ed)) with (Z.min e ed) in HX by lia.
    set (ez := Z.min e ed) in *.
    set (X := fst (shl_align m e ez)) in *.
    set (D := fst (shl_align md ed ez)) in *.
    change (Zpos X + Zpos D) with (Zpos (X + D)). cbn [binary_normalize].
    apply at_least_geb. apply binary_round_lower.
    + assumption.
    + unfold ez. lia.
    + rewrite <- HX. lia.
Qed.

Lemma binary_round_sign (s : bool) (p : positive) (e : Z) :
  isFinite (binary_round prec emax s p e) = true ->
  zero_or_signed s (binary_round prec emax s p e).
Proof.
  unfold binary_round. destruct (shl_align p e _) as [mz ez].
  apply rounded_sign.
Qed.

(** Adding a number that is not positive to a positive representable
    number gives at most that number. *)
Lemma add_backward (m : positive) (e : Z) (d : float) :
  valid_binary prec emax (S754_finite false m e) = true ->
  zero_or_signed true d ->
  isFinite (add (S754_finite false m e) d) = true ->
  leb (add (S754_finite false m e) d) (S754_finite false m e) = true.
Proof.
  intros Hvalid Hd. destruct (valid_canonical _ _ _ Hvalid) as [Hcan He].
  destruct d as [sd | sd | | sd md ed]; try contradiction.
  - intros _. cbn [add SFadd]. apply Order.leb_spec.
    split; [reflexivity |]. split; [reflexivity |].
    unfold Order.below, Order.key. lia.
  - cbn [zero_or_signed] in Hd. subst sd. cbn [add SFadd cond_Zopp].
    destruct (shl_align_spec m e (Z.min e ed)) as [_ HX].
    replace (Z.min e (Z.min e ed)) with (Z.min e ed) in HX by lia.
    set (ez := Z.min e ed) in *.
    set (X := fst (shl_align m e ez)) in *.
    set (D := fst (shl_align md ed ez)) in *.
    change (Z.opp (Zpos D)) with (Zneg D).
    destruct (Zpos X + Zneg D) as [| p | p] eqn:Hsum; cbn [binary_normalize].
    + reflexivity.
    + intros _. apply at_most_leb. apply binary_round_upper.
      * assumption.
      * assumption.
      * unfold ez. lia.
      * rewrite <- HX. lia.
    + intro Hfinite. apply binary_round_sign in Hfinite.
      destruct (binary_round prec emax true p ez) as [sr | sr | | sr mr er];
        try contradiction; [reflexivity |].
      cbn [zero_or_signed] in Hfinite. subst sr. reflexivity.
Qed.

End Direction.

(** X15.  [update] moves the simulated time in the direction of the time
    scale.  On a controller whose Julian date is a binary64 number inside
    the band, an [update] that returns leaves a Julian date that is at
    least the previous one when the time scale is not negative, and at most
    the previous one when the time scale is not positive: rounding never
    makes time run the other way. *)
Theorem update_follows_the_time_scale
  (this this' : TimeController.t) (deltaSeconds : float) (u : unit) :
  valid_binary F64.prec F64.emax (TimeController.julianDate this) = true ->
  TimeController.in_band (TimeController.julianDate this) = true ->
  TimeController.update deltaSeconds this = Returns u this' ->
  (F64.geb (TimeController.timeScale this) F64.zero = true ->
   F64.geb (TimeController.julianDate this') (TimeController.julianDate this)
   = true) /\
  (F64.leb (TimeController.timeScale this) F64.zero = true ->
   F64.leb (TimeController.julianDate this') (TimeController.julianDate this)
   = true).
Proof.
  intros Hvalid Hband H.
  assert (Hpositive : exists m e,
            TimeController.julianDate this = S754_finite false m e).
  { unfold TimeController.in_band in Hband. apply andb_prop in Hband.
    destruct Hband as [Hlow Hhigh]. revert Hlow Hhigh.
    destruct (TimeController.julianDate this) as [[] | [] | | [] m e];
      intros Hlow Hhigh; try discriminate Hlow; try discriminate Hhigh.
    eauto. }
  destruct Hpositive as (m & e & Hjd).
  unfold TimeController.update in H.
  apply mbind_Returns in H. destruct H as (this0 & s0 & Hg & H).
  injection Hg as <- <-.
  destruct (TimeController.isPaused this).
  - injection H as _ <-. rewrite Hjd.
    split; intros _; [apply Order.geb_spec | apply Order.leb_spec];
      (split; [reflexivity |]); (split; [reflexivity |]);
      unfold Order.below, Order.key; lia.
  - invert_calls. TimeControllerInvariants.invert_setters.
    match goal with
    | Hn : TimeController.notifyListeners _ = Returns _ _ |- _ =>
        apply TimeControllerFacts.notifyListeners_Returns in Hn;
        destruct Hn as [-> _]
    end.
    cbn [TimeController.julianDate TimeController.timeScale
         TimeController.accumulatedTime TimeController.isPaused] in *.
    repeat match goal with
    | Hf : assertFinite _ _ = Ok _ |- _ => apply assertFinite_Ok in Hf
    | Hf : assertNonNegative _ _ = Ok _ |- _ =>
        apply TimeControllerInvariants.assertNonNegative_Ok in Hf;
        destruct Hf as [_ Hf]
    end.
    assert (Hds : Direction.zero_or_signed false deltaSeconds).
    { match goal with
      | Hf : F64.isFinite deltaSeconds = true,
        Hp : F64.geb deltaSeconds F64.zero = true |- _ =>
          clear - Hf Hp;
          destruct deltaSeconds as [[] | [] | | [] md ed];
          try discriminate Hf; try discriminate Hp; reflexivity
      end. }
    rewrite Hjd in *.
    split; intro Hscale.
    + apply Direction.add_forward; [assumption |].
      apply Direction.deltaDays_sign;
        [assumption | apply Direction.geb_zero_leaning | ]; assumption.
    + apply Direction.add_backward; [assumption | | assumption].
      apply Direction.deltaDays_sign;
        [assumption | apply Direction.leb_zero_leaning | ]; assumption.
Qed.

Definition reversed_j2000_controller : TimeController.t :=
  {| TimeController.julianDate := J2000_JD;
     TimeController.timeScale := num (-1);
     TimeController.isPaused := false;
     TimeController.accumulatedTime := num 0 |}.

Lemma update_follows_the_time_scale_witness :
  F64.leb (TimeController.julianDate
             (state_after (TimeController.update (num 3600)
                             reversed_j2000_controller)))
          J2000_JD = true.
Proof.
  apply (proj2 (update_follows_the_time_scale reversed_j2000_controller
                  (state_after (TimeController.update (num 3600)
                                  reversed_j2000_controller))
                  (num 3600) tt
                  ltac:(vm_compute; reflexivity)
                  ltac:(vm_compute; reflexivity)
                  ltac:(vm_compute; reflexivity))).
  vm_compute. reflexivity.
Defined.

(** ** The controllers a program holds *)

Module HeldControllers.

Import F64 TimeController TimeControllerInvariants Rounding Direction.

(** *** Rounding never gives NaN *)

Lemma binary_round_aux_leaning (s : bool) (m e : Z) :
  0 < m -> leaning s (binary_round_aux prec emax s m e loc_Exact).
Proof.
  intro Hm.
  destruct (binary_round_aux_steps s m e Hm)
    as (e1 & m1 & e2 & m2 & He1 & Hm1 & He2 & Hm2 & ->).
  assert (0 <= m / 2 ^ (e1 - e)).
  { apply Z.div_pos; [lia |]. apply Z.pow_pos_nonneg; lia. }
  assert (0 <= m2).
  { subst m2. apply Z.div_pos; [lia |]. apply Z.pow_pos_nonneg; lia. }
  destruct m2 as [| p | p]; try lia; [exact I |].
  destruct (e2 <=? emax - prec); reflexivity.
Qed.

Lemma binary_round_leaning (s : bool) (p : positive) (e : Z) :
  leaning s (binary_round prec emax s p e).
Proof.
  unfold binary_round. destruct (shl_align p e _) as [mz ez].
  apply binary_round_aux_leaning. lia.
Qed.

Lemma leaning_geb (x : float) : leaning false x -> geb x zero = true.
Proof. destruct x as [[] | [] | | [] m e]; try contradiction; try discriminate; reflexivity. Qed.

Lemma leaning_not_nan (s : bool) (x : float) : leaning s x -> isNaN x = false.
Proof. destruct x; try contradiction; reflexivity. Qed.

(** The sum of two numbers that are not negative is not negative. *)
Lemma add_leaning (a b : float) :
  leaning false a -> leaning false b -> leaning false (add a b).
Proof.
  destruct a as [sa | sa | | sa ma ea], b as [sb | sb | | sb mb eb];
    cbn [leaning]; try contradiction; intros Ha Hb; subst;
    try (destruct sa); try (destruct sb); try exact I; try reflexivity.
  cbn [add SFadd cond_Zopp].
  destruct (Zpos (fst (shl_align ma ea (Z.min ea eb))) +
            Zpos (fst (shl_align mb eb (Z.min ea eb)))) as [| p | p] eqn:Hsum;
    try lia.
  cbn [binary_normalize]. apply binary_round_leaning.
Qed.

(** A finite number added to a number is a number. *)
Lemma add_finite_not_nan (a b : float) :
  isNaN a = false -> isFinite b = true -> isNaN (add a b) = false.
Proof.
  destruct a as [sa | sa | | sa ma ea], b as [sb | sb | | sb mb eb];
    try discriminate; intros _ _;
    try (destruct sa, sb; reflexivity); try reflexivity.
  cbn [add SFadd].
  destruct (cond_Zopp sa _ + cond_Zopp sb _) as [| p | p]; cbn [binary_normalize].
  - reflexivity.
  - exact (leaning_not_nan _ _ (binary_round_leaning false p _)).
  - exact (leaning_not_nan _ _ (binary_round_leaning true p _)).
Qed.

(** The product of two numbers that are not negative, one of them finite
    and not zero, is not negative. *)
Lemma mul_1000_leaning (a : float) :
  leaning false a -> leaning false (mul a (num 1000)).
Proof.
  replace (num 1000) with (S754_finite false 8796093022208000 (-43))
    by (vm_compute; reflexivity).
  destruct a as [sa | sa | | sa ma ea]; cbn [leaning]; try contradiction;
    intro Ha; subst; cbn [mul SFmul leaning xorb]; try exact I; try reflexivity.
  apply binary_round_aux_leaning. lia.
Qed.

(** *** The state an operation leaves *)

Lemma state_after_lift_bind {S A B : Type} (r : result A) (k : A -> method S B)
  (s : S) :
  state_after (mbind (lift r) k s) =
  match r with
  | Ok a => state_after (k a s)
  | Throw _ => s
  end.
Proof. rewrite mbind_lift. destruct r; reflexivity. Qed.

Lemma state_after_notify (k : method t unit) (this : t) :
  k = notifyListeners -> state_after (k this) = this.
Proof. intros ->. apply TimeControllerInvariants.state_after_notifyListeners. Qed.

(** After the assignments, the checks that follow leave the fields
    alone. *)
Lemma well_formed_setTimeScale (scale : float) (this : t) :
  well_formed this -> well_formed (state_after (setTimeScale scale this)).
Proof.
  intros (Hjd & Hscale & Hacc). unfold setTimeScale.
  rewrite state_after_lift_bind.
  destruct (assertFinite scale _) as [[] |]; [| repeat split; assumption].
  rewrite state_after_lift_bind.
  destruct (assertBounds _ _ _ _) as [[] |] eqn:Hb; [| repeat split; assumption].
  apply TimeControllerInvariants.assertBounds_Ok in Hb. destruct Hb as (_ & _ & Hb).
  unfold mbind, set_timeScale.
  rewrite TimeControllerInvariants.state_after_notifyListeners.
  repeat split; assumption.
Qed.

Lemma well_formed_set_isPaused (v : bool) (this : t) :
  well_formed this ->
  well_formed (state_after (mbind (set_isPaused v) (fun _ => notifyListeners) this)).
Proof.
  intros (Hjd & Hscale & Hacc). unfold mbind, set_isPaused.
  rewrite TimeControllerInvariants.state_after_notifyListeners.
  repeat split; assumption.
Qed.

Lemma well_formed_set_julianDate (v : float) (this : t) :
  well_formed this -> isNaN v = false ->
  well_formed (state_after (mbind (set_julianDate v) (fun _ => notifyListeners) this)).
Proof.
  intros (Hjd & Hscale & Hacc) Hv. unfold mbind, set_julianDate.
  rewrite TimeControllerInvariants.state_after_notifyListeners.
  repeat split; assumption.
Qed.

Lemma finite_not_nan (v : float) : isFinite v = true -> isNaN v = false.
Proof. destruct v; try discriminate; reflexivity. Qed.

Lemma dateToJulian_not_nan (date : Date) (jd : float) :
  dateToJulian date = Ok jd -> isNaN jd = false.
Proof.
  unfold dateToJulian. destruct date as [time |]; [| discriminate].
  cbv zeta. intro H. apply bind_Ok in H. destruct H as ([] & Hf & H).
  apply Ok_value in H. subst jd.
  apply finite_not_nan. exact (assertFinite_Ok _ _ _ Hf).
Qed.

Lemma in_band_not_nan (v : float) : in_band v = true -> isNaN v = false.
Proof. destruct v; try discriminate; reflexivity. Qed.

Lemma well_formed_update (deltaSeconds : float) (this : t) :
  well_formed this -> well_formed (state_after (update deltaSeconds this)).
Proof.
  intros (Hjd & Hscale & Hacc). unfold update.
  unfold mbind at 1. unfold get.
  destruct (isPaused this); [repeat split; assumption |].
  rewrite state_after_lift_bind.
  destruct (assertFinite deltaSeconds _) as [[] |]; [| repeat split; assumption].
  rewrite state_after_lift_bind.
  destruct (assertNonNegative deltaSeconds _) as [[] |] eqn:Hd;
    [| repeat split; assumption].
  apply TimeControllerInvariants.assertNonNegative_Ok in Hd.
  destruct Hd as [_ Hd].
  rewrite state_after_lift_bind.
  destruct (assertFinite (div (mul deltaSeconds (timeScale this)) (num 86400)) _)
    as [[] |] eqn:Hdays; [| repeat split; assumption].
  apply assertFinite_Ok in Hdays.
  unfold mbind at 1. unfold set_julianDate at 1.
  unfold mbind at 1. unfold set_accumulatedTime at 1.
  unfold mbind at 1. unfold get.
  cbn [julianDate timeScale isPaused accumulatedTime].
  assert (Hwf : well_formed
            {| julianDate := add (julianDate this)
                               (div (mul deltaSeconds (timeScale this)) (num 86400));
               timeScale := timeScale this;
               isPaused := false;
               accumulatedTime := add (accumulatedTime this)
                                      (mul deltaSeconds (num 1000)) |}).
  { split; [| split]; cbn [julianDate timeScale accumulatedTime].
    - apply add_finite_not_nan; assumption.
    - assumption.
    - apply leaning_geb. apply add_leaning.
      + apply geb_zero_leaning. assumption.
      + apply mul_1000_leaning. apply geb_zero_leaning. assumption. }
  rewrite state_after_lift_bind.
  destruct (assertFinite _ _) as [[] |]; [| exact Hwf].
  rewrite state_after_lift_bind.
  destruct (invariant _ _) as [[] |]; [| exact Hwf].
  rewrite state_after_lift_bind.
  destruct (assertNonNegative _ _) as [[] |]; [| exact Hwf].
  rewrite TimeControllerInvariants.state_after_notifyListeners. exact Hwf.
Qed.

Lemma well_formed_operation (o : operation) (this : t) :
  well_formed this -> well_formed (state_after (run o this)).
Proof.
  intro Hwf. destruct o; cbn [run].
  - apply well_formed_update. assumption.
  - apply well_formed_setTimeScale. assumption.
  - apply well_formed_set_isPaused. assumption.
  - apply well_formed_set_isPaused. assumption.
  - unfold togglePause. unfold mbind at 1. unfold get.
    apply well_formed_set_isPaused. assumption.
  - unfold reverse. unfold mbind at 1. unfold get.
    destruct Hwf as (Hjd & Hscale & Hacc).
    unfold mbind, set_timeScale.
    rewrite TimeControllerInvariants.state_after_notifyListeners.
    repeat split; try assumption. cbn [timeScale].
    rewrite TimeControllerInvariants.abs_opp_abs. assumption.
  - unfold forward. unfold mbind at 1. unfold get.
    destruct Hwf as (Hjd & Hscale & Hacc).
    unfold mbind, set_timeScale.
    rewrite TimeControllerInvariants.state_after_notifyListeners.
    repeat split; try assumption. cbn [timeScale].
    rewrite TimeControllerInvariants.abs_abs. assumption.
  - unfold setDate. rewrite state_after_lift_bind.
    destruct (invariant _ _) as [[] |]; [| assumption].
    rewrite state_after_lift_bind.
    destruct (dateToJulian date) as [jd |] eqn:Hjd; [| assumption].
    apply well_formed_set_julianDate; [assumption |].
    exact (dateToJulian_not_nan _ _ Hjd).
  - unfold setJulianDate. rewrite state_after_lift_bind.
    destruct (assertFinite jd _) as [[] |] eqn:Hf; [| assumption].
    rewrite state_after_lift_bind.
    destruct (invariant _ _) as [[] |]; [| assumption].
    apply well_formed_set_julianDate; [assumption |].
    apply finite_not_nan. exact (assertFinite_Ok _ _ _ Hf).
  - unfold addDays. rewrite state_after_lift_bind.
    destruct (assertFinite days _) as [[] |]; [| assumption].
    unfold mbind at 1. unfold get.
    rewrite state_after_lift_bind.
    destruct (invariant _ _) as [[] |] eqn:Hb; [| assumption].
    apply invariant_Ok in Hb.
    apply well_formed_set_julianDate; [assumption |].
    exact (in_band_not_nan _ Hb).
  - unfold jumpToJ2000.
    apply well_formed_set_julianDate; [assumption | reflexivity].
Qed.

Lemma well_formed_jumpToNow (now : Date) (this : t) :
  well_formed this -> well_formed (state_after (jumpToNow now this)).
Proof.
  intro Hwf. unfold jumpToNow. rewrite state_after_lift_bind.
  destruct (dateToJulian now) as [jd |] eqn:Hjd; [| assumption].
  apply well_formed_set_julianDate; [assumption |].
  exact (dateToJulian_not_nan _ _ Hjd).
Qed.

Lemma well_formed_constructor (now : Date) (this : t) :
  constructor now = Ok this -> well_formed this.
Proof.
  unfold constructor. intro H. invert_Ok H. injection H as <-.
  match goal with Hi : invariant (in_band _) _ = Ok _ |- _ =>
    apply invariant_Ok in Hi; apply in_band_not_nan in Hi end.
  split; [assumption |]. split; vm_compute; reflexivity.
Qed.

Lemma held_well_formed (this : t) : held this -> well_formed this.
Proof.
  induction 1 as [now this Hnew | o this _ IH | now this _ IH].
  - exact (well_formed_constructor now this Hnew).
  - exact (well_formed_operation o this IH).
  - exact (well_formed_jumpToNow now this IH).
Qed.

(** An operation that returns has notified the listeners, unless it is
    [update] on a paused controller; and the listeners are notified only
    of a day count inside the band. *)
Lemma returned_in_band (o : operation) (this this' : t) (u : unit) :
  run o this = Returns u this' ->
  (forall deltaSeconds, o = Update deltaSeconds -> isPaused this = false) ->
  in_band (julianDate this') = true.
Proof.
  intros H Hp.
  destruct o; cbn [run] in H;
    unfold update, setTimeScale, pause, resume, togglePause, reverse,
      forward, setDate, setJulianDate, addDays, jumpToJ2000 in H.
  1: { apply mbind_Returns in H. destruct H as (this0 & s0 & Hg & H).
       injection Hg as <- <-.
       rewrite (Hp deltaSeconds eq_refl) in H.
       invert_Returns H.
       apply TimeControllerFacts.notifyListeners_Returns in H.
       destruct H as [-> H]. assumption. }
  all: invert_Returns H;
    apply TimeControllerFacts.notifyListeners_Returns in H;
    destruct H as [-> H]; assumption.
Qed.

(** A controller constructed on 2026-11-03, paused, then asked for the
    year 60000. *)
Definition constructed_controller : t :=
  value_or TimeControllerFacts.j2000_controller
    (constructor (JSDate.ymdhms 2026 11 3 12 0 0)).

Definition paused_controller : t :=
  state_after (run Pause constructed_controller).

Definition stranded_controller : t :=
  state_after (run (SetDate far_future) paused_controller).

Lemma stranded_controller_held : held stranded_controller.
Proof.
  unfold stranded_controller, paused_controller.
  apply (held_operation (SetDate far_future)).
  apply (held_operation Pause).
  apply (held_constructor (JSDate.ymdhms 2026 11 3 12 0 0)).
  vm_compute. reflexivity.
Qed.

End HeldControllers.

(** X1.  Every controller a program can hold, that is a constructed
    controller after any sequence of public operations, each of which
    returned or threw, has a day count that is a number (not NaN), a time
    scale of magnitude at most 10,000,000 and an accumulated time that is
    not negative.  Every operation that returns, other than [update] on a
    paused controller, leaves the day count strictly inside the band
    (0, 2e7).  The band itself is not kept by every held controller:
    after [pause], [setDate] of the year 60000 throws and leaves the day
    count 23635609.5, and [update] then returns on that controller without
    touching it. *)
Theorem held_controller_well_formed :
  (forall this, TimeControllerInvariants.held this -> TimeControllerInvariants.well_formed this) /\
  (forall (o : TimeController.operation) (this this' : TimeController.t) (u : unit),
     TimeController.run o this = Returns u this' ->
     (forall deltaSeconds, o = TimeController.Update deltaSeconds ->
                           TimeController.isPaused this = false) ->
     TimeController.in_band (TimeController.julianDate this') = true) /\
  (TimeControllerInvariants.held HeldControllers.stranded_controller /\
   TimeController.julianDate HeldControllers.stranded_controller
   = dec 236356095 1 /\
   TimeController.in_band
     (TimeController.julianDate HeldControllers.stranded_controller) = false /\
   TimeController.update (num 1) HeldControllers.stranded_controller
   = Returns tt HeldControllers.stranded_controller).
Proof.
  split; [exact HeldControllers.held_well_formed |].
  split; [exact HeldControllers.returned_in_band |].
  split; [exact HeldControllers.stranded_controller_held |].
  repeat split; vm_compute; reflexivity.
Qed.

(** The controller constructed on 2026-11-03, set to a thousand times
    real time, reversed, and advanced by one frame. *)
Definition fast_controller : TimeController.t :=
  state_after (TimeController.run (TimeController.SetTimeScale (num 1000))
                 HeldControllers.constructed_controller).

Definition reversed_controller : TimeController.t :=
  state_after (TimeController.run TimeController.Reverse fast_controller).

Definition sample_controller : TimeController.t :=
  state_after (TimeController.run (TimeController.Update (dec 16 3))
                 reversed_controller).

Lemma held_controller_well_formed_witness :
  TimeControllerInvariants.well_formed sample_controller /\
  TimeController.in_band (TimeController.julianDate sample_controller) = true.
Proof.
  split.
  - apply (proj1 held_controller_well_formed).
    unfold sample_controller, reversed_controller, fast_controller.
    apply (TimeControllerInvariants.held_operation (TimeController.Update (dec 16 3))).
    apply (TimeControllerInvariants.held_operation TimeController.Reverse).
    apply (TimeControllerInvariants.held_operation (TimeController.SetTimeScale (num 1000))).
    apply (TimeControllerInvariants.held_constructor (JSDate.ymdhms 2026 11 3 12 0 0)).
    vm_compute. reflexivity.
  - apply (proj1 (proj2 held_controller_well_formed)
             (TimeController.Update (dec 16 3)) reversed_controller
             sample_controller tt).
    + vm_compute. reflexivity.
    + intros deltaSeconds _. vm_compute. reflexivity.
Defined.

(** ** Days since J2000 *)

Module Elapsed.

Import F64 Rounding Direction.

(** For representable numbers, the order of exponents and mantissas is
    the order of the values. *)
Lemma canonical_order (m1 e1 m2 e2 ez : Z) :
  canonical m1 e1 -> canonical m2 e2 -> ez <= e1 -> ez <= e2 ->
  e2 < e1 \/ (e1 = e2 /\ m2 <= m1) ->
  m2 * 2 ^ (e2 - ez) <= m1 * 2 ^ (e1 - ez).
Proof.
  intros H1 H2 Hz1 Hz2 Hlex.
  destruct (canonical_bounds m1 e1 H1) as (Hm1 & He1 & _ & Hn1).
  destruct (canonical_bounds m2 e2 H2) as (Hm2 & He2 & _ & _).
  assert (Hpow : 0 < 2 ^ (e2 - ez)) by (apply Z.pow_pos_nonneg; lia).
  destruct Hlex as [Hlt | [-> Hle]]; [| nia].
  replace (e1 - ez) with ((e1 - e2) + (e2 - ez)) by lia.
  rewrite Z.pow_add_r by lia.
  assert (2 <= 2 ^ (e1 - e2)).
  { change 2 with (2 ^ 1) at 1. apply Z.pow_le_mono_r; lia. }
  assert (2 ^ 52 <= m1) by (apply Hn1; lia).
  assert (Hstep : 2 ^ 52 * 2 <= m1 * 2 ^ (e1 - e2))
    by (apply Z.mul_le_mono_nonneg; lia).
  change (2 ^ 53) with (2 ^ 52 * 2) in Hm2.
  assert (Hm : m2 <= m1 * 2 ^ (e1 - e2)) by lia.
  rewrite Z.mul_assoc. apply Z.mul_le_mono_nonneg_r; lia.
Qed.

Lemma signed_geb (x : float) :
  zero_or_signed false x -> geb x zero = true.
Proof. destruct x as [[] | | | [] m e]; try contradiction; try discriminate; reflexivity. Qed.

Lemma signed_leb (x : float) :
  zero_or_signed true x -> leb x zero = true.
Proof. destruct x as [[] | | | [] m e]; try contradiction; try discriminate; reflexivity. Qed.

Lemma at_most_signed (s : bool) (m0 e0 : Z) (x : float) :
  at_most s m0 e0 x -> isFinite x = true /\ zero_or_signed s x.
Proof. intro H. inversion H; subst; split; reflexivity. Qed.

(** The difference of two positive representable numbers is finite, and
    its sign is the order of the two numbers. *)
Lemma sub_positive (mx : positive) (ex : Z) (my : positive) (ey : Z) :
  valid_binary prec emax (S754_finite false mx ex) = true ->
  valid_binary prec emax (S754_finite false my ey) = true ->
  let d := sub (S754_finite false mx ex) (S754_finite false my ey) in
  isFinite d = true /\
  (geb (S754_finite false mx ex) (S754_finite false my ey) = true ->
   geb d zero = true) /\
  (leb (S754_finite false mx ex) (S754_finite false my ey) = true ->
   leb d zero = true).
Proof.
  intros Hvx Hvy.
  destruct (valid_canonical _ _ _ Hvx) as [Hcx Hex].
  destruct (valid_canonical _ _ _ Hvy) as [Hcy Hey].
  cbv zeta. cbn [sub SFsub cond_Zopp].
  destruct (shl_align_spec mx ex (Z.min ex ey)) as [_ HX].
  destruct (shl_align_spec my ey (Z.min ex ey)) as [_ HY].
  replace (Z.min ex (Z.min ex ey)) with (Z.min ex ey) in HX by lia.
  replace (Z.min ey (Z.min ex ey)) with (Z.min ex ey) in HY by lia.
  set (ez := Z.min ex ey) in *.
  set (X := fst (shl_align mx ex ez)) in *.
  set (Y := fst (shl_align my ey ez)) in *.
  assert (Hge : geb (S754_finite false mx ex) (S754_finite false my ey) = true ->
                Zpos Y <= Zpos X).
  { intro H. apply Order.geb_spec in H. destruct H as (_ & _ & H).
    unfold Order.below, Order.key in H. rewrite HX, HY.
    apply canonical_order; try assumption; unfold ez; lia. }
  assert (Hle : leb (S754_finite false mx ex) (S754_finite false my ey) = true ->
                Zpos X <= Zpos Y).
  { intro H. apply Order.leb_spec in H. destruct H as (_ & _ & H).
    unfold Order.below, Order.key in H. rewrite HX, HY.
    apply canonical_order; try assumption; unfold ez; lia. }
  destruct (Zpos X - Zpos Y) as [| p | p] eqn:Hdiff; cbn [binary_normalize].
  - repeat split; reflexivity.
  - assert (Hmost : at_most false (Zpos mx) ex (binary_round prec emax false p ez)).
    { apply binary_round_upper; try assumption; [unfold ez; lia |].
      rewrite <- HX. lia. }
    apply at_most_signed in Hmost. destruct Hmost as [Hf Hs].
    split; [assumption |]. split; intro H.
    + apply signed_geb. assumption.
    + specialize (Hle H). lia.
  - assert (Hmost : at_most true (Zpos my) ey (binary_round prec emax true p ez)).
    { apply binary_round_upper; try assumption; [unfold ez; lia |].
      rewrite <- HY. lia. }
    apply at_most_signed in Hmost. destruct Hmost as [Hf Hs].
    split; [assumption |]. split; intro H.
    + specialize (Hge H). lia.
    + apply signed_leb. assumption.
Qed.

Lemma J2000_value : J2000_JD = S754_finite false 5264652799836160 (-31).
Proof. vm_compute. reflexivity. Qed.

End Elapsed.

(** X16.  [getDaysSinceJ2000] never throws on a controller whose Julian
    date is a binary64 number inside the band: it returns a finite number
    and leaves the controller as it is.  The number is not negative when
    the Julian date is at or after J2000 (2451545), not positive when it is
    at or before J2000, and exactly 0 at J2000. *)
Theorem getDaysSinceJ2000_returns (this : TimeController.t) :
  valid_binary F64.prec F64.emax (TimeController.julianDate this) = true ->
  TimeController.in_band (TimeController.julianDate this) = true ->
  exists days : float,
    getDaysSinceJ2000 this = Returns days this /\
    F64.isFinite days = true /\
    (F64.geb (TimeController.julianDate this) J2000_JD = true ->
     F64.geb days F64.zero = true) /\
    (F64.leb (TimeController.julianDate this) J2000_JD = true ->
     F64.leb days F64.zero = true) /\
    (TimeController.julianDate this = J2000_JD -> days = F64.zero).
Proof.
  intros Hvalid Hband.
  assert (Hpositive : exists m e,
            TimeController.julianDate this = S754_finite false m e).
  { unfold TimeController.in_band in Hband. apply andb_prop in Hband.
    destruct Hband as [Hlow Hhigh]. revert Hlow Hhigh.
    destruct (TimeController.julianDate this) as [[] | [] | | [] m e];
      intros Hlow Hhigh; try discriminate Hlow; try discriminate Hhigh.
    eauto. }
  destruct Hpositive as (m & e & Hjd).
  unfold getDaysSinceJ2000. unfold mbind at 1. unfold get. cbv zeta.
  rewrite Hjd in *. rewrite Elapsed.J2000_value.
  destruct (Elapsed.sub_positive m e 5264652799836160 (-31) Hvalid
              ltac:(vm_compute; reflexivity)) as (Hf & Hge & Hle).
  cbv zeta in Hf, Hge, Hle.
  rewrite mbind_lift, (assertFinite_finite _ _ Hf).
  eexists. split; [reflexivity |].
  split; [assumption |]. split; [assumption |]. split; [assumption |].
  intro Heq. injection Heq as -> ->.
  apply F64Facts.sub_self_finite.
Qed.

Lemma getDaysSinceJ2000_returns_witness :
  exists days : float,
    getDaysSinceJ2000 TimeControllerFacts.j2000_controller
    = Returns days TimeControllerFacts.j2000_controller /\
    F64.isFinite days = true /\
    (F64.geb J2000_JD J2000_JD = true -> F64.geb days F64.zero = true) /\
    (F64.leb J2000_JD J2000_JD = true -> F64.leb days F64.zero = true) /\
    (J2000_JD = J2000_JD -> days = F64.zero).
Proof.
  apply (getDaysSinceJ2000_returns TimeControllerFacts.j2000_controller).
  - vm_compute. reflexivity.
  - vm_compute. reflexivity.
Defined.

(** ** Centuries since J2000 *)

Module Centuries.

Import F64 F64Facts Rounding Direction Elapsed.

(** Rounding a vanished mantissa does not overflow. *)
Lemma binary_round_aux_zero (s : bool) (e : Z) (l : location) :
  e <= 971 -> isFinite (binary_round_aux prec emax s 0 e l) = true.
Proof.
  intro He. unfold binary_round_aux.
  destruct (shr_fexp_spec 0 e l ltac:(lia)) as [He1 Hm1].
  destruct (shr_fexp prec emax 0 e l) as [mrs1 e1].
  cbn [fst snd] in He1, Hm1. cbv zeta in He1, Hm1.
  rewrite Z.div_0_l in Hm1 by (apply Z.pow_nonzero; lia).
  rewrite fexp_eq in He1. change (Zdigits2 0) with 0 in He1.
  set (m1 := round_nearest_even (shr_m mrs1) (loc_of_shr_record mrs1)).
  assert (Hm1b : 0 <= m1 <= 1).
  { pose proof (round_nearest_even_bounds (shr_m mrs1)
                  (loc_of_shr_record mrs1) ltac:(lia)) as Hb.
    fold m1 in Hb. lia. }
  destruct (shr_fexp_spec m1 e1 loc_Exact ltac:(lia)) as [He2 Hm2].
  destruct (shr_fexp prec emax m1 e1 loc_Exact) as [mrs2 e2].
  cbn [fst snd] in He2, Hm2. cbv zeta in He2, Hm2.
  rewrite fexp_eq in He2, Hm2.
  assert (Hd : Zdigits2 m1 = m1).
  { destruct (Z.eq_dec m1 0) as [-> | Hnz]; [reflexivity |].
    assert (Hone : m1 = 1) by lia. rewrite Hone. reflexivity. }
  rewrite Hd in He2, Hm2.
  assert (He2eq : e2 = e1) by lia.
  rewrite He2eq in *. rewrite Z.max_l, Z.sub_diag in Hm2 by lia.
  change (2 ^ 0) with 1 in Hm2. rewrite Z.div_1_r in Hm2. rewrite Hm2.
  destruct m1 as [| p | p]; try lia; [reflexivity |].
  replace (e1 <=? emax - prec) with true; [reflexivity |].
  symmetry. apply Z.leb_le. unfold emax, prec. lia.
Qed.

Lemma num_36525 : num 36525 = S754_finite false 5019957775564800 (-37).
Proof. vm_compute. reflexivity. Qed.

Lemma log2_quotient (a b : Z) :
  0 < b -> b <= a -> Z.log2 (a / b) <= Z.log2 a - Z.log2 b.
Proof.
  intros Hb Hab.
  assert (Hpow : 0 < 2 ^ Z.log2 b)
    by (apply Z.pow_pos_nonneg; [lia | apply Z.log2_nonneg]).
  assert (Hle : 2 ^ Z.log2 b <= b) by (apply Z.log2_spec; lia).
  assert (Hq : a / b <= a / 2 ^ Z.log2 b).
  { apply Z.div_le_compat_l; lia. }
  etransitivity; [apply Z.log2_le_mono; exact Hq |].
  rewrite log2_div_pow2 by (try lia; apply Z.log2_nonneg).
  assert (Z.log2 b <= Z.log2 a) by (apply Z.log2_le_mono; lia).
  lia.
Qed.

(** A number of at most 53 bits and a non-positive exponent, divided by
    36525, does not overflow. *)
Lemma div_36525_finite (x : float) :
  match x with
  | S754_zero _ => True
  | S754_finite _ m e => Zpos m < 2 ^ 53 /\ e <= 0
  | _ => False
  end ->
  isFinite (div x (num 36525)) = true.
Proof.
  rewrite num_36525.
  destruct x as [s | s | | s m e]; try contradiction; [reflexivity |].
  intros [Hm He]. cbn [div SFdiv].
  unfold SFdiv_core_binary.
  change (Zdigits2 5019957775564800) with 53.
  rewrite Zdigits2_log2 by lia. rewrite fexp_eq.
  assert (Hlog : Z.log2 (Zpos m) <= 52).
  { apply Z.log2_lt_pow2 in Hm; lia. }
  assert (Hlog0 : 0 <= Z.log2 (Zpos m)) by apply Z.log2_nonneg.
  set (e' := Z.min (Z.max (Z.log2 (Z.pos m) + 1 + e - (53 + -37) - 53) (-1074))
                   (e - -37)).
  set (sh := e - -37 - e').
  assert (Hsh : 0 <= sh) by (unfold sh, e'; lia).
  set (m' := match sh with
             | 0 => Z.pos m
             | Z.pos _ => Z.shiftl (Z.pos m) sh
             | Z.neg _ => 0
             end).
  assert (Hm' : m' = Zpos m * 2 ^ sh).
  { unfold m'. destruct sh as [| p | p] eqn:Hp; try lia.
    rewrite Z.shiftl_mul_pow2 by lia. reflexivity. }
  assert (Hm'pos : 0 < m').
  { rewrite Hm'. apply Z.mul_pos_pos; [lia | apply Z.pow_pos_nonneg; lia]. }
  pose proof (Z.div_eucl_eq m' 5019957775564800 ltac:(lia)) as Heucl.
  pose proof (Z.mod_pos_bound m' 5019957775564800 ltac:(lia)) as Hmod.
  unfold Z.modulo in Hmod.
  assert (Hdiv : fst (Z.div_eucl m' 5019957775564800) = m' / 5019957775564800)
    by reflexivity.
  destruct (Z.div_eucl m' 5019957775564800) as [q r]. cbn [fst] in Hdiv.
  assert (He' : e' <= 971) by (unfold e'; lia).
  destruct (Z.eq_dec q 0) as [-> | Hq].
  - apply binary_round_aux_zero. assumption.
  - assert (Hqpos : 0 < q) by nia.
    apply binary_round_aux_finite; try assumption.
    assert (Hge : 5019957775564800 <= m') by nia.
    rewrite Hdiv.
    pose proof (log2_quotient m' 5019957775564800 ltac:(lia) Hge) as Hlq.
    change (Z.log2 5019957775564800) with 52 in Hlq.
    assert (Hlm' : Z.log2 m' = sh + Z.log2 (Zpos m)).
    { rewrite Hm'. apply Z.log2_mul_pow2; lia. }
    unfold sh in *. lia.
Qed.

Lemma sub_positive_bits (mx : positive) (ex : Z) (my : positive) (ey : Z) :
  valid_binary prec emax (S754_finite false mx ex) = true ->
  valid_binary prec emax (S754_finite false my ey) = true ->
  match sub (S754_finite false mx ex) (S754_finite false my ey) with
  | S754_zero _ => True
  | S754_finite _ m e => Zpos m < 2 ^ 53 /\ e <= Z.max ex ey
  | _ => False
  end.
Proof.
  intros Hvx Hvy.
  destruct (valid_canonical _ _ _ Hvx) as [Hcx Hex].
  destruct (valid_canonical _ _ _ Hvy) as [Hcy Hey].
  cbn [sub SFsub cond_Zopp].
  destruct (shl_align_spec mx ex (Z.min ex ey)) as [_ HX].
  destruct (shl_align_spec my ey (Z.min ex ey)) as [_ HY].
  replace (Z.min ex (Z.min ex ey)) with (Z.min ex ey) in HX by lia.
  replace (Z.min ey (Z.min ex ey)) with (Z.min ex ey) in HY by lia.
  set (ez := Z.min ex ey) in *.
  set (X := fst (shl_align mx ex ez)) in *.
  set (Y := fst (shl_align my ey ez)) in *.
  destruct (Zpos X - Zpos Y) as [| p | p] eqn:Hdiff; cbn [binary_normalize].
  - exact I.
  - assert (Hmost : at_most false (Zpos mx) ex (binary_round prec emax false p ez)).
    { apply binary_round_upper; try assumption; [unfold ez; lia |].
      rewrite <- HX. lia. }
    inversion Hmost; [exact I | split; [assumption | lia]].
  - assert (Hmost : at_most true (Zpos my) ey (binary_round prec emax true p ez)).
    { apply binary_round_upper; try assumption; [unfold ez; lia |].
      rewrite <- HY. lia. }
    inversion Hmost; [exact I | split; [assumption | lia]].
Qed.

Lemma band_exponent (m : positive) (e : Z) :
  TimeController.in_band (S754_finite false m e) = true -> e <= -28.
Proof.
  unfold TimeController.in_band. intro H. apply andb_prop in H.
  destruct H as [_ H]. apply Order.ltb_spec in H. destruct H as (_ & _ & H).
  change (Order.key TimeController.MAX_JULIAN_DATE)
    with (1, -28, 5368709120000000) in H.
  unfold Order.below, Order.key in H. lia.
Qed.

End Centuries.

Lemma Returns_value {S A : Type} (a a' : A) (s s' : S) :
  Returns a s = Returns a' s' -> a = a'.
Proof. intro H. inversion H. reflexivity. Qed.

Lemma getDaysSinceJ2000_bits (this : TimeController.t) :
  valid_binary F64.prec F64.emax (TimeController.julianDate this) = true ->
  TimeController.in_band (TimeController.julianDate this) = true ->
  exists days : float,
    getDaysSinceJ2000 this = Returns days this /\
    match days with
    | S754_zero _ => True
    | S754_finite _ m e => Zpos m < 2 ^ 53 /\ e <= 0
    | _ => False
    end.
Proof.
  intros Hvalid Hband.
  assert (Hpositive : exists m e,
            TimeController.julianDate this = S754_finite false m e).
  { unfold TimeController.in_band in Hband. apply andb_prop in Hband.
    destruct Hband as [Hlow Hhigh]. revert Hlow Hhigh.
    destruct (TimeController.julianDate this) as [[] | [] | | [] m e];
      intros Hlow Hhigh; try discriminate Hlow; try discriminate Hhigh.
    eauto. }
  destruct Hpositive as (m & e & Hjd).
  unfold getDaysSinceJ2000. unfold mbind at 1. unfold get. cbv zeta.
  rewrite Hjd in *. rewrite Elapsed.J2000_value.
  destruct (Elapsed.sub_positive m e 5264652799836160 (-31) Hvalid
              ltac:(vm_compute; reflexivity)) as (Hf & _).
  cbv zeta in Hf.
  pose proof (Centuries.sub_positive_bits m e 5264652799836160 (-31) Hvalid
                ltac:(vm_compute; reflexivity)) as Hbits.
  pose proof (Centuries.band_exponent m e Hband) as He.
  rewrite mbind_lift, (assertFinite_finite _ _ Hf).
  eexists. split; [reflexivity |].
  destruct (F64.sub _ _) as [s | s | | s md ed]; try contradiction;
    [exact I |].
  destruct Hbits as [Hm Hed]. split; [assumption | lia].
Qed.

(** X17.  [getCenturiesSinceJ2000] never throws on a controller whose
    Julian date is a binary64 number inside the band: it returns, with the
    controller unchanged, the finite number of days that
    [getDaysSinceJ2000] returns divided by 36525. *)
Theorem getCenturiesSinceJ2000_returns (this : TimeController.t) :
  valid_binary F64.prec F64.emax (TimeController.julianDate this) = true ->
  TimeController.in_band (TimeController.julianDate this) = true ->
  exists days : float,
    getDaysSinceJ2000 this = Returns days this /\
    getCenturiesSinceJ2000 this = Returns (days / num 36525)%js this /\
    F64.isFinite (days / num 36525)%js = true.
Proof.
  intros Hvalid Hband.
  destruct (getDaysSinceJ2000_bits this Hvalid Hband) as (days & Hdays & Hbits).
  exists days. split; [assumption |].
  pose proof (Centuries.div_36525_finite days Hbits) as Hfinite.
  split; [| assumption].
  unfold getDaysSinceJ2000 in Hdays. unfold mbind at 1 in Hdays.
  unfold get in Hdays. cbv zeta in Hdays. rewrite mbind_lift in Hdays.
  destruct (assertFinite _ _) in Hdays; [| discriminate].
  unfold ret in Hdays. apply Returns_value in Hdays. subst days.
  unfold getCenturiesSinceJ2000. unfold mbind at 1. unfold get. cbv zeta.
  rewrite mbind_lift, (assertFinite_finite _ _ Hfinite). reflexivity.
Qed.

Lemma getCenturiesSinceJ2000_returns_witness :
  exists days : float,
    getDaysSinceJ2000 TimeControllerFacts.j2000_controller
    = Returns days TimeControllerFacts.j2000_controller /\
    getCenturiesSinceJ2000 TimeControllerFacts.j2000_controller
    = Returns (days / num 36525)%js TimeControllerFacts.j2000_controller /\
    F64.isFinite (days / num 36525)%js = true.
Proof.
  apply (getCenturiesSinceJ2000_returns TimeControllerFacts.j2000_controller).
  - vm_compute. reflexivity.
  - vm_compute. reflexivity.
Defined.
